(** * webgrep-chrome: the match finder, the highlight coordinator and the
      search orchestrator, embedded in Rocq.

    The three TypeScript classes [SearchEngine], [HighlightManager] and
    [SearchController] are translated method by method.  What the browser
    provides (regular expressions, the DOM tree, [CSS.highlights], timers,
    the console, the clock) is the host: it is kept abstract where a
    statement holds for every host, and a small concrete regular-expression
    engine is supplied for the statements that run the code on an input. *)

From Stdlib Require Import ZArith Lia Bool Ascii SpecFloat.
From stdpp Require Import base gmap strings list.

Local Open Scope Z_scope.

(** ** JavaScript strings

    A string is a sequence of code units; the model keeps the code units
    below 256 (Rocq's [string]). *)

Definition backslash : ascii := ascii_of_nat 92.

(** WhiteSpace and LineTerminator code units, as [String.prototype.trim]
    removes them. *)
Definition isWhiteSpace (c : ascii) : bool :=
  let n := nat_of_ascii c in
  ((9 <=? n)%nat && (n <=? 13)%nat) || (n =? 32)%nat || (n =? 160)%nat.

Fixpoint trimStart (s : string) : string :=
  match s with
  | EmptyString => EmptyString
  | String c s' => if isWhiteSpace c then trimStart s' else s
  end.

Fixpoint trimEnd (s : string) : string :=
  match s with
  | EmptyString => EmptyString
  | String c s' =>
      match trimEnd s' with
      | EmptyString => if isWhiteSpace c then EmptyString else String c EmptyString
      | t => String c t
      end
  end.

(** [s.trim()] *)
Definition trim (s : string) : string := trimEnd (trimStart s).

(** [!s] on a string: only the empty string is falsy. *)
Definition falsy (s : string) : bool :=
  match s with EmptyString => true | String _ _ => false end.

Definition toLowerChar (c : ascii) : ascii :=
  let n := nat_of_ascii c in
  if ((65 <=? n)%nat && (n <=? 90)%nat)
     || ((192 <=? n)%nat && (n <=? 222)%nat && negb (n =? 215)%nat)
  then ascii_of_nat (n + 32) else c.

(** [s.toLowerCase()] *)
Fixpoint toLowerCase (s : string) : string :=
  match s with
  | EmptyString => EmptyString
  | String c s' => String (toLowerChar c) (toLowerCase s')
  end.

(** [list.includes(s)] on an array of strings. *)
Definition includes (l : list string) (s : string) : bool :=
  existsb (String.eqb s) l.

(** [s.substring(i, e)] for [i <= e]. *)
Definition substring (i e : nat) (s : string) : string :=
  String.substring i (e - i) s.

(** ** Errors and the state monad of the methods

    A method runs on a state, returns a value or throws, and leaves a new
    state.  [Timeout] is the outcome of a loop of the model that used up its
    bound; the theorems show where it cannot happen. *)

Inductive JsError : Type :=
| ReferenceError (msg : string)
| TypeError (msg : string)
| SyntaxError (msg : string).

Inductive Res (A : Type) : Type :=
| Ok (a : A)
| Throw (e : JsError)
| Timeout.
Arguments Ok {A} a.
Arguments Throw {A} e.
Arguments Timeout {A}.

Definition M (S A : Type) : Type := S -> Res A * S.

Definition ret {S A} (a : A) : M S A := fun s => (Ok a, s).

Definition bind {S A B} (m : M S A) (k : A -> M S B) : M S B :=
  fun s =>
    match m s with
    | (Ok a, s') => k a s'
    | (Throw e, s') => (Throw e, s')
    | (Timeout, s') => (Timeout, s')
    end.

Definition throw {S A} (e : JsError) : M S A := fun s => (Throw e, s).
Definition timeout {S A} : M S A := fun s => (Timeout, s).
Definition get {S} : M S S := fun s => (Ok s, s).
Definition gets {S A} (f : S -> A) : M S A := fun s => (Ok (f s), s).
Definition modify {S} (f : S -> S) : M S unit := fun s => (Ok tt, f s).

(** Run a computation on a component [T] of the state [S]. *)
Definition zoom {S T A} (proj : S -> T) (inj : T -> S -> S) (m : M T A) : M S A :=
  fun s => let '(r, t) := m (proj s) in (r, inj t s).

Declare Scope js_scope.
Delimit Scope js_scope with js.
Notation "'do' x <- c1 ; c2" := (bind c1 (fun x => c2))
  (at level 10, x name, c1 at level 100, c2 at level 200) : js_scope.
Notation "'call' c1 ; c2" := (bind c1 (fun _ => c2))
  (at level 10, c1 at level 100, c2 at level 200) : js_scope.

(** The state after a computation, and its outcome. *)
Definition exec_state {S A} (m : M S A) (s : S) : S := snd (m s).
Definition outcome {S A} (m : M S A) (s : S) : Res A := fst (m s).

(** ** JavaScript numbers

    A number is an IEEE 754 double.  The integers are kept apart, as a [Z]
    with exact arithmetic: the lengths and indices of arrays are below
    [2^32], and on integers below [2^53] the operations used here ([+], [-],
    [%] and the comparisons) are exact.  The other doubles (the fractions,
    the infinities and NaN) are the binary64 floats of the standard library
    with its correctly rounded operations; the sign of zero, which no
    operation of the program tells apart, is not kept. *)
Module Number.

Definition prec : Z := 53.
Definition emax : Z := 1024.

Inductive t : Type :=
| Int (z : Z)
| Fraction (f : spec_float)
| Infinity (negative : bool)
| NaN.

(** The double of an integer. *)
Definition ofZ (z : Z) : spec_float := binary_normalize prec emax z 0 false.

(** The integer a float is equal to, if any. *)
Definition integerOf (f : spec_float) : option Z :=
  match f with
  | S754_zero _ => Some 0
  | S754_finite s m e =>
      if 0 <=? e then Some (cond_Zopp s (Z.pos m * 2 ^ e))
      else if Z.pos m mod 2 ^ (- e) =? 0 then Some (cond_Zopp s (Z.pos m / 2 ^ (- e)))
      else None
  | _ => None
  end.

(** The double of a number, with its mantissa in canonical form. *)
Definition toFloat (x : t) : spec_float :=
  match x with
  | Int z => ofZ z
  | Fraction (S754_finite s m e) => binary_normalize prec emax (cond_Zopp s (Z.pos m)) e s
  | Fraction f => f
  | Infinity s => S754_infinity s
  | NaN => S754_nan
  end.

Definition ofFloat (f : spec_float) : t :=
  match f with
  | S754_nan => NaN
  | S754_infinity s => Infinity s
  | _ => match integerOf f with Some z => Int z | None => Fraction f end
  end.

(** [n % d] on doubles (Number::remainder): the result has the sign of
    [n] and is exact. *)
Definition SFrem (n d : spec_float) : spec_float :=
  match n, d with
  | S754_nan, _ | _, S754_nan => S754_nan
  | S754_infinity _, _ => S754_nan
  | _, S754_infinity _ => n
  | _, S754_zero _ => S754_nan
  | S754_zero _, _ => n
  | S754_finite sn mn en, S754_finite _ md ed =>
      let e := Z.min en ed in
      binary_normalize prec emax
        (cond_Zopp sn ((Z.pos mn * 2 ^ (en - e)) mod (Z.pos md * 2 ^ (ed - e)))) e sn
  end.

(** [x < y] and [x >= y]: false when either side is NaN. *)
Definition ltb (x y : t) : bool :=
  match x, y with
  | Int a, Int b => a <? b
  | _, _ => SFltb (toFloat x) (toFloat y)
  end.

Definition geb (x y : t) : bool :=
  match x, y with
  | Int a, Int b => a >=? b
  | _, _ => SFleb (toFloat y) (toFloat x)
  end.

(** [x + y], [x - y], [x % y] *)
Definition add (x y : t) : t :=
  match x, y with
  | Int a, Int b => Int (a + b)
  | _, _ => ofFloat (SFadd prec emax (toFloat x) (toFloat y))
  end.

Definition sub (x y : t) : t :=
  match x, y with
  | Int a, Int b => Int (a - b)
  | _, _ => ofFloat (SFsub prec emax (toFloat x) (toFloat y))
  end.

Definition rem (x y : t) : t :=
  match x, y with
  | Int a, Int b => if b =? 0 then NaN else Int (Z.rem a b)
  | _, _ => ofFloat (SFrem (toFloat x) (toFloat y))
  end.

(** The integer a number is equal to, if any. *)
Definition asInteger (x : t) : option Z :=
  match x with
  | Int z => Some z
  | Fraction f => integerOf f
  | Infinity _ | NaN => None
  end.

(** [array[x]]: the element when [x] is an index of the array,
    [undefined] when it is not (a negative number, a fraction, NaN, an
    index past the end). *)
Definition lookup {A : Type} (array : list A) (x : t) : option A :=
  match asInteger x with
  | Some z => if z <? 0 then None else array !! Z.to_nat z
  | None => None
  end.
#[global] Arguments lookup : simpl never.

End Number.

(** An integer is a number. *)
Coercion Number.Int : Z >-> Number.t.

(** ** Data model ([types/search.ts]) *)

Record SearchOptions : Type := {
  isRegex : bool;
  caseSensitive : bool;
  wholeWord : bool;
}.

(** A DOM [Text] node: its identity and its character data. *)
Record Text : Type := {
  nodeId : nat;
  textContent : string;
}.

(** A DOM [Range] after [setStart] and [setEnd]. *)
Record Range : Type := {
  startContainer : Text;
  rangeStart : Z;
  endContainer : Text;
  rangeEnd : Z;
}.

Record MatchData : Type := {
  text : string;
  range : Range;
  index : Z;
  node : Text;
  startOffset : Z;
  endOffset : Z;
}.

Record SearchResult : Type := {
  matches : list MatchData;
  totalCount : Z;
  searchTime : Z;
}.

Definition emptyResult : SearchResult :=
  {| matches := []; totalCount := 0; searchTime := 0 |}.

(** ** The host *)

(** *** The document *)

Record CSSStyleDeclaration : Type := {
  display : string;
  visibility : string;
  opacity : string;
}.

#[local] Set Warnings "-register-all".
Inductive Node : Type :=
| TextNode (t : Text)
| CommentNode (data : string)
| ElementNode (tag : string) (computed : CSSStyleDeclaration) (children : list Node).

Record HTMLElement : Type := {
  tagName : string;
  computedStyle : CSSStyleDeclaration;
  childNodes : list Node;
}.

(** *** [CSS.highlights], the console, animation frames, timers *)

(** [new Highlight(...ranges)] *)
Definition Highlight : Type := list Range.

Inductive ConsoleEntry : Type :=
| WarnInvalidMatchIndex (i : Number.t)
| WarnHighlightApiUnsupported
| ErrorInvalidRegex (msg : string).

(** What [requestAnimationFrame] was given: a smooth scroll centred on a
    range. *)
Inductive FrameCallback : Type :=
| ScrollToRange (r : Range).

(** What [setTimeout] was given: the closure of [SearchController.search]. *)
Inductive TimerCallback : Type :=
| DebouncedSearch (query : string) (options : SearchOptions) (promise : nat).

(** Calls that leave the code: host constructors and the callbacks of the
    user interface. *)
Inductive Event : Type :=
| RegExpConstructed (source flags : string)
| TreeWalkerCreated
| SearchCompleteCalled (handler : nat) (result : SearchResult)
| MatchChangeCalled (handler : nat) (current : Number.t) (total : Z)
| PromiseResolved (promise : nat) (result : SearchResult).

Record World : Type := {
  css_highlights : option (gmap string Highlight);
  console : list ConsoleEntry;
  animationFrames : list FrameCallback;
  timers : list (nat * (Z * TimerCallback));
  nextTimerId : nat;
  nextPromiseId : nat;
  clock : nat -> Z;
  clockReads : nat;
  trace : list Event;
  body : HTMLElement;
}.

Definition set_css_highlights (h : option (gmap string Highlight)) (w : World) : World :=
  {| css_highlights := h; console := console w; animationFrames := animationFrames w;
     timers := timers w; nextTimerId := nextTimerId w; nextPromiseId := nextPromiseId w;
     clock := clock w; clockReads := clockReads w; trace := trace w; body := body w |}.

Definition set_console (c : list ConsoleEntry) (w : World) : World :=
  {| css_highlights := css_highlights w; console := c; animationFrames := animationFrames w;
     timers := timers w; nextTimerId := nextTimerId w; nextPromiseId := nextPromiseId w;
     clock := clock w; clockReads := clockReads w; trace := trace w; body := body w |}.

Definition set_animationFrames (f : list FrameCallback) (w : World) : World :=
  {| css_highlights := css_highlights w; console := console w; animationFrames := f;
     timers := timers w; nextTimerId := nextTimerId w; nextPromiseId := nextPromiseId w;
     clock := clock w; clockReads := clockReads w; trace := trace w; body := body w |}.

Definition set_timers (t : list (nat * (Z * TimerCallback))) (w : World) : World :=
  {| css_highlights := css_highlights w; console := console w; animationFrames := animationFrames w;
     timers := t; nextTimerId := nextTimerId w; nextPromiseId := nextPromiseId w;
     clock := clock w; clockReads := clockReads w; trace := trace w; body := body w |}.

Definition set_nextTimerId (n : nat) (w : World) : World :=
  {| css_highlights := css_highlights w; console := console w; animationFrames := animationFrames w;
     timers := timers w; nextTimerId := n; nextPromiseId := nextPromiseId w;
     clock := clock w; clockReads := clockReads w; trace := trace w; body := body w |}.

Definition set_nextPromiseId (n : nat) (w : World) : World :=
  {| css_highlights := css_highlights w; console := console w; animationFrames := animationFrames w;
     timers := timers w; nextTimerId := nextTimerId w; nextPromiseId := n;
     clock := clock w; clockReads := clockReads w; trace := trace w; body := body w |}.

Definition set_clockReads (n : nat) (w : World) : World :=
  {| css_highlights := css_highlights w; console := console w; animationFrames := animationFrames w;
     timers := timers w; nextTimerId := nextTimerId w; nextPromiseId := nextPromiseId w;
     clock := clock w; clockReads := n; trace := trace w; body := body w |}.

Definition set_trace (t : list Event) (w : World) : World :=
  {| css_highlights := css_highlights w; console := console w; animationFrames := animationFrames w;
     timers := timers w; nextTimerId := nextTimerId w; nextPromiseId := nextPromiseId w;
     clock := clock w; clockReads := clockReads w; trace := t; body := body w |}.

(** [console.warn], [console.error] *)
Definition console_log (e : ConsoleEntry) : M World unit :=
  modify (fun w => set_console (console w ++ [e]) w).

Definition emit (e : Event) : M World unit :=
  modify (fun w => set_trace (trace w ++ [e]) w).

(** [performance.now()]: the next reading of the clock. *)
Definition performance_now : M World Z :=
  fun w => (Ok (clock w (clockReads w)), set_clockReads (S (clockReads w)) w).

(** *** Regular expressions

    The host compiles a pattern source with its flags to a matcher ([inr])
    or rejects it with the message of its SyntaxError ([inl]), and runs a
    matcher on a string at a position: [matchAt m s i = Some e] when the
    pattern matches [s] from [i] to [e]. *)
Class RegExpHost : Type := {
  Matcher : Type;
  compile : string -> string -> string + Matcher;
  matchAt : Matcher -> string -> nat -> option nat;
}.

(** A match that starts inside the string ends inside it, at or after its
    start. *)
Class RegExpLawful (host : RegExpHost) : Prop :=
  matchAt_bounds :
    forall (m : Matcher) (s : string) (i e : nat),
      (i <= String.length s)%nat -> matchAt m s i = Some e ->
      (i <= e <= String.length s)%nat.

(** *** The RegExp object

    [new RegExp(source, flags)], [exec] and [test] as ECMAScript defines them
    over the matcher (RegExpBuiltinExec), for the flags [g] and [i]. *)
Module RegExp.
Section WithHost.
Context {host : RegExpHost}.

Record t : Type := {
  matcher : Matcher;
  global : bool;
  lastIndex : nat;
}.

Definition set_lastIndex (n : nat) (re : t) : t :=
  {| matcher := matcher re; global := global re; lastIndex := n |}.

(** The array [exec] returns: [match.index] and [match[0]]. *)
Record ExecArray : Type := {
  at_index : nat;
  matched : string;
}.

Definition hasFlag (c : ascii) (flags : string) : bool :=
  existsb (Ascii.eqb c) (String.list_ascii_of_string flags).

(** [new RegExp(source, flags)]: the object, or the message of the
    SyntaxError. *)
Definition new (source flags : string) : string + t :=
  match compile source flags with
  | inr m => inr {| matcher := m; global := hasFlag "g" flags; lastIndex := 0 |}
  | inl msg => inl msg
  end.

(** The first position among [i, i+1, ..] ([n] of them) where the matcher
    succeeds, with the end of the match. *)
Fixpoint scan (m : Matcher) (s : string) (n i : nat) : option (nat * nat) :=
  match n with
  | O => None
  | S n' =>
      match matchAt m s i with
      | Some e => Some (i, e)
      | None => scan m s n' (S i)
      end
  end.

(** [re.exec(s)] *)
Definition exec (re : t) (s : string) : option ExecArray * t :=
  let len := String.length s in
  let start := if global re then lastIndex re else O in
  if (len <? start)%nat then
    (None, if global re then set_lastIndex 0 re else re)
  else
    match scan (matcher re) s (S len - start) start with
    | None => (None, if global re then set_lastIndex 0 re else re)
    | Some (i, e) =>
        (Some {| at_index := i; matched := substring i e s |},
         if global re then set_lastIndex e re else re)
    end.

(** [re.test(s)] *)
Definition test (re : t) (s : string) : bool * t :=
  match exec re s with
  | (Some _, re') => (true, re')
  | (None, re') => (false, re')
  end.

End WithHost.
Arguments t {host}.
End RegExp.

(** ** [SearchEngine] ([content/searchEngine.ts]) *)
Module SearchEngine.

Inductive NodeFilter : Type := FILTER_ACCEPT | FILTER_REJECT.

Definition MAX_MATCHES : Z := 10000.

(** [text.replace(/[.*+?^${}()|[\]\\]/g, '\\$&')]: the characters the
    class lists. *)
Definition isSpecial (c : ascii) : bool :=
  existsb (Ascii.eqb c)
    ["."; "*"; "+"; "?"; "^"; "$"; "{"; "}"; "("; ")"; "|"; "["; "]"; backslash]%char.

Fixpoint escapeRegex (text : string) : string :=
  match text with
  | EmptyString => EmptyString
  | String c rest =>
      if isSpecial c then String backslash (String c (escapeRegex rest))
      else String c (escapeRegex rest)
  end.

(** The parent element of a text node, as [shouldIncludeNode] looks at it. *)
Record ParentElement : Type := {
  parentTag : string;
  parentStyle : CSSStyleDeclaration;
}.

Definition excludedTags : list string :=
  ["script"; "style"; "noscript"; "iframe"; "object"; "embed"; "svg"].

Definition shouldIncludeNode (parent : option ParentElement) (node : Text) : NodeFilter :=
  match parent with
  | None => FILTER_REJECT
  | Some parent =>
      if falsy (trim (textContent node)) then FILTER_REJECT
      else
        let style := parentStyle parent in
        if String.eqb (display style) "none"
           || String.eqb (visibility style) "hidden"
           || String.eqb (opacity style) "0"
        then FILTER_REJECT
        else
          let tagName := toLowerCase (parentTag parent) in
          if includes excludedTags tagName then FILTER_REJECT
          else if includes ["input"; "textarea"; "select"] tagName then FILTER_REJECT
          else FILTER_ACCEPT
  end.

(** The [Text] nodes a TreeWalker with [SHOW_TEXT] reaches below a node, in
    document order, each with its parent element. *)
Fixpoint textNodesOf (parent : ParentElement) (n : Node) : list (ParentElement * Text) :=
  match n with
  | TextNode t => [(parent, t)]
  | CommentNode _ => []
  | ElementNode tag computed children =>
      flat_map (textNodesOf {| parentTag := tag; parentStyle := computed |}) children
  end.

Definition accepted (pt : ParentElement * Text) : bool :=
  match shouldIncludeNode (Some (fst pt)) (snd pt) with
  | FILTER_ACCEPT => true
  | FILTER_REJECT => false
  end.

(** The sequence the generator yields. *)
Definition textNodes (rootElement : HTMLElement) : list Text :=
  map snd
    (List.filter accepted
       (flat_map
          (textNodesOf {| parentTag := tagName rootElement;
                          parentStyle := computedStyle rootElement |})
          (childNodes rootElement))).

Definition getTextNodesGenerator (rootElement : HTMLElement) : M World (list Text) :=
  (call emit TreeWalkerCreated;
   ret (textNodes rootElement))%js.

Section WithHost.
Context {host : RegExpHost}.

Definition buildPattern (searchText : string) (options : SearchOptions)
  : M World (option RegExp.t) :=
  let pattern := searchText in
  let pattern := if negb (isRegex options) then escapeRegex pattern else pattern in
  let pattern :=
    if wholeWord options
    then String backslash (String "b" pattern) +:+ String backslash "b"
    else pattern in
  let flags := if caseSensitive options then "g" else "gi" in
  (call emit (RegExpConstructed pattern flags);
   match RegExp.new pattern flags with
   | inr re => ret (Some re)
   | inl msg =>
       call console_log (ErrorInvalidRegex msg);
       ret None
   end)%js.

Definition createMatchData (textNode : Text) (m : RegExp.ExecArray) (index : Z)
  : MatchData :=
  let s := Z.of_nat (RegExp.at_index m) in
  let e := Z.of_nat (RegExp.at_index m) + Z.of_nat (String.length (RegExp.matched m)) in
  {| text := RegExp.matched m;
     range := {| startContainer := textNode; rangeStart := s;
                 endContainer := textNode; rangeEnd := e |};
     index := index;
     node := textNode;
     startOffset := s;
     endOffset := e |}.

(** The [for] loop of [findMatchesInNode]; [pushed] is [matches.length].
    [None] when [fuel] iterations did not finish it. *)
Fixpoint execLoop (fuel : nat) (textNode : Text) (text : string) (pattern : RegExp.t)
    (startIndex : Z) (pushed : nat) : option (list MatchData * RegExp.t) :=
  match fuel with
  | O => None
  | S fuel' =>
      match RegExp.exec pattern text with
      | (None, pattern) => Some ([], pattern)
      | (Some m, pattern) =>
          let md := createMatchData textNode m (startIndex + Z.of_nat pushed) in
          let pattern :=
            if (RegExp.at_index m =? RegExp.lastIndex pattern)%nat
            then RegExp.set_lastIndex (S (RegExp.lastIndex pattern)) pattern
            else pattern in
          match execLoop fuel' textNode text pattern startIndex (S pushed) with
          | Some (rest, pattern) => Some (md :: rest, pattern)
          | None => None
          end
      end
  end.

Definition findMatchesInNode (textNode : Text) (pattern : RegExp.t) (startIndex : Z)
  : option (list MatchData * RegExp.t) :=
  let text := textContent textNode in
  let pattern := RegExp.set_lastIndex 0 pattern in
  execLoop (S (S (String.length text))) textNode text pattern startIndex 0.

(** The [for .. of] loop of [search] over the text nodes. *)
Fixpoint nodeLoop (nodes : list Text) (pattern : RegExp.t) (matches : list MatchData)
  : option (list MatchData) :=
  match nodes with
  | [] => Some matches
  | textNode :: rest =>
      if Z.of_nat (length matches) >=? MAX_MATCHES then Some matches
      else
        match findMatchesInNode textNode pattern (Z.of_nat (length matches)) with
        | Some (nodeMatches, pattern) => nodeLoop rest pattern (matches ++ nodeMatches)
        | None => None
        end
  end.

(** [search(searchText, options, rootElement = document.body)] *)
Definition search (searchText : string) (options : SearchOptions)
    (rootElement : option HTMLElement) : M World SearchResult :=
  (do rootElement <- match rootElement with
                     | Some r => ret r
                     | None => gets body
                     end;
   do startTime <- performance_now;
   if falsy searchText then
     ret {| matches := []; totalCount := 0; searchTime := 0 |}
   else
     do pattern <- buildPattern searchText options;
     match pattern with
     | None => ret {| matches := []; totalCount := 0; searchTime := 0 |}
     | Some pattern =>
         do nodes <- getTextNodesGenerator rootElement;
         match nodeLoop nodes pattern [] with
         | None => timeout
         | Some matches =>
             do endTime <- performance_now;
             ret {| matches := matches;
                    totalCount := Z.of_nat (length matches);
                    searchTime := endTime - startTime |}
         end
     end)%js.

Record Validation : Type := {
  isValid : bool;
  error : option string;
}.

(** The sources of the four regular-expression literals of
    [validatePattern]. *)
Definition dangerousPatterns : list string :=
  ["(\w+)+\+"; "(a+)+\+"; "(a\*)\*\+"; "(\(.+\))+\+"].

(** Evaluating the array of literals builds a RegExp for each; a literal
    the host cannot compile is a SyntaxError of the script. *)
Fixpoint regexLiterals (sources : list string) : Res (list RegExp.t) :=
  match sources with
  | [] => Ok []
  | src :: rest =>
      match RegExp.new src EmptyString with
      | inl msg => Throw (SyntaxError msg)
      | inr re =>
          match regexLiterals rest with
          | Ok res => Ok (re :: res)
          | Throw e => Throw e
          | Timeout => Timeout
          end
      end
  end.

(** [static validatePattern(pattern)] *)
Definition validatePattern (pattern : string) : Res Validation :=
  if Z.of_nat (String.length pattern) >? 1000 then
    Ok {| isValid := false; error := Some "Pattern too long (max 1000 characters)" |}
  else
    match RegExp.new pattern EmptyString with
    | inl msg => Ok {| isValid := false; error := Some msg |}
    | inr _ =>
        match regexLiterals dangerousPatterns with
        | Ok dangerous =>
            if existsb (fun d => fst (RegExp.test d pattern)) dangerous then
              Ok {| isValid := false;
                    error := Some "Pattern contains potentially dangerous nested quantifiers" |}
            else Ok {| isValid := true; error := None |}
        | Throw e => Throw e
        | Timeout => Timeout
        end
    end.

End WithHost.
End SearchEngine.

(** ** [HighlightManager] *)
Module HighlightManager.

Record t : Type := {
  allMatchesHighlight : option Highlight;
  currentMatchHighlight : option Highlight;
  matches : list MatchData;
  currentIndex : Number.t;
}.

(** The state of a method: the object and the host. *)
Definition St : Type := (t * World)%type.

(** A fresh [new HighlightManager()]. *)
Definition init : t :=
  {| allMatchesHighlight := None; currentMatchHighlight := None;
     matches := []; currentIndex := -1 |}.

Definition ALL_MATCHES_NAME : string := "webgrep-search-matches".
Definition CURRENT_MATCH_NAME : string := "webgrep-search-current".

Definition this : M St t := gets fst.
Definition inWorld {A} (m : M World A) : M St A :=
  zoom snd (fun w s => (fst s, w)) m.

Definition set_allMatchesHighlight (h : option Highlight) : M St unit :=
  modify (fun s =>
    ({| allMatchesHighlight := h; currentMatchHighlight := currentMatchHighlight (fst s);
        matches := matches (fst s); currentIndex := currentIndex (fst s) |}, snd s)).

Definition set_currentMatchHighlight (h : option Highlight) : M St unit :=
  modify (fun s =>
    ({| allMatchesHighlight := allMatchesHighlight (fst s); currentMatchHighlight := h;
        matches := matches (fst s); currentIndex := currentIndex (fst s) |}, snd s)).

Definition set_matches (ms : list MatchData) : M St unit :=
  modify (fun s =>
    ({| allMatchesHighlight := allMatchesHighlight (fst s);
        currentMatchHighlight := currentMatchHighlight (fst s);
        matches := ms; currentIndex := currentIndex (fst s) |}, snd s)).

Definition set_currentIndex (i : Number.t) : M St unit :=
  modify (fun s =>
    ({| allMatchesHighlight := allMatchesHighlight (fst s);
        currentMatchHighlight := currentMatchHighlight (fst s);
        matches := matches (fst s); currentIndex := i |}, snd s)).

(** [static isSupported()]: [typeof CSS !== 'undefined' && 'highlights' in CSS] *)
Definition isSupported : M World bool :=
  gets (fun w => match css_highlights w with Some _ => true | None => false end).

(** [new Highlight(...ranges)]; without the API the constructor is not
    defined. *)
Definition new_Highlight (ranges : list Range) : M World Highlight :=
  fun w =>
    match css_highlights w with
    | Some _ => (Ok ranges, w)
    | None => (Throw (ReferenceError "Highlight is not defined"), w)
    end.

(** Resolving the identifier [Highlight], the first step of
    [new Highlight(..)], before its arguments are evaluated. *)
Definition Highlight_constructor : M World unit :=
  fun w =>
    match css_highlights w with
    | Some _ => (Ok tt, w)
    | None => (Throw (ReferenceError "Highlight is not defined"), w)
    end.

(** [CSS.highlights.set(name, h)] *)
Definition highlights_set (name : string) (h : Highlight) : M World unit :=
  fun w =>
    match css_highlights w with
    | Some reg => (Ok tt, set_css_highlights (Some (<[name := h]> reg)) w)
    | None => (Throw (TypeError "Cannot read properties of undefined (reading 'set')"), w)
    end.

(** [CSS.highlights.delete(name)] *)
Definition highlights_delete (name : string) : M World unit :=
  fun w =>
    match css_highlights w with
    | Some reg => (Ok tt, set_css_highlights (Some (delete name reg)) w)
    | None => (Throw (TypeError "Cannot read properties of undefined (reading 'delete')"), w)
    end.

(** [window.requestAnimationFrame(cb)] *)
Definition requestAnimationFrame (cb : FrameCallback) : M World unit :=
  modify (fun w => set_animationFrames (animationFrames w ++ [cb]) w).

(** [index < 0 || index >= this.matches.length] *)
Definition outOfRange (index : Number.t) (h : t) : bool :=
  Number.ltb index 0 || Number.geb index (Z.of_nat (length (matches h))).

Definition scrollToMatch (index : Number.t) : M St unit :=
  (do h <- this;
   if outOfRange index h then ret tt
   else
     match Number.lookup (matches h) index with
     | None => throw (TypeError "Cannot read properties of undefined (reading 'range')")
     | Some m => inWorld (requestAnimationFrame (ScrollToRange (range m)))
     end)%js.

Definition setCurrentMatch (index : Number.t) : M St unit :=
  (do h <- this;
   if outOfRange index h then
     inWorld (console_log (WarnInvalidMatchIndex index))
   else
     call set_currentIndex index;
     let currentMatch := Number.lookup (matches h) index in
     call match currentMatchHighlight h with
         | Some _ => inWorld (highlights_delete CURRENT_MATCH_NAME)
         | None => ret tt
         end;
     match currentMatch with
     | None =>
         call inWorld Highlight_constructor;
         throw (TypeError "Cannot read properties of undefined (reading 'range')")
     | Some currentMatch =>
         do hl <- inWorld (new_Highlight [range currentMatch]);
         call set_currentMatchHighlight (Some hl);
         call inWorld (highlights_set CURRENT_MATCH_NAME hl);
         scrollToMatch index
     end)%js.

Definition getCurrentIndex : M St Number.t := gets (fun s => currentIndex (fst s)).

Definition getTotalMatches : M St Z := gets (fun s => Z.of_nat (length (matches (fst s)))).

Definition nextMatch : M St unit :=
  (do h <- this;
   if (length (matches h) =? 0)%nat then ret tt
   else
     let nextIndex :=
       Number.rem (Number.add (currentIndex h) 1) (Z.of_nat (length (matches h))) in
     setCurrentMatch nextIndex)%js.

Definition previousMatch : M St unit :=
  (do h <- this;
   if (length (matches h) =? 0)%nat then ret tt
   else
     let prevIndex :=
       if Number.ltb (Number.sub (currentIndex h) 1) 0
       then Number.Int (Z.of_nat (length (matches h)) - 1)
       else Number.sub (currentIndex h) 1 in
     setCurrentMatch prevIndex)%js.

Definition clearHighlights : M St unit :=
  (do supported <- inWorld isSupported;
   if negb supported then ret tt
   else
     call inWorld (highlights_delete ALL_MATCHES_NAME);
     call inWorld (highlights_delete CURRENT_MATCH_NAME);
     call set_allMatchesHighlight None;
     call set_currentMatchHighlight None;
     call set_matches [];
     set_currentIndex (-1))%js.

Definition highlightMatches (ms : list MatchData) : M St unit :=
  (call set_matches ms;
   call clearHighlights;
   do supported <- inWorld isSupported;
   if (length ms =? 0)%nat || negb supported then ret tt
   else
     do hl <- inWorld (new_Highlight (map range ms));
     call set_allMatchesHighlight (Some hl);
     call inWorld (highlights_set ALL_MATCHES_NAME hl);
     if (0 <? length ms)%nat then setCurrentMatch 0 else ret tt)%js.

Definition refreshHighlights : M St unit :=
  (do h <- this;
   if (length (matches h) =? 0)%nat then ret tt
   else
     call highlightMatches (matches h);
     do h <- this;
     if Number.geb (currentIndex h) 0 then setCurrentMatch (currentIndex h) else ret tt)%js.

Definition getMatch (index : Number.t) : M St (option MatchData) :=
  (do h <- this;
   if outOfRange index h then ret None
   else ret (Number.lookup (matches h) index))%js.

Definition hasMatches : M St bool :=
  gets (fun s => (0 <? length (matches (fst s)))%nat).

End HighlightManager.

(** ** [SearchController] *)
Module SearchController.

Record t : Type := {
  highlightManager : HighlightManager.t;
  currentQuery : string;
  currentOptions : SearchOptions;
  searchResult : option SearchResult;
  searchDebounceTimer : option nat;
  onSearchCompleteCallback : option nat;
  onMatchChangeCallback : option nat;
}.

Definition St : Type := (t * World)%type.

(** What [search] returns: a promise already resolved, or the pending
    promise whose [resolve] the timer callback holds. *)
Inductive Promise : Type :=
| Resolved (result : SearchResult)
| Pending (promise : nat).

Definition this : M St t := gets fst.
Definition inWorld {A} (m : M World A) : M St A :=
  zoom snd (fun w s => (fst s, w)) m.

Definition with_highlightManager (h : HighlightManager.t) (c : t) : t :=
  {| highlightManager := h; currentQuery := currentQuery c;
     currentOptions := currentOptions c; searchResult := searchResult c;
     searchDebounceTimer := searchDebounceTimer c;
     onSearchCompleteCallback := onSearchCompleteCallback c;
     onMatchChangeCallback := onMatchChangeCallback c |}.

(** A call of a method of [this.highlightManager]. *)
Definition onManager {A} (m : M HighlightManager.St A) : M St A :=
  zoom (fun s => (highlightManager (fst s), snd s))
       (fun hs s => (with_highlightManager (fst hs) (fst s), snd hs)) m.

Definition set_currentQuery (q : string) : M St unit :=
  modify (fun s =>
    ({| highlightManager := highlightManager (fst s); currentQuery := q;
        currentOptions := currentOptions (fst s); searchResult := searchResult (fst s);
        searchDebounceTimer := searchDebounceTimer (fst s);
        onSearchCompleteCallback := onSearchCompleteCallback (fst s);
        onMatchChangeCallback := onMatchChangeCallback (fst s) |}, snd s)).

Definition set_currentOptions (o : SearchOptions) : M St unit :=
  modify (fun s =>
    ({| highlightManager := highlightManager (fst s); currentQuery := currentQuery (fst s);
        currentOptions := o; searchResult := searchResult (fst s);
        searchDebounceTimer := searchDebounceTimer (fst s);
        onSearchCompleteCallback := onSearchCompleteCallback (fst s);
        onMatchChangeCallback := onMatchChangeCallback (fst s) |}, snd s)).

Definition set_searchResult (r : option SearchResult) : M St unit :=
  modify (fun s =>
    ({| highlightManager := highlightManager (fst s); currentQuery := currentQuery (fst s);
        currentOptions := currentOptions (fst s); searchResult := r;
        searchDebounceTimer := searchDebounceTimer (fst s);
        onSearchCompleteCallback := onSearchCompleteCallback (fst s);
        onMatchChangeCallback := onMatchChangeCallback (fst s) |}, snd s)).

Definition set_searchDebounceTimer (id : option nat) : M St unit :=
  modify (fun s =>
    ({| highlightManager := highlightManager (fst s); currentQuery := currentQuery (fst s);
        currentOptions := currentOptions (fst s); searchResult := searchResult (fst s);
        searchDebounceTimer := id;
        onSearchCompleteCallback := onSearchCompleteCallback (fst s);
        onMatchChangeCallback := onMatchChangeCallback (fst s) |}, snd s)).

(** [setTimeout(cb, ms)]: a fresh timer id, the timer pending. *)
Definition setTimeout (cb : TimerCallback) (ms : Z) : M World nat :=
  fun w =>
    let id := nextTimerId w in
    (Ok id, set_nextTimerId (S id) (set_timers (timers w ++ [(id, (ms, cb))]) w)).

(** [clearTimeout(id)]: the timer is no longer pending (nothing happens for
    a timer that fired or was cleared). *)
Definition clearTimeout (id : nat) : M World unit :=
  modify (fun w => set_timers (List.filter (fun t => negb (fst t =? id)%nat) (timers w)) w).

(** [new Promise(executor)]: a fresh pending promise. *)
Definition new_Promise : M World nat :=
  fun w => (Ok (nextPromiseId w), set_nextPromiseId (S (nextPromiseId w)) w).

(** [new SearchController()] *)
Definition constructor : M World t :=
  (do supported <- HighlightManager.isSupported;
   call if negb supported then console_log WarnHighlightApiUnsupported else ret tt;
   ret {| highlightManager := HighlightManager.init;
          currentQuery := EmptyString;
          currentOptions := {| isRegex := false; caseSensitive := false; wholeWord := false |};
          searchResult := None;
          searchDebounceTimer := None;
          onSearchCompleteCallback := None;
          onMatchChangeCallback := None |})%js.

Definition clear : M St unit :=
  (call onManager HighlightManager.clearHighlights;
   call set_searchResult None;
   call set_currentQuery EmptyString;
   do c <- this;
   match searchDebounceTimer c with
   | Some id =>
       call inWorld (clearTimeout id);
       set_searchDebounceTimer None
   | None => ret tt
   end)%js.

Definition notifyMatchChange : M St unit :=
  (do c <- this;
   match onMatchChangeCallback c with
   | Some handler =>
       do current <- onManager HighlightManager.getCurrentIndex;
       do total <- onManager HighlightManager.getTotalMatches;
       inWorld (emit (MatchChangeCalled handler current total))
   | None => ret tt
   end)%js.

Definition navigateNext : M St unit :=
  (do has <- onManager HighlightManager.hasMatches;
   if negb has then ret tt
   else
     call onManager HighlightManager.nextMatch;
     notifyMatchChange)%js.

Definition navigatePrevious : M St unit :=
  (do has <- onManager HighlightManager.hasMatches;
   if negb has then ret tt
   else
     call onManager HighlightManager.previousMatch;
     notifyMatchChange)%js.

Definition navigateToMatch (index : Number.t) : M St unit :=
  (do has <- onManager HighlightManager.hasMatches;
   if negb has then ret tt
   else
     call onManager (HighlightManager.setCurrentMatch index);
     notifyMatchChange)%js.

Definition getCurrentMatchIndex : M St Number.t :=
  onManager HighlightManager.getCurrentIndex.
Definition getTotalMatches : M St Z := onManager HighlightManager.getTotalMatches.
Definition getSearchQuery : M St string := gets (fun s => currentQuery (fst s)).
Definition getSearchOptions : M St SearchOptions := gets (fun s => currentOptions (fst s)).
Definition getSearchResult : M St (option SearchResult) := gets (fun s => searchResult (fst s)).
Definition getMatch (index : Number.t) : M St (option MatchData) :=
  onManager (HighlightManager.getMatch index).
Definition isSupported : M St bool := inWorld HighlightManager.isSupported.

Definition onSearchComplete (handler : nat) : M St unit :=
  modify (fun s =>
    ({| highlightManager := highlightManager (fst s); currentQuery := currentQuery (fst s);
        currentOptions := currentOptions (fst s); searchResult := searchResult (fst s);
        searchDebounceTimer := searchDebounceTimer (fst s);
        onSearchCompleteCallback := Some handler;
        onMatchChangeCallback := onMatchChangeCallback (fst s) |}, snd s)).

Definition onMatchChange (handler : nat) : M St unit :=
  modify (fun s =>
    ({| highlightManager := highlightManager (fst s); currentQuery := currentQuery (fst s);
        currentOptions := currentOptions (fst s); searchResult := searchResult (fst s);
        searchDebounceTimer := searchDebounceTimer (fst s);
        onSearchCompleteCallback := onSearchCompleteCallback (fst s);
        onMatchChangeCallback := Some handler |}, snd s)).

Section WithHost.
Context {host : RegExpHost}.

Definition performSearch (query : string) (options : SearchOptions) : M St SearchResult :=
  (call clear;
   call set_currentQuery query;
   call set_currentOptions options;
   do result <- inWorld (SearchEngine.search query options None);
   call set_searchResult (Some result);
   call if (0 <? length (matches result))%nat
       then onManager (HighlightManager.highlightMatches (matches result))
       else ret tt;
   do c <- this;
   call match onSearchCompleteCallback c with
       | Some handler => inWorld (emit (SearchCompleteCalled handler result))
       | None => ret tt
       end;
   call match onMatchChangeCallback c with
       | Some handler =>
           if (0 <? length (matches result))%nat
           then inWorld (emit (MatchChangeCalled handler 0 (totalCount result)))
           else ret tt
       | None => ret tt
       end;
   ret result)%js.

(** [search(query, options, debounceMs = 300)] *)
Definition search (query : string) (options : SearchOptions) (debounceMs : option Z)
  : M St Promise :=
  let debounceMs := match debounceMs with Some ms => ms | None => 300 end in
  let query := trim query in
  if falsy query then
    (call clear;
     ret (Resolved {| matches := []; totalCount := 0; searchTime := 0 |}))%js
  else
    (do c <- this;
     call match searchDebounceTimer c with
         | Some id => inWorld (clearTimeout id)
         | None => ret tt
         end;
     do promise <- inWorld new_Promise;
     do id <- inWorld (setTimeout (DebouncedSearch query options promise) debounceMs);
     call set_searchDebounceTimer (Some id);
     ret (Pending promise))%js.

(** The body of the arrow function [search] hands to [setTimeout]. *)
Definition timerCallback (cb : TimerCallback) : M St unit :=
  match cb with
  | DebouncedSearch query options promise =>
      (do result <- performSearch query options;
       inWorld (emit (PromiseResolved promise result)))%js
  end.

(** The event loop runs the callback of a pending timer; the timer is
    pending no more. *)
Definition fireTimer (id : nat) : M St unit :=
  (do w <- gets snd;
   match List.filter (fun t => (fst t =? id)%nat) (timers w) with
   | [] => ret tt
   | (_, (_, cb)) :: _ =>
       call inWorld (clearTimeout id);
       timerCallback cb
   end)%js.

(** The event loop fires the pending timers, oldest first, until none is
    left ([fuel] bounds the number of firings). *)
Fixpoint runTimers (fuel : nat) : M St unit :=
  match fuel with
  | O => fun s => match timers (snd s) with [] => (Ok tt, s) | _ => (Timeout, s) end
  | S fuel' =>
      fun s =>
        match timers (snd s) with
        | [] => (Ok tt, s)
        | (id, _) :: _ => (call fireTimer id; runTimers fuel')%js s
        end
  end.

Definition validatePattern (pattern : string) : Res SearchEngine.Validation :=
  SearchEngine.validatePattern pattern.

End WithHost.
End SearchController.

(** ** A concrete host for regular expressions

    [MiniRegExp] is the regular-expression engine of the browser on the
    strings of the model: the pattern grammar of ECMAScript without the
    flags [u] and [v], with the extensions for web browsers (Annex B:
    literal braces and brackets, octal and control escapes, identity
    escapes, quantified lookaheads), named groups (also of the same name in
    different alternatives), lookbehind and modifiers, and the backtracking
    matcher of the standard in continuation-passing style.  The first
    error of a pattern is reported with the message V8 gives.  The unicode
    modes ([u], [v]) change the grammar and are not modelled; the program
    constructs every RegExp with the flags [g], [gi] or none.  Limits on
    the resources of the engine are outside the model. *)
Module MiniRegExp.

Inductive ClassItem : Type :=
| One (c : N)
| Span (lo hi : N)
| Digit (positive : bool)
| Word (positive : bool)
| Space (positive : bool).

Inductive Assertion : Type := Bol | Eol | WordBoundary | NotWordBoundary.

Record Flags : Type := {
  ignoreCase : bool;
  multiline : bool;
  dotAll : bool;
}.

Inductive Re : Type :=
| Empty
| Chr (c : ascii)
| Wide (c : N)
| Dot
| Class (negated : bool) (items : list ClassItem)
| Assert (a : Assertion)
| Look (behind negative : bool) (r : Re)
| Seq (r1 r2 : Re)
| Alt (r1 r2 : Re)
| Repeat (r : Re) (min : N) (max : option N) (greedy : bool) (first count : nat)
| Group (index : option nat) (r : Re)
| Modified (add remove : Flags) (r : Re)
| Backref (groups : list nat)
| NamedRef (name : list N).

(** *** Characters *)

Definition code (c : ascii) : nat := nat_of_ascii c.
Definition unit (c : ascii) : N := N_of_ascii c.

Definition toUpperChar (c : ascii) : ascii :=
  let n := code c in
  if ((97 <=? n)%nat && (n <=? 122)%nat)
     || ((224 <=? n)%nat && (n <=? 254)%nat && negb (n =? 247)%nat)
  then ascii_of_nat (n - 32) else c.

Definition canonicalize (ignoreCase : bool) (c : ascii) : ascii :=
  if ignoreCase then toUpperChar c else c.

Definition isDigit (c : ascii) : bool :=
  let n := code c in (48 <=? n)%nat && (n <=? 57)%nat.

Definition isWordChar (c : ascii) : bool :=
  let n := code c in
  ((97 <=? n)%nat && (n <=? 122)%nat) || ((65 <=? n)%nat && (n <=? 90)%nat)
  || isDigit c || (n =? 95)%nat.

Definition isLineTerminator (c : ascii) : bool :=
  let n := code c in (n =? 10)%nat || (n =? 13)%nat.

(** The code units whose canonical form, when case is ignored, is that of
    [d]: [d] itself and its other case; the upper case of two code units
    below 256 lies above 255. *)
Definition variants (ignoreCase : bool) (d : ascii) : list N :=
  if ignoreCase then
    unit d :: unit (toLowerChar d) :: unit (toUpperChar d)
    :: (if (code d =? 255)%nat then [376%N]
        else if (code d =? 181)%nat then [924%N; 956%N] else [])
  else [unit d].

Definition isDigitUnit (n : N) : bool := ((48 <=? n) && (n <=? 57))%N.
Definition isWordUnit (n : N) : bool :=
  (((97 <=? n) && (n <=? 122)) || ((65 <=? n) && (n <=? 90)) || isDigitUnit n || (n =? 95))%N.
Definition isSpaceUnit (n : N) : bool :=
  (((9 <=? n) && (n <=? 13)) || (n =? 32) || (n =? 160) || (n =? 5760)
   || ((8192 <=? n) && (n <=? 8202)) || (n =? 8232) || (n =? 8233) || (n =? 8239)
   || (n =? 8287) || (n =? 12288) || (n =? 65279))%N.

Definition inItem (it : ClassItem) (n : N) : bool :=
  match it with
  | One c => (n =? c)%N
  | Span lo hi => ((lo <=? n) && (n <=? hi))%N
  | Digit p => Bool.eqb p (isDigitUnit n)
  | Word p => Bool.eqb p (isWordUnit n)
  | Space p => Bool.eqb p (isSpaceUnit n)
  end.

Definition inClass (ignoreCase : bool) (items : list ClassItem) (d : ascii) : bool :=
  existsb (fun it => existsb (inItem it) (variants ignoreCase d)) items.

(** A code unit above 255 of the pattern against a code unit of the
    input. *)
Definition wideMatches (ignoreCase : bool) (c : N) (d : ascii) : bool :=
  ignoreCase
  && (((c =? 376)%N && (code d =? 255)%nat)
      || (((c =? 924) || (c =? 956))%N && (code d =? 181)%nat)).

(** *** Matching *)

Definition Captures : Type := nat -> option (nat * nat).
Definition State : Type := (nat * Captures)%type.
Definition Cont : Type := State -> option State.

Definition noCaptures : Captures := fun _ => None.

Definition capture (n : nat) (v : nat * nat) (caps : Captures) : Captures :=
  fun m => if (m =? n)%nat then Some v else caps m.

(** The groups [first .. first + count - 1] become undefined. *)
Definition reset (first count : nat) (caps : Captures) : Captures :=
  fun m => if ((first <=? m) && (m <? first + count))%nat then None else caps m.

Fixpoint captured (caps : Captures) (groups : list nat) : option (nat * nat) :=
  match groups with
  | [] => None
  | n :: rest => match caps n with Some v => Some v | None => captured caps rest end
  end.

Definition withFlags (add remove fl : Flags) : Flags :=
  {| ignoreCase := (ignoreCase fl || ignoreCase add) && negb (ignoreCase remove);
     multiline := (multiline fl || multiline add) && negb (multiline remove);
     dotAll := (dotAll fl || dotAll add) && negb (dotAll remove) |}.

Section Matching.
Variable s : string.

Definition isWordAt (i : nat) : bool :=
  match String.get i s with
  | Some c => isWordChar c
  | None => false
  end.

Definition holds (a : Assertion) (i : nat) : bool :=
  let before := match i with O => false | S j => isWordAt j end in
  match a with
  | Bol => (i =? 0)%nat
  | Eol => (i =? String.length s)%nat
  | WordBoundary => xorb before (isWordAt i)
  | NotWordBoundary => negb (xorb before (isWordAt i))
  end.

Definition lineTerminatorAt (i : nat) : bool :=
  match String.get i s with
  | Some c => isLineTerminator c
  | None => false
  end.

(** The assertions under the [m] flag. *)
Definition holdsIn (multiline : bool) (a : Assertion) (i : nat) : bool :=
  match a with
  | Bol => holds a i || (multiline && match i with O => false | S j => lineTerminatorAt j end)
  | Eol => holds a i || (multiline && lineTerminatorAt i)
  | _ => holds a i
  end.

(** The character the matcher reads at [i] and the position behind it:
    the one at [i] going forward, the one before [i] going backward. *)
Definition charAt (back : bool) (i : nat) : option (ascii * nat) :=
  if back then
    match i with
    | O => None
    | S j => match String.get j s with Some c => Some (c, j) | None => None end
    end
  else match String.get i s with Some c => Some (c, S i) | None => None end.

(** One character that satisfies [p]. *)
Definition step (p : ascii -> bool) (back : bool) (x : State) (k : Cont) : option State :=
  match charAt back (fst x) with
  | Some (c, j) => if p c then k (j, snd x) else None
  | None => None
  end.

(** The [len] characters from [a] and from [b] are the same, up to case
    when it is ignored. *)
Fixpoint sameText (ignoreCase : bool) (a b len : nat) : bool :=
  match len with
  | O => true
  | S len' =>
      match String.get a s, String.get b s with
      | Some c, Some d =>
          Ascii.eqb (canonicalize ignoreCase c) (canonicalize ignoreCase d)
          && sameText ignoreCase (S a) (S b) len'
      | _, _ => false
      end
  end.

(** One round of a repetition (RepeatMatcher of the standard): [next] is
    the repetition after one more iteration of [m]. *)
Definition repeatStep (m : State -> Cont -> option State) (greedy : bool)
    (first count : nat) (k : Cont)
    (next : N -> option N -> State -> option State)
    (min : N) (max : option N) (x : State) : option State :=
  match max with
  | Some 0%N => k x
  | _ =>
      let d (y : State) :=
        if (min =? 0)%N && (fst y =? fst x)%nat then None
        else next (N.pred min) (option_map N.pred max) y in
      let xr := (fst x, reset first count (snd x)) in
      if negb (min =? 0)%N then m xr d
      else if greedy then
        match m xr d with
        | Some z => Some z
        | None => k x
        end
      else
        match k x with
        | Some z => Some z
        | None => m xr d
        end
  end.

(** [2 ^ depth] rounds of a repetition, each with the next one as [next];
    past them, [next] itself. *)
Fixpoint rounds (m : State -> Cont -> option State) (greedy : bool)
    (first count : nat) (k : Cont) (depth : nat)
    (next : N -> option N -> State -> option State)
    (min : N) (max : option N) (x : State) {struct depth} : option State :=
  match depth with
  | O => repeatStep m greedy first count k next min max x
  | S depth' =>
      rounds m greedy first count k depth'
        (rounds m greedy first count k depth' next) min max x
  end.

(** [run r fl back x k]: match [r] from the state [x], forward or
    backward, and continue with [k]; the first success in the order of
    the standard. *)
Fixpoint run (r : Re) (fl : Flags) (back : bool) (x : State) (k : Cont) {struct r}
  : option State :=
  match r with
  | Empty => k x
  | Chr c =>
      step (fun d => Ascii.eqb (canonicalize (ignoreCase fl) d) (canonicalize (ignoreCase fl) c))
           back x k
  | Wide c => step (wideMatches (ignoreCase fl) c) back x k
  | Dot => step (fun d => dotAll fl || negb (isLineTerminator d)) back x k
  | Class negated items =>
      step (fun d => xorb negated (inClass (ignoreCase fl) items d)) back x k
  | Assert a => if holdsIn (multiline fl) a (fst x) then k x else None
  | Look behind negative r' =>
      match run r' fl behind x Some with
      | Some y => if negative then None else k (fst x, snd y)
      | None => if negative then k x else None
      end
  | Seq r1 r2 =>
      if back then run r2 fl back x (fun y => run r1 fl back y k)
      else run r1 fl back x (fun y => run r2 fl back y k)
  | Alt r1 r2 =>
      match run r1 fl back x k with
      | Some z => Some z
      | None => run r2 fl back x k
      end
  | Repeat r' min max greedy first count =>
      rounds (run r' fl back) greedy first count k 64 (fun _ _ _ => None) min max x
  | Group index r' =>
      run r' fl back x
        (fun y =>
           match index with
           | Some n =>
               k (fst y,
                  capture n (if back then (fst y, fst x) else (fst x, fst y)) (snd y))
           | None => k y
           end)
  | Modified add remove r' => run r' (withFlags add remove fl) back x k
  | Backref groups =>
      match captured (snd x) groups with
      | None => k x
      | Some (a, b) =>
          let len := (b - a)%nat in
          if back then
            if (fst x <? len)%nat then None
            else if sameText (ignoreCase fl) a (fst x - len) len
                 then k ((fst x - len)%nat, snd x) else None
          else
            if (String.length s <? fst x + len)%nat then None
            else if sameText (ignoreCase fl) a (fst x) len
                 then k ((fst x + len)%nat, snd x) else None
      end
  | NamedRef _ => None
  end.

End Matching.

Record Program : Type := {
  tree : Re;
  flags : Flags;
}.

Definition matchAt (p : Program) (s : string) (i : nat) : option nat :=
  match run s (tree p) (flags p) false (i, noCaptures) Some with
  | Some y => Some (fst y)
  | None => None
  end.


(** *** Parsing

    The parser follows the grammar of the standard for patterns without
    the [u] and [v] flags, with the extensions for web browsers (Annex B),
    and reports the first error from left to right. *)

Inductive Parsed (A : Type) : Type :=
| POk (a : A) (rest : list ascii)
| PError (msg : string).
Arguments POk {A} a rest.
Arguments PError {A} msg.

Definition isOctalDigit (c : ascii) : bool :=
  let n := code c in (48 <=? n)%nat && (n <=? 55)%nat.

Definition isHexDigit (c : ascii) : bool :=
  let n := code c in
  isDigit c || ((65 <=? n)%nat && (n <=? 70)%nat) || ((97 <=? n)%nat && (n <=? 102)%nat).

Definition digitValue (c : ascii) : N := N.of_nat (code c - 48).

Definition hexValue (c : ascii) : N :=
  let n := code c in
  if isDigit c then N.of_nat (n - 48)
  else if (n <=? 70)%nat then N.of_nat (n - 55) else N.of_nat (n - 87).

Definition isAsciiLetter (c : ascii) : bool :=
  let n := code c in
  ((97 <=? n)%nat && (n <=? 122)%nat) || ((65 <=? n)%nat && (n <=? 90)%nat).

(** The decimal digits at the head of [cs], as a number. *)
Fixpoint decimalPrefix (cs : list ascii) (acc : N) : N * list ascii :=
  match cs with
  | c :: rest => if isDigit c then decimalPrefix rest (10 * acc + digitValue c)%N else (acc, cs)
  | [] => (acc, cs)
  end.

(** Bounds of a quantifier from [2^31 - 1] on stand for no bound. *)
Definition kInfinity : N := 2147483647.

Definition bound (n : N) : option N := if (kInfinity <=? n)%N then None else Some n.

(** What follows an opening brace when it starts a quantifier: [n}],
    [n,}] or [n,m}]. *)
Definition parseInterval (cs : list ascii) : option (N * option N * list ascii) :=
  match cs with
  | c :: _ =>
      if isDigit c then
        let '(min, rest) := decimalPrefix cs 0 in
        match rest with
        | "}"%char :: rest' => Some (N.min min kInfinity, bound min, rest')
        | ","%char :: "}"%char :: rest' => Some (N.min min kInfinity, None, rest')
        | ","%char :: rest' =>
            let '(max, rest2) := decimalPrefix rest' 0 in
            match rest2 with
            | "}"%char :: rest3 => Some (N.min min kInfinity, bound max, rest3)
            | _ => None
            end
        | _ => None
        end
      else None
  | [] => None
  end.

(** The quantifier at the head of [cs], if any: its bounds and whether it
    is greedy. *)
Definition parseQuantifier (cs : list ascii) : Parsed (option (N * option N * bool)) :=
  let greediness (min : N) (max : option N) (rest : list ascii) :=
    match rest with
    | "?"%char :: rest' => POk (Some (min, max, false)) rest'
    | _ => POk (Some (min, max, true)) rest
    end in
  match cs with
  | "*"%char :: rest => greediness 0%N None rest
  | "+"%char :: rest => greediness 1%N None rest
  | "?"%char :: rest => greediness 0%N (Some 1%N) rest
  | "{"%char :: rest =>
      match parseInterval rest with
      | Some (min, max, rest') =>
          if match max with Some m => (m <? min)%N | None => false end
          then PError "numbers out of order in {} quantifier"
          else greediness min max rest'
      | None => POk None cs
      end
  | _ => POk None cs
  end.

(** [\0], [\12], [\377]: up to three octal digits, the value below 256. *)
Definition parseOctal (cs : list ascii) : N * list ascii :=
  match cs with
  | d1 :: rest1 =>
      let v1 := digitValue d1 in
      match rest1 with
      | d2 :: rest2 =>
          if isOctalDigit d2 then
            let v2 := (v1 * 8 + digitValue d2)%N in
            match rest2 with
            | d3 :: rest3 =>
                if (v2 <? 32)%N && isOctalDigit d3
                then ((v2 * 8 + digitValue d3)%N, rest3) else (v2, rest2)
            | [] => (v2, rest2)
            end
          else (v1, rest1)
      | [] => (v1, rest1)
      end
  | [] => (0%N, [])
  end.

(** [n] hexadecimal digits at the head of [cs]. *)
Fixpoint parseHex (n : nat) (cs : list ascii) (acc : N) : option (N * list ascii) :=
  match n with
  | O => Some (acc, cs)
  | S n' =>
      match cs with
      | c :: rest => if isHexDigit c then parseHex n' rest (16 * acc + hexValue c)%N else None
      | [] => None
      end
  end.

Record Context : Type := {
  captureCount : nat;
  hasNamedGroups : bool;
}.

(** The code unit a character escape denotes; [cs] is what follows the
    backslash.  [\c] without a control letter is a backslash, and the [c]
    is read again. *)
Definition parseCharacterEscape (ctx : Context) (inClass : bool) (cs : list ascii)
  : Parsed N :=
  match cs with
  | [] => PError "\ at end of pattern"
  | c :: rest =>
      match c with
      | "f" => POk 12%N rest
      | "n" => POk 10%N rest
      | "r" => POk 13%N rest
      | "t" => POk 9%N rest
      | "v" => POk 11%N rest
      | "c" =>
          match rest with
          | l :: rest' =>
              if isAsciiLetter l || (inClass && (isDigit l || Ascii.eqb l "_"))
              then POk (N.of_nat (code l mod 32)) rest'
              else POk 92%N cs
          | [] => POk 92%N cs
          end
      | "0" =>
          match rest with
          | d :: _ => if isDigit d then let '(v, rest') := parseOctal cs in POk v rest'
                      else POk 0%N rest
          | [] => POk 0%N rest
          end
      | "1" | "2" | "3" | "4" | "5" | "6" | "7" =>
          let '(v, rest') := parseOctal cs in POk v rest'
      | "x" =>
          match parseHex 2 rest 0 with
          | Some (v, rest') => POk v rest'
          | None => POk (unit c) rest
          end
      | "u" =>
          match parseHex 4 rest 0 with
          | Some (v, rest') => POk v rest'
          | None => POk (unit c) rest
          end
      | "k" => if hasNamedGroups ctx then PError "Invalid escape" else POk (unit c) rest
      | _ => POk (unit c) rest
      end%char
  end.

(** [\d \D \s \S \w \W] *)
Definition classEscape (c : ascii) : option ClassItem :=
  match c with
  | "d" => Some (Digit true)
  | "D" => Some (Digit false)
  | "s" => Some (Space true)
  | "S" => Some (Space false)
  | "w" => Some (Word true)
  | "W" => Some (Word false)
  | _ => None
  end%char.

(** A code unit of the pattern as a tree. *)
Definition unitTree (n : N) : Re :=
  if (n <? 256)%N then Chr (ascii_of_N n) else Wide n.

(** **** Character classes *)

Inductive ClassAtom : Type :=
| AtomUnit (c : N)
| AtomSet (it : ClassItem).

Definition parseClassAtom (ctx : Context) (cs : list ascii) : Parsed ClassAtom :=
  match cs with
  | [] => PError "Unterminated character class"
  | c :: rest =>
      if Ascii.eqb c backslash then
        match rest with
        | [] => PError "\ at end of pattern"
        | e :: rest' =>
            if Ascii.eqb e "b" then POk (AtomUnit 8%N) rest'
            else
              match classEscape e with
              | Some it => POk (AtomSet it) rest'
              | None =>
                  match parseCharacterEscape ctx true rest with
                  | POk n rest'' => POk (AtomUnit n) rest''
                  | PError msg => PError msg
                  end
              end
        end
      else POk (AtomUnit (unit c)) rest
  end.

Definition itemOf (a : ClassAtom) : ClassItem :=
  match a with
  | AtomUnit c => One c
  | AtomSet it => it
  end.

(** The items of a class up to the closing bracket. *)
Fixpoint parseClassItems (ctx : Context) (fuel : nat) (cs : list ascii)
    (acc : list ClassItem) : Parsed (list ClassItem) :=
  match fuel with
  | O => PError "Unterminated character class"
  | S fuel' =>
      match cs with
      | [] => PError "Unterminated character class"
      | c :: rest =>
          if Ascii.eqb c "]" then POk (rev acc) rest
          else
            match parseClassAtom ctx cs with
            | PError msg => PError msg
            | POk a1 rest1 =>
                match rest1 with
                | "-"%char :: [] => PError "Unterminated character class"
                | "-"%char :: "]"%char :: rest3 => POk (rev (One 45%N :: itemOf a1 :: acc)) rest3
                | "-"%char :: rest2 =>
                    match parseClassAtom ctx rest2 with
                    | PError msg => PError msg
                    | POk a2 rest3 =>
                        match a1, a2 with
                        | AtomUnit c1, AtomUnit c2 =>
                            if (c2 <? c1)%N then PError "Range out of order in character class"
                            else parseClassItems ctx fuel' rest3 (Span c1 c2 :: acc)
                        | _, _ =>
                            parseClassItems ctx fuel' rest3
                              (itemOf a2 :: One 45%N :: itemOf a1 :: acc)
                        end
                    end
                | _ => parseClassItems ctx fuel' rest1 (itemOf a1 :: acc)
                end
            end
      end
  end.

Definition parseClass (ctx : Context) (cs : list ascii) : Parsed Re :=
  let '(negated, cs) :=
    match cs with
    | c :: rest => if Ascii.eqb c "^" then (true, rest) else (false, cs)
    | [] => (false, cs)
    end in
  match parseClassItems ctx (S (length cs)) cs [] with
  | POk items rest => POk (Class negated items) rest
  | PError msg => PError msg
  end.

(** **** Groups and their names *)

(** The capturing groups started so far, the names a new group must not
    take (those of the groups that may take part in a match together with
    it), and the named groups with their numbers. *)
Record Groups : Type := {
  started : nat;
  scope : list (list N);
  named : list (list N * nat);
}.

Definition noGroups : Groups := {| started := 0; scope := []; named := [] |}.

(** The code points above U+00FF with the property ID_Start (Unicode 14),
    as ranges. *)
Definition idStartRanges : list (N * N) :=
  [(256, 705); (710, 721); (736, 740); (748, 748); (750, 750); (880, 884); (886, 887);
   (890, 893); (895, 895); (902, 902); (904, 906); (908, 908); (910, 929); (931, 1013);
   (1015, 1153); (1162, 1327); (1329, 1366); (1369, 1369); (1376, 1416); (1488, 1514);
   (1519, 1522); (1568, 1610); (1646, 1647); (1649, 1747); (1749, 1749); (1765, 1766);
   (1774, 1775); (1786, 1788); (1791, 1791); (1808, 1808); (1810, 1839); (1869, 1957);
   (1969, 1969); (1994, 2026); (2036, 2037); (2042, 2042); (2048, 2069); (2074, 2074);
   (2084, 2084); (2088, 2088); (2112, 2136); (2144, 2154); (2160, 2183); (2185, 2190);
   (2208, 2249); (2308, 2361); (2365, 2365); (2384, 2384); (2392, 2401); (2417, 2432);
   (2437, 2444); (2447, 2448); (2451, 2472); (2474, 2480); (2482, 2482); (2486, 2489);
   (2493, 2493); (2510, 2510); (2524, 2525); (2527, 2529); (2544, 2545); (2556, 2556);
   (2565, 2570); (2575, 2576); (2579, 2600); (2602, 2608); (2610, 2611); (2613, 2614);
   (2616, 2617); (2649, 2652); (2654, 2654); (2674, 2676); (2693, 2701); (2703, 2705);
   (2707, 2728); (2730, 2736); (2738, 2739); (2741, 2745); (2749, 2749); (2768, 2768);
   (2784, 2785); (2809, 2809); (2821, 2828); (2831, 2832); (2835, 2856); (2858, 2864);
   (2866, 2867); (2869, 2873); (2877, 2877); (2908, 2909); (2911, 2913); (2929, 2929);
   (2947, 2947); (2949, 2954); (2958, 2960); (2962, 2965); (2969, 2970); (2972, 2972);
   (2974, 2975); (2979, 2980); (2984, 2986); (2990, 3001); (3024, 3024); (3077, 3084);
   (3086, 3088); (3090, 3112); (3114, 3129); (3133, 3133); (3160, 3162); (3165, 3165);
   (3168, 3169); (3200, 3200); (3205, 3212); (3214, 3216); (3218, 3240); (3242, 3251);
   (3253, 3257); (3261, 3261); (3293, 3294); (3296, 3297); (3313, 3314); (3332, 3340);
   (3342, 3344); (3346, 3386); (3389, 3389); (3406, 3406); (3412, 3414); (3423, 3425);
   (3450, 3455); (3461, 3478); (3482, 3505); (3507, 3515); (3517, 3517); (3520, 3526);
   (3585, 3632); (3634, 3635); (3648, 3654); (3713, 3714); (3716, 3716); (3718, 3722);
   (3724, 3747); (3749, 3749); (3751, 3760); (3762, 3763); (3773, 3773); (3776, 3780);
   (3782, 3782); (3804, 3807); (3840, 3840); (3904, 3911); (3913, 3948); (3976, 3980);
   (4096, 4138); (4159, 4159); (4176, 4181); (4186, 4189); (4193, 4193); (4197, 4198);
   (4206, 4208); (4213, 4225); (4238, 4238); (4256, 4293); (4295, 4295); (4301, 4301);
   (4304, 4346); (4348, 4680); (4682, 4685); (4688, 4694); (4696, 4696); (4698, 4701);
   (4704, 4744); (4746, 4749); (4752, 4784); (4786, 4789); (4792, 4798); (4800, 4800);
   (4802, 4805); (4808, 4822); (4824, 4880); (4882, 4885); (4888, 4954); (4992, 5007);
   (5024, 5109); (5112, 5117); (5121, 5740); (5743, 5759); (5761, 5786); (5792, 5866);
   (5870, 5880); (5888, 5905); (5919, 5937); (5952, 5969); (5984, 5996); (5998, 6000);
   (6016, 6067); (6103, 6103); (6108, 6108); (6176, 6264); (6272, 6312); (6314, 6314);
   (6320, 6389); (6400, 6430); (6480, 6509); (6512, 6516); (6528, 6571); (6576, 6601);
   (6656, 6678); (6688, 6740); (6823, 6823); (6917, 6963); (6981, 6988); (7043, 7072);
   (7086, 7087); (7098, 7141); (7168, 7203); (7245, 7247); (7258, 7293); (7296, 7304);
   (7312, 7354); (7357, 7359); (7401, 7404); (7406, 7411); (7413, 7414); (7418, 7418);
   (7424, 7615); (7680, 7957); (7960, 7965); (7968, 8005); (8008, 8013); (8016, 8023);
   (8025, 8025); (8027, 8027); (8029, 8029); (8031, 8061); (8064, 8116); (8118, 8124);
   (8126, 8126); (8130, 8132); (8134, 8140); (8144, 8147); (8150, 8155); (8160, 8172);
   (8178, 8180); (8182, 8188); (8305, 8305); (8319, 8319); (8336, 8348); (8450, 8450);
   (8455, 8455); (8458, 8467); (8469, 8469); (8472, 8477); (8484, 8484); (8486, 8486);
   (8488, 8488); (8490, 8505); (8508, 8511); (8517, 8521); (8526, 8526); (8544, 8584);
   (11264, 11492); (11499, 11502); (11506, 11507); (11520, 11557); (11559, 11559);
   (11565, 11565); (11568, 11623); (11631, 11631); (11648, 11670); (11680, 11686);
   (11688, 11694); (11696, 11702); (11704, 11710); (11712, 11718); (11720, 11726);
   (11728, 11734); (11736, 11742); (12293, 12295); (12321, 12329); (12337, 12341);
   (12344, 12348); (12353, 12438); (12443, 12447); (12449, 12538); (12540, 12543);
   (12549, 12591); (12593, 12686); (12704, 12735); (12784, 12799); (13312, 19903);
   (19968, 42124); (42192, 42237); (42240, 42508); (42512, 42527); (42538, 42539);
   (42560, 42606); (42623, 42653); (42656, 42735); (42775, 42783); (42786, 42888);
   (42891, 42954); (42960, 42961); (42963, 42963); (42965, 42969); (42994, 43009);
   (43011, 43013); (43015, 43018); (43020, 43042); (43072, 43123); (43138, 43187);
   (43250, 43255); (43259, 43259); (43261, 43262); (43274, 43301); (43312, 43334);
   (43360, 43388); (43396, 43442); (43471, 43471); (43488, 43492); (43494, 43503);
   (43514, 43518); (43520, 43560); (43584, 43586); (43588, 43595); (43616, 43638);
   (43642, 43642); (43646, 43695); (43697, 43697); (43701, 43702); (43705, 43709);
   (43712, 43712); (43714, 43714); (43739, 43741); (43744, 43754); (43762, 43764);
   (43777, 43782); (43785, 43790); (43793, 43798); (43808, 43814); (43816, 43822);
   (43824, 43866); (43868, 43881); (43888, 44002); (44032, 55203); (55216, 55238);
   (55243, 55291); (63744, 64109); (64112, 64217); (64256, 64262); (64275, 64279);
   (64285, 64285); (64287, 64296); (64298, 64310); (64312, 64316); (64318, 64318);
   (64320, 64321); (64323, 64324); (64326, 64433); (64467, 64829); (64848, 64911);
   (64914, 64967); (65008, 65019); (65136, 65140); (65142, 65276); (65313, 65338);
   (65345, 65370); (65382, 65470); (65474, 65479); (65482, 65487); (65490, 65495);
   (65498, 65500); (65536, 65547); (65549, 65574); (65576, 65594); (65596, 65597);
   (65599, 65613); (65616, 65629); (65664, 65786); (65856, 65908); (66176, 66204);
   (66208, 66256); (66304, 66335); (66349, 66378); (66384, 66421); (66432, 66461);
   (66464, 66499); (66504, 66511); (66513, 66517); (66560, 66717); (66736, 66771);
   (66776, 66811); (66816, 66855); (66864, 66915); (66928, 66938); (66940, 66954);
   (66956, 66962); (66964, 66965); (66967, 66977); (66979, 66993); (66995, 67001);
   (67003, 67004); (67072, 67382); (67392, 67413); (67424, 67431); (67456, 67461);
   (67463, 67504); (67506, 67514); (67584, 67589); (67592, 67592); (67594, 67637);
   (67639, 67640); (67644, 67644); (67647, 67669); (67680, 67702); (67712, 67742);
   (67808, 67826); (67828, 67829); (67840, 67861); (67872, 67897); (67968, 68023);
   (68030, 68031); (68096, 68096); (68112, 68115); (68117, 68119); (68121, 68149);
   (68192, 68220); (68224, 68252); (68288, 68295); (68297, 68324); (68352, 68405);
   (68416, 68437); (68448, 68466); (68480, 68497); (68608, 68680); (68736, 68786);
   (68800, 68850); (68864, 68899); (69248, 69289); (69296, 69297); (69376, 69404);
   (69415, 69415); (69424, 69445); (69488, 69505); (69552, 69572); (69600, 69622);
   (69635, 69687); (69745, 69746); (69749, 69749); (69763, 69807); (69840, 69864);
   (69891, 69926); (69956, 69956); (69959, 69959); (69968, 70002); (70006, 70006);
   (70019, 70066); (70081, 70084); (70106, 70106); (70108, 70108); (70144, 70161);
   (70163, 70187); (70272, 70278); (70280, 70280); (70282, 70285); (70287, 70301);
   (70303, 70312); (70320, 70366); (70405, 70412); (70415, 70416); (70419, 70440);
   (70442, 70448); (70450, 70451); (70453, 70457); (70461, 70461); (70480, 70480);
   (70493, 70497); (70656, 70708); (70727, 70730); (70751, 70753); (70784, 70831);
   (70852, 70853); (70855, 70855); (71040, 71086); (71128, 71131); (71168, 71215);
   (71236, 71236); (71296, 71338); (71352, 71352); (71424, 71450); (71488, 71494);
   (71680, 71723); (71840, 71903); (71935, 71942); (71945, 71945); (71948, 71955);
   (71957, 71958); (71960, 71983); (71999, 71999); (72001, 72001); (72096, 72103);
   (72106, 72144); (72161, 72161); (72163, 72163); (72192, 72192); (72203, 72242);
   (72250, 72250); (72272, 72272); (72284, 72329); (72349, 72349); (72368, 72440);
   (72704, 72712); (72714, 72750); (72768, 72768); (72818, 72847); (72960, 72966);
   (72968, 72969); (72971, 73008); (73030, 73030); (73056, 73061); (73063, 73064);
   (73066, 73097); (73112, 73112); (73440, 73458); (73648, 73648); (73728, 74649);
   (74752, 74862); (74880, 75075); (77712, 77808); (77824, 78894); (82944, 83526);
   (92160, 92728); (92736, 92766); (92784, 92862); (92880, 92909); (92928, 92975);
   (92992, 92995); (93027, 93047); (93053, 93071); (93760, 93823); (93952, 94026);
   (94032, 94032); (94099, 94111); (94176, 94177); (94179, 94179); (94208, 100343);
   (100352, 101589); (101632, 101640); (110576, 110579); (110581, 110587);
   (110589, 110590); (110592, 110882); (110928, 110930); (110948, 110951);
   (110960, 111355); (113664, 113770); (113776, 113788); (113792, 113800);
   (113808, 113817); (119808, 119892); (119894, 119964); (119966, 119967);
   (119970, 119970); (119973, 119974); (119977, 119980); (119982, 119993);
   (119995, 119995); (119997, 120003); (120005, 120069); (120071, 120074);
   (120077, 120084); (120086, 120092); (120094, 120121); (120123, 120126);
   (120128, 120132); (120134, 120134); (120138, 120144); (120146, 120485);
   (120488, 120512); (120514, 120538); (120540, 120570); (120572, 120596);
   (120598, 120628); (120630, 120654); (120656, 120686); (120688, 120712);
   (120714, 120744); (120746, 120770); (120772, 120779); (122624, 122654);
   (123136, 123180); (123191, 123197); (123214, 123214); (123536, 123565);
   (123584, 123627); (124896, 124902); (124904, 124907); (124909, 124910);
   (124912, 124926); (124928, 125124); (125184, 125251); (125259, 125259);
   (126464, 126467); (126469, 126495); (126497, 126498); (126500, 126500);
   (126503, 126503); (126505, 126514); (126516, 126519); (126521, 126521);
   (126523, 126523); (126530, 126530); (126535, 126535); (126537, 126537);
   (126539, 126539); (126541, 126543); (126545, 126546); (126548, 126548);
   (126551, 126551); (126553, 126553); (126555, 126555); (126557, 126557);
   (126559, 126559); (126561, 126562); (126564, 126564); (126567, 126570);
   (126572, 126578); (126580, 126583); (126585, 126588); (126590, 126590);
   (126592, 126601); (126603, 126619); (126625, 126627); (126629, 126633);
   (126635, 126651); (131072, 173791); (173824, 177976); (177984, 178205);
   (178208, 183969); (183984, 191456); (194560, 195101); (196608, 201546)]%N.

(** The code points above U+00FF with the property ID_Continue and not
    ID_Start (Unicode 14), as ranges. *)
Definition idContinueRanges : list (N * N) :=
  [(768, 879); (903, 903); (1155, 1159); (1425, 1469); (1471, 1471); (1473, 1474);
   (1476, 1477); (1479, 1479); (1552, 1562); (1611, 1641); (1648, 1648); (1750, 1756);
   (1759, 1764); (1767, 1768); (1770, 1773); (1776, 1785); (1809, 1809); (1840, 1866);
   (1958, 1968); (1984, 1993); (2027, 2035); (2045, 2045); (2070, 2073); (2075, 2083);
   (2085, 2087); (2089, 2093); (2137, 2139); (2200, 2207); (2250, 2273); (2275, 2307);
   (2362, 2364); (2366, 2383); (2385, 2391); (2402, 2403); (2406, 2415); (2433, 2435);
   (2492, 2492); (2494, 2500); (2503, 2504); (2507, 2509); (2519, 2519); (2530, 2531);
   (2534, 2543); (2558, 2558); (2561, 2563); (2620, 2620); (2622, 2626); (2631, 2632);
   (2635, 2637); (2641, 2641); (2662, 2673); (2677, 2677); (2689, 2691); (2748, 2748);
   (2750, 2757); (2759, 2761); (2763, 2765); (2786, 2787); (2790, 2799); (2810, 2815);
   (2817, 2819); (2876, 2876); (2878, 2884); (2887, 2888); (2891, 2893); (2901, 2903);
   (2914, 2915); (2918, 2927); (2946, 2946); (3006, 3010); (3014, 3016); (3018, 3021);
   (3031, 3031); (3046, 3055); (3072, 3076); (3132, 3132); (3134, 3140); (3142, 3144);
   (3146, 3149); (3157, 3158); (3170, 3171); (3174, 3183); (3201, 3203); (3260, 3260);
   (3262, 3268); (3270, 3272); (3274, 3277); (3285, 3286); (3298, 3299); (3302, 3311);
   (3328, 3331); (3387, 3388); (3390, 3396); (3398, 3400); (3402, 3405); (3415, 3415);
   (3426, 3427); (3430, 3439); (3457, 3459); (3530, 3530); (3535, 3540); (3542, 3542);
   (3544, 3551); (3558, 3567); (3570, 3571); (3633, 3633); (3636, 3642); (3655, 3662);
   (3664, 3673); (3761, 3761); (3764, 3772); (3784, 3789); (3792, 3801); (3864, 3865);
   (3872, 3881); (3893, 3893); (3895, 3895); (3897, 3897); (3902, 3903); (3953, 3972);
   (3974, 3975); (3981, 3991); (3993, 4028); (4038, 4038); (4139, 4158); (4160, 4169);
   (4182, 4185); (4190, 4192); (4194, 4196); (4199, 4205); (4209, 4212); (4226, 4237);
   (4239, 4253); (4957, 4959); (4969, 4977); (5906, 5909); (5938, 5940); (5970, 5971);
   (6002, 6003); (6068, 6099); (6109, 6109); (6112, 6121); (6155, 6157); (6159, 6169);
   (6313, 6313); (6432, 6443); (6448, 6459); (6470, 6479); (6608, 6618); (6679, 6683);
   (6741, 6750); (6752, 6780); (6783, 6793); (6800, 6809); (6832, 6845); (6847, 6862);
   (6912, 6916); (6964, 6980); (6992, 7001); (7019, 7027); (7040, 7042); (7073, 7085);
   (7088, 7097); (7142, 7155); (7204, 7223); (7232, 7241); (7248, 7257); (7376, 7378);
   (7380, 7400); (7405, 7405); (7412, 7412); (7415, 7417); (7616, 7679); (8255, 8256);
   (8276, 8276); (8400, 8412); (8417, 8417); (8421, 8432); (11503, 11505);
   (11647, 11647); (11744, 11775); (12330, 12335); (12441, 12442); (42528, 42537);
   (42607, 42607); (42612, 42621); (42654, 42655); (42736, 42737); (43010, 43010);
   (43014, 43014); (43019, 43019); (43043, 43047); (43052, 43052); (43136, 43137);
   (43188, 43205); (43216, 43225); (43232, 43249); (43263, 43273); (43302, 43309);
   (43335, 43347); (43392, 43395); (43443, 43456); (43472, 43481); (43493, 43493);
   (43504, 43513); (43561, 43574); (43587, 43587); (43596, 43597); (43600, 43609);
   (43643, 43645); (43696, 43696); (43698, 43700); (43703, 43704); (43710, 43711);
   (43713, 43713); (43755, 43759); (43765, 43766); (44003, 44010); (44012, 44013);
   (44016, 44025); (64286, 64286); (65024, 65039); (65056, 65071); (65075, 65076);
   (65101, 65103); (65296, 65305); (65343, 65343); (66045, 66045); (66272, 66272);
   (66422, 66426); (66720, 66729); (68097, 68099); (68101, 68102); (68108, 68111);
   (68152, 68154); (68159, 68159); (68325, 68326); (68900, 68903); (68912, 68921);
   (69291, 69292); (69446, 69456); (69506, 69509); (69632, 69634); (69688, 69702);
   (69734, 69744); (69747, 69748); (69759, 69762); (69808, 69818); (69826, 69826);
   (69872, 69881); (69888, 69890); (69927, 69940); (69942, 69951); (69957, 69958);
   (70003, 70003); (70016, 70018); (70067, 70080); (70089, 70092); (70094, 70105);
   (70188, 70199); (70206, 70206); (70367, 70378); (70384, 70393); (70400, 70403);
   (70459, 70460); (70462, 70468); (70471, 70472); (70475, 70477); (70487, 70487);
   (70498, 70499); (70502, 70508); (70512, 70516); (70709, 70726); (70736, 70745);
   (70750, 70750); (70832, 70851); (70864, 70873); (71087, 71093); (71096, 71104);
   (71132, 71133); (71216, 71232); (71248, 71257); (71339, 71351); (71360, 71369);
   (71453, 71467); (71472, 71481); (71724, 71738); (71904, 71913); (71984, 71989);
   (71991, 71992); (71995, 71998); (72000, 72000); (72002, 72003); (72016, 72025);
   (72145, 72151); (72154, 72160); (72164, 72164); (72193, 72202); (72243, 72249);
   (72251, 72254); (72263, 72263); (72273, 72283); (72330, 72345); (72751, 72758);
   (72760, 72767); (72784, 72793); (72850, 72871); (72873, 72886); (73009, 73014);
   (73018, 73018); (73020, 73021); (73023, 73029); (73031, 73031); (73040, 73049);
   (73098, 73102); (73104, 73105); (73107, 73111); (73120, 73129); (73459, 73462);
   (92768, 92777); (92864, 92873); (92912, 92916); (92976, 92982); (93008, 93017);
   (94031, 94031); (94033, 94087); (94095, 94098); (94180, 94180); (94192, 94193);
   (113821, 113822); (118528, 118573); (118576, 118598); (119141, 119145);
   (119149, 119154); (119163, 119170); (119173, 119179); (119210, 119213);
   (119362, 119364); (120782, 120831); (121344, 121398); (121403, 121452);
   (121461, 121461); (121476, 121476); (121499, 121503); (121505, 121519);
   (122880, 122886); (122888, 122904); (122907, 122913); (122915, 122916);
   (122918, 122922); (123184, 123190); (123200, 123209); (123566, 123566);
   (123628, 123641); (125136, 125142); (125252, 125258); (125264, 125273);
   (130032, 130041); (917760, 917999)]%N.

Definition inRanges (ranges : list (N * N)) (n : N) : bool :=
  existsb (fun r => (fst r <=? n) && (n <=? snd r))%N ranges.

(** IdentifierStartChar and IdentifierPartChar of the standard. *)
Definition isIdentifierStart (n : N) : bool :=
  (((97 <=? n) && (n <=? 122)) || ((65 <=? n) && (n <=? 90)) || (n =? 36) || (n =? 95)
   || (n =? 170) || (n =? 181) || (n =? 186)
   || ((192 <=? n) && (n <=? 214)) || ((216 <=? n) && (n <=? 246))
   || ((248 <=? n) && (n <=? 255)))%N
  || inRanges idStartRanges n.

Definition isIdentifierPart (n : N) : bool :=
  isIdentifierStart n || isDigitUnit n
  || ((n =? 183) || (n =? 8204) || (n =? 8205))%N
  || inRanges idContinueRanges n.

(** Hexadecimal digits up to a closing brace, the value at most
    [0x10FFFF]; [any] when a digit was read. *)
Fixpoint parseCodePoint (cs : list ascii) (acc : N) (any : bool) : option (N * list ascii) :=
  match cs with
  | c :: rest =>
      if isHexDigit c then
        let v := (16 * acc + hexValue c)%N in
        if (1114111 <? v)%N then None else parseCodePoint rest v true
      else if any && Ascii.eqb c "}" then Some (acc, rest)
      else None
  | [] => None
  end.

Definition isLeadSurrogate (n : N) : bool := ((55296 <=? n) && (n <=? 56319))%N.
Definition isTrailSurrogate (n : N) : bool := ((56320 <=? n) && (n <=? 57343))%N.

(** A [\u] escape in a group name, where the escapes of the unicode mode
    are read: [\u{..}], four digits, or two surrogates that make one code
    point.  [cs] is what follows the [u]. *)
Definition parseNameEscape (cs : list ascii) : option (N * list ascii) :=
  match cs with
  | "{"%char :: rest => parseCodePoint rest 0 false
  | _ =>
      match parseHex 4 cs 0 with
      | Some (lead, rest) =>
          if isLeadSurrogate lead then
            match rest with
            | c :: "u"%char :: rest' =>
                if Ascii.eqb c backslash then
                  match parseHex 4 rest' 0 with
                  | Some (trail, rest'') =>
                      if isTrailSurrogate trail
                      then Some (65536 + (lead - 55296) * 1024 + (trail - 56320), rest'')%N
                      else Some (lead, rest)
                  | None => Some (lead, rest)
                  end
                else Some (lead, rest)
            | _ => Some (lead, rest)
            end
          else Some (lead, rest)
      | None => None
      end
  end.

(** The name of a group up to the closing angle bracket, as code points;
    [cs] is what follows the opening one.  An escape that denotes the
    closing bracket ends the name like the bracket itself. *)
Fixpoint parseGroupName (fuel : nat) (cs : list ascii) (acc : list N)
  : Parsed (list N) :=
  match fuel with
  | O => PError "Invalid capture group name"
  | S fuel' =>
      let next (n : N) (rest : list ascii) :=
        match acc with
        | [] => if isIdentifierStart n then parseGroupName fuel' rest [n]
                else PError "Invalid capture group name"
        | _ => if (n =? 62)%N then POk acc rest
               else if isIdentifierPart n then parseGroupName fuel' rest (acc ++ [n])
               else PError "Invalid capture group name"
        end in
      match cs with
      | [] => PError "Invalid capture group name"
      | c :: rest =>
          if Ascii.eqb c backslash then
            match rest with
            | "u"%char :: rest' =>
                match parseNameEscape rest' with
                | Some (n, rest'') => next n rest''
                | None => PError "Invalid Unicode escape"
                end
            | _ => PError "Invalid capture group name"
            end
          else next (unit c) rest
      end
  end.

Definition sameName (a b : list N) : bool :=
  if decide (a = b) then true else false.

(** What an opening parenthesis starts. *)
Inductive GroupKind : Type :=
| Capturing (name : option (list N))
| NonCapturing
| Lookaround (behind negative : bool)
| Modifiers (add remove : Flags).

Definition noFlags : Flags := {| ignoreCase := false; multiline := false; dotAll := false |}.

Definition flagOf (c : ascii) : option Flags :=
  match c with
  | "i" => Some {| ignoreCase := true; multiline := false; dotAll := false |}
  | "m" => Some {| ignoreCase := false; multiline := true; dotAll := false |}
  | "s" => Some {| ignoreCase := false; multiline := false; dotAll := true |}
  | _ => None
  end%char.

Definition unionFlags (a b : Flags) : Flags :=
  {| ignoreCase := ignoreCase a || ignoreCase b;
     multiline := multiline a || multiline b;
     dotAll := dotAll a || dotAll b |}.

Definition meetFlags (a b : Flags) : bool :=
  (ignoreCase a && ignoreCase b) || (multiline a && multiline b) || (dotAll a && dotAll b).

Definition anyFlag (a : Flags) : bool := ignoreCase a || multiline a || dotAll a.

(** [(?ims-ims:]: what follows the question mark, up to the colon. *)
Fixpoint parseModifiers (cs : list ascii) (adding : bool) (add remove : Flags)
  : Parsed (Flags * Flags) :=
  match cs with
  | [] => PError "Invalid flag group"
  | c :: rest =>
      if Ascii.eqb c "-" then
        if adding then parseModifiers rest false add remove
        else PError "Multiple dashes in flag group"
      else if Ascii.eqb c ":" then
        if anyFlag (unionFlags add remove) then POk (add, remove) rest
        else PError "Invalid flag group"
      else
        match flagOf c with
        | Some f =>
            if meetFlags f (unionFlags add remove) then PError "Repeated flag in flag group"
            else if adding then parseModifiers rest adding (unionFlags add f) remove
            else parseModifiers rest adding add (unionFlags remove f)
        | None => PError "Invalid flag group"
        end
  end.

(** At most [2 ^ 16] capturing groups. *)
Definition kMaxCaptures : N := 65536.

(** What follows an opening parenthesis, up to the body of the group;
    [started] capturing groups were opened before it. *)
Definition parseGroupHead (started : nat) (cs : list ascii) : Parsed GroupKind :=
  let tooMany := (kMaxCaptures <=? N.of_nat started)%N in
  match cs with
  | "?"%char :: rest =>
      match rest with
      | ":"%char :: rest' => POk NonCapturing rest'
      | "="%char :: rest' => POk (Lookaround false false) rest'
      | "!"%char :: rest' => POk (Lookaround false true) rest'
      | "<"%char :: "="%char :: rest' => POk (Lookaround true false) rest'
      | "<"%char :: "!"%char :: rest' => POk (Lookaround true true) rest'
      | "<"%char :: rest' =>
          if tooMany then PError "Too many captures"
          else
            match parseGroupName (S (length rest')) rest' [] with
            | POk name rest'' => POk (Capturing (Some name)) rest''
            | PError msg => PError msg
            end
      | c :: _ =>
          if Ascii.eqb c "-" || Ascii.eqb c "i" || Ascii.eqb c "m" || Ascii.eqb c "s" then
            match parseModifiers rest true noFlags noFlags with
            | POk (add, remove) rest' => POk (Modifiers add remove) rest'
            | PError msg => PError msg
            end
          else PError "Invalid group"
      | [] => PError "Invalid group"
      end
  | _ => if tooMany then PError "Too many captures" else POk (Capturing None) cs
  end.

(** Whether a quantifier may follow a term. *)
Inductive Quantifiable : Type := Yes | Never | NotBehind.

(** [\1] .. [\9] and more digits: the number, when the pattern has that
    many groups. *)
Definition parseBackReference (ctx : Context) (cs : list ascii) : option (nat * list ascii) :=
  let '(value, rest) := decimalPrefix cs 0 in
  if (value <=? N.of_nat (captureCount ctx))%N && (value <=? 65535)%N
  then Some (N.to_nat value, rest) else None.

Section Terms.
Variable ctx : Context.
(** The parser of a disjunction, for what is inside a group. *)
Variable disjunction : Groups -> list ascii -> Parsed (Re * Groups).

Definition parseGroup (g : Groups) (cs : list ascii) : Parsed (Re * Groups * Quantifiable) :=
  match parseGroupHead (started g) cs with
  | PError msg => PError msg
  | POk kind rest =>
      let g1 :=
        match kind with
        | Capturing _ => {| started := S (started g); scope := scope g; named := named g |}
        | _ => g
        end in
      match disjunction g1 rest with
      | PError msg => PError msg
      | POk _ [] => PError "Unterminated group"
      | POk (r, g2) (c :: rest') =>
          if negb (Ascii.eqb c ")") then PError "Unterminated group"
          else
            match kind with
            | Capturing None => POk (Group (Some (S (started g))) r, g2, Yes) rest'
            | Capturing (Some name) =>
                if existsb (sameName name) (scope g2)
                then PError "Duplicate capture group name"
                else POk (Group (Some (S (started g))) r,
                          {| started := started g2;
                             scope := name :: scope g2;
                             named := (name, S (started g)) :: named g2 |},
                          Yes) rest'
            | NonCapturing => POk (Group None r, g2, Yes) rest'
            | Lookaround behind negative =>
                POk (Look behind negative r, g2, if behind then NotBehind else Yes) rest'
            | Modifiers add remove => POk (Modified add remove r, g2, Yes) rest'
            end
      end
  end.

(** What follows a backslash outside a class. *)
Definition parseAtomEscape (g : Groups) (cs : list ascii)
  : Parsed (Re * Groups * Quantifiable) :=
  let character (cs : list ascii) :=
    match parseCharacterEscape ctx false cs with
    | POk n rest => POk (unitTree n, g, Yes) rest
    | PError msg => PError msg
    end in
  match cs with
  | [] => PError "\ at end of pattern"
  | c :: rest =>
      if isDigit c && negb (Ascii.eqb c "0") then
        match parseBackReference ctx cs with
        | Some (n, rest') => POk (Backref [n], g, Yes) rest'
        | None =>
            if Ascii.eqb c "8" || Ascii.eqb c "9" then POk (Chr c, g, Yes) rest
            else let '(v, rest') := parseOctal cs in POk (unitTree v, g, Yes) rest'
        end
      else if Ascii.eqb c "0" then
        let '(v, rest') := parseOctal cs in POk (unitTree v, g, Yes) rest'
      else if Ascii.eqb c "b" then POk (Assert WordBoundary, g, Never) rest
      else if Ascii.eqb c "B" then POk (Assert NotWordBoundary, g, Never) rest
      else if Ascii.eqb c "k" && hasNamedGroups ctx then
        match rest with
        | "<"%char :: rest' =>
            match parseGroupName (S (length rest')) rest' [] with
            | POk name rest'' => POk (NamedRef name, g, Yes) rest''
            | PError msg => PError msg
            end
        | _ => PError "Invalid named reference"
        end
      else
        match classEscape c with
        | Some it => POk (Class false [it], g, Yes) rest
        | None => character cs
        end
  end.

Definition parseAtom (g : Groups) (cs : list ascii) : Parsed (Re * Groups * Quantifiable) :=
  match cs with
  | [] => POk (Empty, g, Never) []
  | c :: rest =>
      if Ascii.eqb c backslash then parseAtomEscape g rest
      else
        match c with
        | "." => POk (Dot, g, Yes) rest
        | "^" => POk (Assert Bol, g, Never) rest
        | "$" => POk (Assert Eol, g, Never) rest
        | "[" =>
            match parseClass ctx rest with
            | POk r rest' => POk (r, g, Yes) rest'
            | PError msg => PError msg
            end
        | "(" => parseGroup g rest
        | "*" | "+" | "?" => PError "Nothing to repeat"
        | "{" =>
            match parseInterval rest with
            | Some _ => PError "Nothing to repeat"
            | None => POk (Chr c, g, Yes) rest
            end
        | _ => POk (Chr c, g, Yes) rest
        end%char
  end.

(** An atom and the quantifier that may follow it. *)
Definition parseTerm (g : Groups) (cs : list ascii) : Parsed (Re * Groups) :=
  match parseAtom g cs with
  | PError msg => PError msg
  | POk (r, g', Never) rest => POk (r, g') rest
  | POk (r, g', q) rest =>
      match parseQuantifier rest with
      | PError msg => PError msg
      | POk None rest' => POk (r, g') rest'
      | POk (Some (min, max, greedy)) rest' =>
          match q with
          | NotBehind => PError "Invalid quantifier"
          | _ =>
              POk (Repeat r min max greedy (S (started g)) (started g' - started g), g') rest'
          end
      end
  end.

(** The terms of an alternative, up to a bar, a closing parenthesis or
    the end. *)
Fixpoint parseAlternative (fuel : nat) (g : Groups) (cs : list ascii)
  : Parsed (Re * Groups) :=
  match cs with
  | [] => POk (Empty, g) []
  | c :: _ =>
      if Ascii.eqb c "|" || Ascii.eqb c ")" then POk (Empty, g) cs
      else
        match fuel with
        | O => PError "Regular expression too large"
        | S fuel' =>
            match parseTerm g cs with
            | POk (r, g') rest =>
                match parseAlternative fuel' g' rest with
                | POk (r', g'') rest' => POk (Seq r r', g'') rest'
                | PError msg => PError msg
                end
            | PError msg => PError msg
            end
        end
  end.

(** The alternatives of a disjunction.  An alternative starts with the
    names in scope at the start of the disjunction; what follows the
    disjunction has the names of all its alternatives in scope. *)
Fixpoint parseAlternatives (fuel : nat) (outer : list (list N)) (g : Groups)
    (cs : list ascii) : Parsed (Re * Groups) :=
  match parseAlternative (length cs) g cs with
  | POk (r, g') (c :: rest) =>
      if Ascii.eqb c "|" then
        match fuel with
        | O => PError "Regular expression too large"
        | S fuel' =>
            match parseAlternatives fuel' (scope g' ++ outer)
                    {| started := started g'; scope := scope g; named := named g' |} rest with
            | POk (r', g'') rest' => POk (Alt r r', g'') rest'
            | PError msg => PError msg
            end
        end
      else POk (r, {| started := started g'; scope := scope g' ++ outer;
                      named := named g' |}) (c :: rest)
  | POk (r, g') [] =>
      POk (r, {| started := started g'; scope := scope g' ++ outer; named := named g' |}) []
  | PError msg => PError msg
  end.

End Terms.

(** A disjunction with groups nested at most [depth] deep. *)
Fixpoint parseDisjunction (ctx : Context) (depth : nat) (g : Groups) (cs : list ascii)
  : Parsed (Re * Groups) :=
  match depth with
  | O => PError "Regular expression too large"
  | S depth' => parseAlternatives ctx (parseDisjunction ctx depth') (length cs) [] g cs
  end.

(** The number of capturing groups of a pattern and whether one is named,
    found by a scan ahead over escapes, classes and parentheses. *)
Fixpoint skipClass (cs : list ascii) : list ascii :=
  match cs with
  | [] => []
  | c :: rest =>
      if Ascii.eqb c backslash then
        match rest with
        | _ :: rest' => skipClass rest'
        | [] => []
        end
      else if Ascii.eqb c "]" then rest
      else skipClass rest
  end.

Fixpoint scanForCaptures (fuel : nat) (cs : list ascii) (count : nat) (hasNamed : bool)
  : Context :=
  match fuel with
  | O => {| captureCount := count; hasNamedGroups := hasNamed |}
  | S fuel' =>
      match cs with
      | [] => {| captureCount := count; hasNamedGroups := hasNamed |}
      | c :: rest =>
          if Ascii.eqb c backslash then
            scanForCaptures fuel' (tail rest) count hasNamed
          else if Ascii.eqb c "[" then scanForCaptures fuel' (skipClass rest) count hasNamed
          else if Ascii.eqb c "(" then
            match rest with
            | "?"%char :: "<"%char :: d :: rest' =>
                if Ascii.eqb d "=" || Ascii.eqb d "!"
                then scanForCaptures fuel' (d :: rest') count hasNamed
                else scanForCaptures fuel' (d :: rest') (S count) true
            | "?"%char :: "<"%char :: [] => {| captureCount := S count; hasNamedGroups := true |}
            | "?"%char :: rest' => scanForCaptures fuel' rest' count hasNamed
            | _ => scanForCaptures fuel' rest (S count) hasNamed
            end
          else scanForCaptures fuel' rest count hasNamed
      end
  end.

(** The references by name become references to the groups of that
    name. *)
Fixpoint resolve (names : list (list N * nat)) (r : Re) : option Re :=
  match r with
  | NamedRef name =>
      match omap (fun p => if sameName name (fst p) then Some (snd p) else None) names with
      | [] => None
      | groups => Some (Backref groups)
      end
  | Look behind negative r' =>
      match resolve names r' with
      | Some t => Some (Look behind negative t)
      | None => None
      end
  | Seq r1 r2 =>
      match resolve names r1, resolve names r2 with
      | Some t1, Some t2 => Some (Seq t1 t2)
      | _, _ => None
      end
  | Alt r1 r2 =>
      match resolve names r1, resolve names r2 with
      | Some t1, Some t2 => Some (Alt t1 t2)
      | _, _ => None
      end
  | Repeat r' min max greedy first count =>
      match resolve names r' with
      | Some t => Some (Repeat t min max greedy first count)
      | None => None
      end
  | Group index r' =>
      match resolve names r' with
      | Some t => Some (Group index t)
      | None => None
      end
  | Modified add remove r' =>
      match resolve names r' with
      | Some t => Some (Modified add remove t)
      | None => None
      end
  | _ => Some r
  end.

Inductive ParseResult : Type :=
| Tree (r : Re)
| Invalid (reason : string).

Definition parse (source : string) : ParseResult :=
  let cs := String.list_ascii_of_string source in
  let ctx := scanForCaptures (S (length cs)) cs 0 false in
  match parseDisjunction ctx (S (length cs)) noGroups cs with
  | POk (r, g) [] =>
      match resolve (named g) r with
      | Some t => Tree t
      | None => Invalid "Invalid named capture referenced"
      end
  | POk _ (_ :: _) => Invalid "Unmatched ')'"
  | PError msg => Invalid msg
  end.

(** The flags of the constructor: each of [d g i m s u v y] at most once,
    not both [u] and [v]. *)
Fixpoint validFlags (cs seen : list ascii) : bool :=
  match cs with
  | [] => negb (existsb (Ascii.eqb "u") seen && existsb (Ascii.eqb "v") seen)
  | c :: rest =>
      existsb (Ascii.eqb c) ["d"; "g"; "i"; "m"; "s"; "u"; "v"; "y"]%char
      && negb (existsb (Ascii.eqb c) seen)
      && validFlags rest (c :: seen)
  end.

Definition hasFlag (c : ascii) (flags : string) : bool :=
  existsb (Ascii.eqb c) (String.list_ascii_of_string flags).

(** The flags in the order [d g i m s u v y], as error messages show
    them. *)
Definition canonicalFlags (flags : string) : string :=
  String.string_of_list_ascii
    (List.filter (fun c => hasFlag c flags) ["d"; "g"; "i"; "m"; "s"; "u"; "v"; "y"]%char).

(** [new RegExp(source, flags)]: the program, or the message of the
    SyntaxError. *)
Definition compile (source flags : string) : string + Program :=
  if negb (validFlags (String.list_ascii_of_string flags) []) then
    inl ("Invalid flags supplied to RegExp constructor '" +:+ flags +:+ "'")
  else
    match parse source with
    | Tree r =>
        inr {| tree := r;
               flags := {| ignoreCase := hasFlag "i" flags;
                           multiline := hasFlag "m" flags;
                           dotAll := hasFlag "s" flags |} |}
    | Invalid reason =>
        inl ("Invalid regular expression: /" +:+ source +:+ "/" +:+ canonicalFlags flags
             +:+ ": " +:+ reason)
    end.

#[export] Instance host : RegExpHost :=
  Build_RegExpHost Program compile matchAt.

End MiniRegExp.

(** ** Vocabulary of the statements *)

(** [n] calls of a method one after the other, each on the state the
    previous one left (also when it threw). *)
Definition afterCalls {S A} (n : nat) (m : M S A) (s : S) : S :=
  Nat.iter n (exec_state m) s.

(** [n] calls in one piece of code: a call that throws ends it. *)
Fixpoint callN {S} (n : nat) (m : M S unit) : M S unit :=
  match n with
  | O => ret tt
  | S n' => (call m; callN n' m)%js
  end.

(** A host with the highlight API and an empty registry, and one without
    the API, over a page [b]. *)
Definition supportedWorld (b : HTMLElement) : World :=
  {| css_highlights := Some ∅; console := []; animationFrames := []; timers := [];
     nextTimerId := 0; nextPromiseId := 0; clock := fun n => Z.of_nat n;
     clockReads := 0; trace := []; body := b |}.

Definition unsupportedWorld (b : HTMLElement) : World :=
  set_css_highlights None (supportedWorld b).

Definition visible : CSSStyleDeclaration :=
  {| display := "block"; visibility := "visible"; opacity := "1" |}.

(** [<body><p>text</p></body>] *)
Definition page (text : string) : HTMLElement :=
  {| tagName := "BODY"; computedStyle := visible;
     childNodes := [ElementNode "P" visible [TextNode {| nodeId := 0; textContent := text |}]] |}.

(** A match of [len] characters at [start] in a text node. *)
Definition matchIn (t : Text) (i : Z) (start len : nat) : MatchData :=
  {| text := String.substring start len (textContent t);
     range := {| startContainer := t; rangeStart := Z.of_nat start;
                 endContainer := t; rangeEnd := Z.of_nat (start + len) |};
     index := i; node := t;
     startOffset := Z.of_nat start; endOffset := Z.of_nat (start + len) |}.

Definition sampleText : Text := {| nodeId := 0; textContent := "cat concatenate cat" |}.

Definition sampleMatches : list MatchData :=
  [matchIn sampleText 0 0 3; matchIn sampleText 1 7 3; matchIn sampleText 2 16 3].

Definition samplePage : HTMLElement := page "cat concatenate cat".

(** A coordinator that holds the three sample matches, the first one
    current. *)
Definition atFirstOfThree : HighlightManager.t :=
  {| HighlightManager.allMatchesHighlight := None;
     HighlightManager.currentMatchHighlight := None;
     HighlightManager.matches := sampleMatches;
     HighlightManager.currentIndex := 0 |}.

(** The state after [highlightMatches(sampleMatches)] on a fresh coordinator
    of a host without the API. *)
Definition storedWithoutApi : HighlightManager.St :=
  exec_state (HighlightManager.highlightMatches sampleMatches)
    (HighlightManager.init, unsupportedWorld samplePage).

(** A controller that holds the three sample matches and has a handler
    (number 7) registered for match changes. *)
Definition controllerAtFirstOfThree : SearchController.t :=
  {| SearchController.highlightManager := atFirstOfThree;
     SearchController.currentQuery := "cat";
     SearchController.currentOptions :=
       {| isRegex := false; caseSensitive := false; wholeWord := true |};
     SearchController.searchResult := None;
     SearchController.searchDebounceTimer := None;
     SearchController.onSearchCompleteCallback := None;
     SearchController.onMatchChangeCallback := Some 7%nat |}.

(** What every match descriptor satisfies: the offsets lie in the text of
    its node, in order, and span the matched text. *)
Definition wellFormed (md : MatchData) : Prop :=
  0 <= startOffset md <= endOffset md
  /\ endOffset md <= Z.of_nat (String.length (textContent (node md)))
  /\ endOffset md - startOffset md = Z.of_nat (String.length (text md))
  /\ text md = substring (Z.to_nat (startOffset md)) (Z.to_nat (endOffset md))
                 (textContent (node md)).

(** The invariant as the data model states it, with a strict inequality. *)
Definition strictOffsets (md : MatchData) : Prop :=
  0 <= startOffset md < endOffset md
  /\ endOffset md <= Z.of_nat (String.length (textContent (node md))).

(** How many matches a search returned and the [totalCount] it reported. *)
Definition counts (res : Res SearchResult) : option (Z * Z) :=
  match res with
  | Ok r => Some (Z.of_nat (length (matches r)), totalCount r)
  | _ => None
  end.

(** The matched text and the offsets of every match a search returned. *)
Definition spans (res : Res SearchResult) : option (list (string * Z * Z)) :=
  match res with
  | Ok r => Some (map (fun md => (text md, startOffset md, endOffset md)) (matches r))
  | _ => None
  end.

(** [n] times the letter a. *)
Fixpoint letters (n : nat) : string :=
  match n with
  | O => EmptyString
  | S n' => String "a" (letters n')
  end.

(** A body of [n] [span] elements, each with the one-letter text a. *)
Definition pageOfSpans (n : nat) : HTMLElement :=
  {| tagName := "BODY"; computedStyle := visible;
     childNodes :=
       map (fun i => ElementNode "SPAN" visible [TextNode {| nodeId := i; textContent := "a" |}])
           (seq 0 n) |}.

Definition literalOptions (caseSensitive wholeWord : bool) : SearchOptions :=
  {| isRegex := false; caseSensitive := caseSensitive; wholeWord := wholeWord |}.

Definition regexOptions : SearchOptions :=
  {| isRegex := true; caseSensitive := false; wholeWord := false |}.

(** The characters of [q] stand in [s] from position [i] on, compared as
    they are or, with [ignoreCase], after canonicalization. *)
Fixpoint occursAt (ignoreCase : bool) (q s : string) (i : nat) : bool :=
  match q with
  | EmptyString => true
  | String c q' =>
      match String.get i s with
      | Some d =>
          Ascii.eqb (MiniRegExp.canonicalize ignoreCase d)
                    (MiniRegExp.canonicalize ignoreCase c)
          && occursAt ignoreCase q' s (S i)
      | None => false
      end
  end.

(** A literal occurrence of the query [q] at position [i] of [s]: its
    characters stand there, and with [wholeWord] there is a word boundary
    at both ends. *)
Definition literalAt (caseSensitive wholeWord : bool) (q s : string) (i : nat) : bool :=
  if wholeWord then
    MiniRegExp.holds s MiniRegExp.WordBoundary i
    && occursAt (negb caseSensitive) q s i
    && MiniRegExp.holds s MiniRegExp.WordBoundary (i + String.length q)
  else occursAt (negb caseSensitive) q s i.

(** The syntax tree of a sequence of literal characters, followed by [r]. *)
Fixpoint literalSeq (q : string) (r : MiniRegExp.Re) : MiniRegExp.Re :=
  match q with
  | EmptyString => r
  | String c q' => MiniRegExp.Seq (MiniRegExp.Chr c) (literalSeq q' r)
  end.

(** The characters of a pattern source. *)
Definition chars (s : string) : list ascii := String.list_ascii_of_string s.

(** The source [buildPattern] makes of a pattern for whole words. *)
Definition wholeWordSource (pattern : string) : string :=
  String backslash (String "b" pattern) +:+ String backslash "b".

(** The next character starts a quantifier. *)
Definition startsQuantifier (cs : list ascii) : bool :=
  match cs with
  | c :: _ => existsb (Ascii.eqb c) ["*"; "+"; "?"; "{"]%char
  | [] => false
  end.

(** One call of [SearchController.search]. *)
Record SearchCall : Type := {
  callQuery : string;
  callOptions : SearchOptions;
  callDebounce : option Z;
}.

(** Every pending timer is the one the controller remembers. *)
Definition timersTracked (s : SearchController.St) : Prop :=
  Forall (fun t => SearchController.searchDebounceTimer (fst s) = Some (fst t))
         (timers (snd s)).

(** A burst of calls of [search], one after the other and no timer firing
    in between; the promise of the last call is returned. *)
Fixpoint searchAll {host : RegExpHost} (calls : list SearchCall)
    (last : option SearchController.Promise)
  : M SearchController.St (option SearchController.Promise) :=
  match calls with
  | [] => ret last
  | c :: rest =>
      (do p <- SearchController.search (callQuery c) (callOptions c) (callDebounce c);
       searchAll rest (Some p))%js
  end.

(** The calls of the completion handler, the promises resolved and the
    RegExp objects constructed that a trace records. *)
Definition completions (tr : list Event) : list (nat * SearchResult) :=
  omap (fun e => match e with SearchCompleteCalled h r => Some (h, r) | _ => None end) tr.
Definition resolutions (tr : list Event) : list (nat * SearchResult) :=
  omap (fun e => match e with PromiseResolved p r => Some (p, r) | _ => None end) tr.
Definition constructions (tr : list Event) : list (string * string) :=
  omap (fun e => match e with RegExpConstructed s f => Some (s, f) | _ => None end) tr.

(** [debounceMs = 300] *)
Definition debounceOf (d : option Z) : Z := match d with Some ms => ms | None => 300 end.

(** A new controller with a completion handler (number 5) registered. *)
Definition listeningController : SearchController.t :=
  {| SearchController.highlightManager := HighlightManager.init;
     SearchController.currentQuery := EmptyString;
     SearchController.currentOptions :=
       {| isRegex := false; caseSensitive := false; wholeWord := false |};
     SearchController.searchResult := None;
     SearchController.searchDebounceTimer := None;
     SearchController.onSearchCompleteCallback := Some 5%nat;
     SearchController.onMatchChangeCallback := None |}.

Definition typed (query : string) : SearchCall :=
  {| callQuery := query;
     callOptions := {| isRegex := false; caseSensitive := false; wholeWord := false |};
     callDebounce := None |}.

(** The state [clearHighlights] leaves when the API is there. *)
Definition cleared (reg : gmap string Highlight) (w : World) : HighlightManager.St :=
  (HighlightManager.init,
   set_css_highlights
     (Some (delete HighlightManager.CURRENT_MATCH_NAME
              (delete HighlightManager.ALL_MATCHES_NAME reg))) w).

(** ** Vocabulary of the further statements *)

(** The matches of one text node stand from left to right from the offset
    [from] on: each starts at or after the end of the one before it, and
    after its start. *)
Fixpoint inOrderFrom (from : Z) (ms : list MatchData) : Prop :=
  match ms with
  | [] => True
  | md :: rest =>
      from <= startOffset md
      /\ inOrderFrom (Z.max (endOffset md) (startOffset md + 1)) rest
  end.

(** The range of a match spans its offsets in its node. *)
Definition rangeSpans (md : MatchData) : Prop :=
  startContainer (range md) = node md /\ endContainer (range md) = node md
  /\ rangeStart (range md) = startOffset md /\ rangeEnd (range md) = endOffset md.

(** The [index] of every match is its position in the list. *)
Definition numbered (ms : list MatchData) : Prop :=
  forall (k : nat) (md : MatchData), ms !! k = Some md -> index md = Z.of_nat k.

(** From position [MAX_MATCHES - 1] on, all matches come from one text
    node. *)
Definition oneNodePastCeiling (ms : list MatchData) : Prop :=
  forall (i j : nat) (a b : MatchData),
    SearchEngine.MAX_MATCHES - 1 <= Z.of_nat i ->
    SearchEngine.MAX_MATCHES - 1 <= Z.of_nat j ->
    ms !! i = Some a -> ms !! j = Some b -> node a = node b.

(** The text nodes below a root element, each with its parent element, in
    document order. *)
Definition textUnder (rootElement : HTMLElement)
  : list (SearchEngine.ParentElement * Text) :=
  flat_map
    (SearchEngine.textNodesOf
       {| SearchEngine.parentTag := tagName rootElement;
          SearchEngine.parentStyle := computedStyle rootElement |})
    (childNodes rootElement).

(** What [shouldIncludeNode] asks of a text node and its parent element. *)
Definition shown (parent : SearchEngine.ParentElement) (t : Text) : Prop :=
  trim (textContent t) <> EmptyString
  /\ display (SearchEngine.parentStyle parent) <> "none"
  /\ visibility (SearchEngine.parentStyle parent) <> "hidden"
  /\ opacity (SearchEngine.parentStyle parent) <> "0"
  /\ ~ In (toLowerCase (SearchEngine.parentTag parent))
         (SearchEngine.excludedTags ++ ["input"; "textarea"; "select"]).

(** The root element a search walks: the one given, or [document.body]. *)
Definition rootOf (rootElement : option HTMLElement) (w : World) : HTMLElement :=
  match rootElement with
  | Some r => r
  | None => body w
  end.

(** The pattern source and the flags [buildPattern] hands to the RegExp
    constructor. *)
Definition patternSource (searchText : string) (options : SearchOptions) : string :=
  let pattern :=
    if isRegex options then searchText else SearchEngine.escapeRegex searchText in
  if wholeWord options then wholeWordSource pattern else pattern.

Definition patternFlags (options : SearchOptions) : string :=
  if caseSensitive options then "g" else "gi".

(** A global RegExp of the concrete host for the letter a. *)
Definition letterPattern : RegExp.t (host := MiniRegExp.host) :=
  @RegExp.Build_t MiniRegExp.host
    {| MiniRegExp.tree := MiniRegExp.Seq (MiniRegExp.Chr "a") MiniRegExp.Empty;
       MiniRegExp.flags := MiniRegExp.noFlags |}
    true 0%nat.

(** A body of 9,999 [span] elements with the one-letter text a, then a
    paragraph with 60 letters a and a paragraph with 5. *)
Definition pastTheCeiling : HTMLElement :=
  {| tagName := "BODY"; computedStyle := visible;
     childNodes :=
       childNodes (pageOfSpans (Z.to_nat 9999))
       ++ [ElementNode "P" visible
             [TextNode {| nodeId := Z.to_nat 9999; textContent := letters 60 |}];
           ElementNode "P" visible
             [TextNode {| nodeId := Z.to_nat 10000; textContent := letters 5 |}]] |}.

(** How many matches a search returned, and the text nodes (by their
    number) of the matches at the given positions of the list. *)
Definition countAndNodesAt (positions : list Z) (res : Res SearchResult)
  : option (Z * list (option Z)) :=
  match res with
  | Ok r =>
      Some (Z.of_nat (length (matches r)),
            map (fun i => match matches r !! Z.to_nat i with
                          | Some md => Some (Z.of_nat (nodeId (node md)))
                          | None => None
                          end) positions)
  | _ => None
  end.

(** The public methods of the coordinator that change its state. *)
Inductive Method : Type :=
| HighlightMatches (ms : list MatchData)
| SetCurrentMatch (index : Number.t)
| ScrollToMatch (index : Number.t)
| NextMatch
| PreviousMatch
| ClearHighlights
| RefreshHighlights.

Definition invoke (m : Method) : M HighlightManager.St unit :=
  match m with
  | HighlightMatches ms => HighlightManager.highlightMatches ms
  | SetCurrentMatch i => HighlightManager.setCurrentMatch i
  | ScrollToMatch i => HighlightManager.scrollToMatch i
  | NextMatch => HighlightManager.nextMatch
  | PreviousMatch => HighlightManager.previousMatch
  | ClearHighlights => HighlightManager.clearHighlights
  | RefreshHighlights => HighlightManager.refreshHighlights
  end.

(** The index a call is given, if it takes one, is an integer. *)
Definition integerIndex (m : Method) : Prop :=
  match m with
  | SetCurrentMatch index | ScrollToMatch index => exists i : Z, index = Number.Int i
  | _ => True
  end.

(** The calls one after the other; a call that throws ends them. *)
Fixpoint invokeAll (calls : list Method) : M HighlightManager.St unit :=
  match calls with
  | [] => ret tt
  | m :: rest => (call invoke m; invokeAll rest)%js
  end.

(** The invariant of the session state: no current match, or a current
    index inside the match sequence. *)
Definition indexValid (h : HighlightManager.t) : Prop :=
  exists i : Z,
    HighlightManager.currentIndex h = i
    /\ (i = -1 \/ 0 <= i < Z.of_nat (length (HighlightManager.matches h))).

(** A computation leaves the part [f] of the state as it is, however it
    ends. *)
Definition keeps {S A X : Type} (f : S -> X) (m : M S A) : Prop :=
  forall s : S, f (snd (m s)) = f s.

(** The calls of the match-change handler that a trace records. *)
Definition matchChanges (tr : list Event) : list (nat * Number.t * Z) :=
  omap (fun e => match e with MatchChangeCalled h c t => Some (h, c, t) | _ => None end) tr.

(** What the user interface and the event loop do to a controller. *)
Inductive Action : Type :=
| Search (query : string) (options : SearchOptions) (debounceMs : option Z)
| Clear
| NavigateNext
| NavigatePrevious
| NavigateToMatch (index : Number.t)
| FireTimer (id : nat)
| OnSearchComplete (handler : nat)
| OnMatchChange (handler : nat).

Definition perform {host : RegExpHost} (a : Action) : M SearchController.St unit :=
  match a with
  | Search query options debounceMs =>
      (call SearchController.search query options debounceMs; ret tt)%js
  | Clear => SearchController.clear
  | NavigateNext => SearchController.navigateNext
  | NavigatePrevious => SearchController.navigatePrevious
  | NavigateToMatch i => SearchController.navigateToMatch i
  | FireTimer id => SearchController.fireTimer id
  | OnSearchComplete handler => SearchController.onSearchComplete handler
  | OnMatchChange handler => SearchController.onMatchChange handler
  end.

(** The state after the actions, each on the state the one before left
    (also when it threw). *)
Definition afterActions {host : RegExpHost} (actions : list Action)
    (s : SearchController.St) : SearchController.St :=
  fold_left (fun s a => exec_state (perform a) s) actions s.

(** No timer is pending, or one is and it is the one the controller
    remembers. *)
Definition atMostOnePending (s : SearchController.St) : Prop :=
  timers (snd s) = []
  \/ exists id ms cb,
       timers (snd s) = [(id, (ms, cb))]
       /\ SearchController.searchDebounceTimer (fst s) = Some id.

(** The timers of the host and the timer the controller remembers. *)
Definition timerState (s : SearchController.St)
  : list (nat * (Z * TimerCallback)) * option nat :=
  (timers (snd s), SearchController.searchDebounceTimer (fst s)).

Definition hostTimers (s : HighlightManager.St) : list (nat * (Z * TimerCallback)) :=
  timers (snd s).

(** The source of the first literal of [dangerousPatterns] and its tree:
    the group is number 1, and each repetition resets the groups inside
    it. *)
Definition wordPlusSource : string := "(\w+)+\+".

Definition wordClass : MiniRegExp.Re := MiniRegExp.Class false [MiniRegExp.Word true].

Definition wordGroup : MiniRegExp.Re :=
  MiniRegExp.Group (Some 1%nat)
    (MiniRegExp.Seq (MiniRegExp.Repeat wordClass 1 None true 2 0) MiniRegExp.Empty).

Definition nestedWordPlus : MiniRegExp.Re :=
  MiniRegExp.Seq (MiniRegExp.Repeat wordGroup 1 None true 1 1)
    (MiniRegExp.Seq (MiniRegExp.Chr "+") MiniRegExp.Empty).

(** A word character of [s] at [i] with a plus sign right after it. *)
Definition wordThenPlusAt (s : string) (i : nat) : Prop :=
  exists c, String.get i s = Some c /\ MiniRegExp.isWordChar c = true
            /\ String.get (S i) s = Some "+"%char.

(** What the standard says of the first dangerous pattern: where a word
    character is followed by a plus sign, it matches. *)
Definition findsWordThenPlus (host : RegExpHost) : Prop :=
  forall (m : Matcher) (s : string) (i : nat),
    compile wordPlusSource EmptyString = inr m ->
    wordThenPlusAt s i -> matchAt m s i <> None.

(** No word character stands in [s] before [i]. *)
Definition noWordCharBefore (s : string) (i : nat) : Prop :=
  forall (j : nat) (d : ascii),
    (j < i)%nat -> String.get j s = Some d -> MiniRegExp.isWordChar d = false.

(** An unterminated group of 1001 characters. *)
Definition longUnterminated : string := String "(" (letters 1000).

(** A position [b] lies ahead of [a]: at or after it going forward, at or
    before it going backward. *)
Definition ahead (back : bool) (a b : nat) : Prop :=
  if back then (b <= a)%nat else (a <= b)%nat.

(** Whatever [f] returns from a state within the string [s] was returned
    by the continuation [k], called within the string at a position
    ahead. *)
Definition within (s : string) (back : bool) (k : MiniRegExp.Cont)
    (f : MiniRegExp.State -> option MiniRegExp.State) : Prop :=
  forall (x z : MiniRegExp.State),
    (fst x <= String.length s)%nat -> f x = Some z ->
    exists y, ahead back (fst x) (fst y) /\ (fst y <= String.length s)%nat /\ k y = Some z.

(** * Theorems *)

(** ** The highlight coordinator *)

Section HighlightManagerFacts.
Import HighlightManager.

Lemma clearHighlights_supported h w reg :
  css_highlights w = Some reg ->
  clearHighlights (h, w) = (Ok tt, cleared reg w).
Proof. destruct w; cbn; intros ->. reflexivity. Qed.

Lemma clearHighlights_unsupported h w :
  css_highlights w = None ->
  clearHighlights (h, w) = (Ok tt, (h, w)).
Proof. destruct w; cbn; intros ->. reflexivity. Qed.

Lemma setCurrentMatch_rejected (i : Number.t) h w :
  outOfRange i h = true ->
  setCurrentMatch i (h, w) =
    (Ok tt, (h, set_console (console w ++ [WarnInvalidMatchIndex i]) w)).
Proof.
  intros Ho. unfold setCurrentMatch, bind, this, gets. cbn [fst snd].
  rewrite Ho. reflexivity.
Qed.

Lemma outOfRange_false (i : Z) h :
  outOfRange i h = false <-> 0 <= i < Z.of_nat (length (matches h)).
Proof.
  unfold outOfRange. cbn [Number.ltb Number.geb].
  rewrite orb_false_iff, Z.ltb_ge, Z.geb_leb, Z.leb_gt. lia.
Qed.

Lemma lookup_Int {A} (array : list A) (i : Z) :
  0 <= i -> Number.lookup array i = array !! Z.to_nat i.
Proof.
  intros Hi. unfold Number.lookup. cbn [Number.asInteger].
  destruct (i <? 0) eqn:E; [|reflexivity]. apply Z.ltb_lt in E. lia.
Qed.

Lemma lookup_in_range (i : Z) h :
  outOfRange i h = false -> exists m, Number.lookup (matches h) i = Some m.
Proof.
  intros Hi%outOfRange_false. rewrite lookup_Int by lia.
  destruct (matches h !! Z.to_nat i) as [m|] eqn:E; [eauto|].
  apply lookup_ge_None in E. lia.
Qed.

(** An index in range becomes the current one, whatever the host; the
    match sequence stays. *)
Lemma setCurrentMatch_state (i : Z) h w :
  outOfRange i h = false ->
  matches (fst (exec_state (setCurrentMatch i) (h, w))) = matches h
  /\ currentIndex (fst (exec_state (setCurrentMatch i) (h, w))) = i.
Proof.
  intros Ho. destruct (lookup_in_range i h Ho) as [m Hm].
  destruct h as [a c ms ci], w as [[reg|] ? ? ? ? ? ? ? ? ?], c as [c|];
    unfold exec_state, setCurrentMatch, scrollToMatch, bind, this, gets, outOfRange in *;
    cbn in *; rewrite ?Ho, ?Hm; cbn; rewrite ?Ho, ?Hm; cbn; auto.
Qed.

(** With the API there the call returns normally. *)
Lemma setCurrentMatch_returns (i : Z) h w :
  outOfRange i h = false -> css_highlights w <> None ->
  outcome (setCurrentMatch i) (h, w) = Ok tt
  /\ css_highlights (snd (exec_state (setCurrentMatch i) (h, w))) <> None.
Proof.
  intros Ho Hs. destruct (lookup_in_range i h Ho) as [m Hm].
  destruct h as [a c ms ci], w as [[reg|] ? ? ? ? ? ? ? ? ?], c as [c|];
    unfold outcome, exec_state, setCurrentMatch, scrollToMatch, bind, this, gets,
      outOfRange in *;
    cbn in *; rewrite ?Ho, ?Hm; cbn; rewrite ?Ho, ?Hm; cbn; auto; congruence.
Qed.

Lemma highlightMatches_supported h w reg m ms :
  css_highlights w = Some reg ->
  highlightMatches (m :: ms) (h, w) =
    (Ok tt,
     ({| allMatchesHighlight := Some (map range (m :: ms));
         currentMatchHighlight := None;
         matches := [];
         currentIndex := -1 |},
      set_console (console w ++ [WarnInvalidMatchIndex 0])
        (set_css_highlights
           (Some (<[ALL_MATCHES_NAME := map range (m :: ms)]>
                    (delete CURRENT_MATCH_NAME (delete ALL_MATCHES_NAME reg)))) w))).
Proof. destruct w; cbn; intros ->. reflexivity. Qed.

(** Without the API [highlightMatches] only stores the sequence: no
    match becomes current. *)
Lemma highlightMatches_unsupported h w ms :
  css_highlights w = None ->
  highlightMatches ms (h, w) =
    (Ok tt,
     ({| allMatchesHighlight := allMatchesHighlight h;
         currentMatchHighlight := currentMatchHighlight h;
         matches := ms;
         currentIndex := currentIndex h |}, w)).
Proof.
  destruct w, h; cbn; intros ->.
  unfold highlightMatches, bind; cbn. destruct (length ms =? 0)%nat; reflexivity.
Qed.

(** With the API an empty sequence leaves no current match. *)
Lemma highlightMatches_empty h w reg :
  css_highlights w = Some reg ->
  highlightMatches [] (h, w) = (Ok tt, cleared reg w).
Proof. destruct w; cbn; intros ->. reflexivity. Qed.

(** C1. On a host with the highlight API, [highlightMatches] of a non-empty
    sequence returns normally but leaves the stored sequence empty and the
    current index at -1: [clearHighlights], called after the sequence is
    stored, empties it, and [setCurrentMatch(0)] is then refused as out of
    range (a warning is logged).  [getTotalMatches()] is 0 and
    [hasMatches()] is false. *)
Theorem highlightMatches_loses_the_matches
    (h : t) (w : World) (reg : gmap string Highlight)
    (m : MatchData) (ms : list MatchData) :
  let s := (h, set_css_highlights (Some reg) w) in
  let s' := exec_state (highlightMatches (m :: ms)) s in
  outcome (highlightMatches (m :: ms)) s = Ok tt
  /\ matches (fst s') = []
  /\ currentIndex (fst s') = -1
  /\ outcome getTotalMatches s' = Ok 0
  /\ outcome hasMatches s' = Ok false
  /\ console (snd s') = console w ++ [WarnInvalidMatchIndex 0].
Proof.
  intros s s'. subst s s'. unfold outcome, exec_state.
  rewrite (highlightMatches_supported h _ reg) by (destruct w; reflexivity).
  destruct w; cbn. repeat split; reflexivity.
Qed.

Lemma cleared_twice reg w :
  exec_state clearHighlights (cleared reg w) = cleared reg w.
Proof.
  unfold exec_state, cleared.
  erewrite clearHighlights_supported by (destruct w; reflexivity).
  unfold cleared.
  assert (E : forall r : gmap string Highlight,
             delete CURRENT_MATCH_NAME (delete ALL_MATCHES_NAME
               (delete CURRENT_MATCH_NAME (delete ALL_MATCHES_NAME r)))
             = delete CURRENT_MATCH_NAME (delete ALL_MATCHES_NAME r)).
  { intros r. apply map_eq; intros k. rewrite !lookup_delete.
    repeat case_decide; reflexivity. }
  destruct w; cbn. rewrite E. reflexivity.
Qed.

(** C4, as the code has it.  [clearHighlights] always returns normally and
    a second call changes nothing more.  With the highlight API it leaves
    the match sequence empty and the current index at -1; without the API
    it returns at once and leaves the state as it was. *)
Theorem clearHighlights_resets_when_supported (h : t) (w : World) :
  let s' := exec_state clearHighlights (h, w) in
  outcome clearHighlights (h, w) = Ok tt
  /\ match css_highlights w with
     | Some _ => matches (fst s') = [] /\ currentIndex (fst s') = -1
     | None => s' = (h, w)
     end
  /\ exec_state clearHighlights s' = s'.
Proof.
  intros s'. subst s'. unfold outcome, exec_state.
  destruct (css_highlights w) as [reg|] eqn:E.
  - rewrite (clearHighlights_supported h w reg E). cbn [fst snd].
    repeat split; try reflexivity. apply cleared_twice.
  - rewrite (clearHighlights_unsupported h w E). cbn [fst snd].
    repeat split; try reflexivity. rewrite (clearHighlights_unsupported h w E).
    reflexivity.
Qed.

(** C4 fails as stated: without the highlight API, the sequence that
    [highlightMatches] stored is still there after [clearHighlights]. *)
Lemma clearHighlights_unsupported_keeps_matches :
  ~ (matches (fst (exec_state clearHighlights storedWithoutApi)) = []
     /\ currentIndex (fst (exec_state clearHighlights storedWithoutApi)) = -1).
Proof. cbn. intros [H _]. discriminate H. Qed.

(** *** Cyclic navigation *)

Lemma nextMatch_unfold h w (i : Z) :
  matches h <> [] -> currentIndex h = i ->
  nextMatch (h, w)
  = setCurrentMatch (Z.rem (i + 1) (Z.of_nat (length (matches h)))) (h, w).
Proof.
  intros Hne Hci. unfold nextMatch, bind, this, gets. cbn [fst snd].
  rewrite Hci. destruct (matches h); [congruence | reflexivity].
Qed.

Lemma previousMatch_unfold h w (i : Z) :
  matches h <> [] -> currentIndex h = i ->
  previousMatch (h, w)
  = setCurrentMatch
      (Number.Int (if i - 1 <? 0 then Z.of_nat (length (matches h)) - 1 else i - 1)) (h, w).
Proof.
  intros Hne Hci. unfold previousMatch, bind, this, gets. cbn [fst snd].
  rewrite Hci. cbn [Number.sub Number.ltb].
  destruct (matches h); [congruence|]. destruct (i - 1 <? 0); reflexivity.
Qed.

(** One step forward from the index [i] (or from no current match, -1):
    the index becomes [(i + 1) mod n], whatever the host. *)
Lemma nextMatch_state h w (i : Z) :
  matches h <> [] -> currentIndex h = i -> -1 <= i < Z.of_nat (length (matches h)) ->
  matches (fst (exec_state nextMatch (h, w))) = matches h
  /\ currentIndex (fst (exec_state nextMatch (h, w)))
     = (i + 1) mod Z.of_nat (length (matches h)).
Proof.
  intros Hne Hi Hci.
  assert (Hpos : 0 < Z.of_nat (length (matches h))).
  { destruct (matches h); [congruence | cbn; lia]. }
  rewrite <- Z.rem_mod_nonneg by lia.
  assert (Ho : outOfRange (Z.rem (i + 1) (Z.of_nat (length (matches h)))) h = false).
  { apply outOfRange_false. rewrite Z.rem_mod_nonneg by lia.
    apply Z.mod_pos_bound. lia. }
  unfold exec_state. rewrite (nextMatch_unfold h w i Hne Hi).
  exact (setCurrentMatch_state _ h w Ho).
Qed.

(** One step back: the index becomes [i - 1], or [n - 1] from 0 and from
    -1. *)
Lemma previousMatch_state h w (i : Z) :
  matches h <> [] -> currentIndex h = i -> -1 <= i < Z.of_nat (length (matches h)) ->
  matches (fst (exec_state previousMatch (h, w))) = matches h
  /\ currentIndex (fst (exec_state previousMatch (h, w)))
     = Number.Int (if i <=? 0 then Z.of_nat (length (matches h)) - 1 else i - 1).
Proof.
  intros Hne Hi Hci.
  assert (Hpos : 0 < Z.of_nat (length (matches h))).
  { destruct (matches h); [congruence | cbn; lia]. }
  assert (Heq : (if i - 1 <? 0 then Z.of_nat (length (matches h)) - 1 else i - 1)
                = (if i <=? 0 then Z.of_nat (length (matches h)) - 1 else i - 1)).
  { destruct (i - 1 <? 0) eqn:E1, (i <=? 0) eqn:E2; try reflexivity;
      rewrite ?Z.ltb_lt, ?Z.ltb_ge, ?Z.leb_le, ?Z.leb_gt in *; lia. }
  assert (Ho : outOfRange
                 (Number.Int (if i <=? 0 then Z.of_nat (length (matches h)) - 1 else i - 1)) h
               = false).
  { apply outOfRange_false. destruct (i <=? 0) eqn:E;
      rewrite ?Z.leb_le, ?Z.leb_gt in E; lia. }
  unfold exec_state. rewrite (previousMatch_unfold h w i Hne Hi), Heq.
  exact (setCurrentMatch_state _ h w Ho).
Qed.

(** With the API there, both steps return normally. *)
Lemma navigation_returns h w (i : Z) :
  matches h <> [] -> currentIndex h = i -> -1 <= i < Z.of_nat (length (matches h)) ->
  css_highlights w <> None ->
  (outcome nextMatch (h, w) = Ok tt
   /\ css_highlights (snd (exec_state nextMatch (h, w))) <> None)
  /\ (outcome previousMatch (h, w) = Ok tt
      /\ css_highlights (snd (exec_state previousMatch (h, w))) <> None).
Proof.
  intros Hne Hi Hci Hs.
  assert (Hpos : 0 < Z.of_nat (length (matches h))).
  { destruct (matches h); [congruence | cbn; lia]. }
  unfold outcome, exec_state.
  rewrite (nextMatch_unfold h w i Hne Hi), (previousMatch_unfold h w i Hne Hi). split.
  - apply setCurrentMatch_returns; [|exact Hs].
    apply outOfRange_false. rewrite Z.rem_mod_nonneg by lia. apply Z.mod_pos_bound. lia.
  - apply setCurrentMatch_returns; [|exact Hs].
    apply outOfRange_false. destruct (i - 1 <? 0) eqn:E;
      rewrite ?Z.ltb_lt, ?Z.ltb_ge in E; lia.
Qed.

Lemma afterCalls_nextMatch h w (k : nat) :
  matches h <> [] -> currentIndex h = 0 ->
  matches (fst (afterCalls k nextMatch (h, w))) = matches h
  /\ currentIndex (fst (afterCalls k nextMatch (h, w)))
     = Z.of_nat k mod Z.of_nat (length (matches h)).
Proof.
  intros Hne H0.
  assert (Hpos : 0 < Z.of_nat (length (matches h))).
  { destruct (matches h); [congruence | cbn; lia]. }
  induction k as [|k [IHm IHi]].
  - cbn. rewrite H0, Z.mod_0_l by lia. auto.
  - unfold afterCalls in *. rewrite Nat.iter_succ.
    destruct (Nat.iter k (exec_state nextMatch) (h, w)) as [h' w'] eqn:E.
    cbn [fst] in IHm, IHi.
    destruct (nextMatch_state h' w' _ ltac:(rewrite IHm; exact Hne) IHi) as [Hm Hi].
    + rewrite IHm. pose proof (Z.mod_pos_bound (Z.of_nat k) _ Hpos). lia.
    + rewrite Hm, Hi, IHm. split; [reflexivity|].
      rewrite Zplus_mod_idemp_l. do 2 f_equal. lia.
Qed.

Lemma callN_nextMatch h w (k : nat) (i : Z) :
  matches h <> [] -> currentIndex h = i -> -1 <= i < Z.of_nat (length (matches h)) ->
  css_highlights w <> None ->
  outcome (callN k nextMatch) (h, w) = Ok tt.
Proof.
  revert h w i. induction k as [|k IH]; intros h w i Hne Hi Hci Hs; [reflexivity|].
  assert (Hpos : 0 < Z.of_nat (length (matches h))).
  { destruct (matches h); [congruence | cbn; lia]. }
  destruct (navigation_returns h w i Hne Hi Hci Hs) as [[Hr Hs'] _].
  destruct (nextMatch_state h w i Hne Hi Hci) as [Hm Hi'].
  unfold outcome, exec_state in *. cbn [callN]. unfold bind at 1.
  destruct (nextMatch (h, w)) as [r [h' w']]. cbn [fst snd] in *. subst r.
  apply (IH h' w' ((i + 1) mod Z.of_nat (length (matches h)))).
  - rewrite Hm. exact Hne.
  - exact Hi'.
  - rewrite Hm. pose proof (Z.mod_pos_bound (i + 1) _ Hpos). lia.
  - exact Hs'.
Qed.

(** C9. With [n > 0] matches and the current index [i], [nextMatch()]
    makes [i + 1] the current index, and 0 from the last index [n - 1];
    [previousMatch()] makes [i - 1] the current index, and [n - 1] from 0;
    the match sequence stays, and on a host with the highlight API both
    return normally.  From the index 0, [k] calls of [nextMatch()] lead to
    the index [k mod n]: [n] calls bring the current index back to 0, and
    one call of [previousMatch()] makes it [n - 1].  With no match, both
    calls leave the state as it is. *)
Theorem navigation_is_cyclic :
  (forall (h : t) (w : World) (i : Z),
      0 <= i < Z.of_nat (length (matches h)) -> currentIndex h = i ->
      let n := Z.of_nat (length (matches h)) in
      currentIndex (fst (exec_state nextMatch (h, w)))
      = Number.Int (if i =? n - 1 then 0 else i + 1)
      /\ matches (fst (exec_state nextMatch (h, w))) = matches h
      /\ currentIndex (fst (exec_state previousMatch (h, w)))
         = Number.Int (if i =? 0 then n - 1 else i - 1)
      /\ matches (fst (exec_state previousMatch (h, w))) = matches h
      /\ (css_highlights w <> None ->
          outcome nextMatch (h, w) = Ok tt /\ outcome previousMatch (h, w) = Ok tt))
  /\ (forall (h : t) (w : World),
      (0 < length (matches h))%nat -> currentIndex h = 0 ->
      let n := length (matches h) in
      (forall k : nat,
          currentIndex (fst (afterCalls k nextMatch (h, w))) = Z.of_nat k mod Z.of_nat n
          /\ matches (fst (afterCalls k nextMatch (h, w))) = matches h)
      /\ currentIndex (fst (afterCalls n nextMatch (h, w))) = 0
      /\ matches (fst (afterCalls n nextMatch (h, w))) = matches h
      /\ (css_highlights w <> None -> outcome (callN n nextMatch) (h, w) = Ok tt)
      /\ currentIndex (fst (exec_state previousMatch (h, w))) = Z.of_nat n - 1
      /\ matches (fst (exec_state previousMatch (h, w))) = matches h)
  /\ (forall (h : t) (w : World),
      matches h = [] ->
      nextMatch (h, w) = (Ok tt, (h, w)) /\ previousMatch (h, w) = (Ok tt, (h, w))).
Proof.
  split; [|split].
  - intros h w i Hi Hci n.
    assert (Hne : matches h <> []) by (destruct (matches h); [cbn in Hi; lia | congruence]).
    destruct (nextMatch_state h w i Hne Hci ltac:(lia)) as [Hm Hn].
    destruct (previousMatch_state h w i Hne Hci ltac:(lia)) as [Hm' Hp].
    rewrite Hm, Hn, Hm', Hp. subst n.
    split; [|split; [reflexivity|split; [|split; [reflexivity|]]]].
    + f_equal. destruct (i =? Z.of_nat (length (matches h)) - 1) eqn:E.
      * apply Z.eqb_eq in E. replace (i + 1) with (Z.of_nat (length (matches h))) by lia.
        apply Z_mod_same_full.
      * apply Z.eqb_neq in E. apply Z.mod_small. lia.
    + f_equal. destruct (i <=? 0) eqn:E1, (i =? 0) eqn:E2; try reflexivity;
        rewrite ?Z.leb_le, ?Z.leb_gt, ?Z.eqb_eq, ?Z.eqb_neq in *; lia.
    + intros Hs.
      destruct (navigation_returns h w i Hne Hci ltac:(lia) Hs) as [[H1 _] [H2 _]]. auto.
  - intros h w Hn H0 n.
    assert (Hne : matches h <> []) by (destruct (matches h); [cbn in Hn; lia | congruence]).
    split; [|split; [|split; [|split; [|split]]]].
    + intros k. destruct (afterCalls_nextMatch h w k Hne H0) as [Hm Hi]. auto.
    + destruct (afterCalls_nextMatch h w n Hne H0) as [Hm Hi].
      rewrite Hi. subst n. rewrite Z_mod_same_full. reflexivity.
    + destruct (afterCalls_nextMatch h w n Hne H0) as [Hm Hi]. exact Hm.
    + intros Hs. apply (callN_nextMatch h w n 0); [exact Hne | exact H0 | lia | exact Hs].
    + destruct (previousMatch_state h w 0 Hne H0 ltac:(lia)) as [_ Hp].
      rewrite Hp. reflexivity.
    + destruct (previousMatch_state h w 0 Hne H0 ltac:(lia)) as [Hm _]. exact Hm.
  - intros h w He. unfold nextMatch, previousMatch, bind, this, gets. cbn [fst snd].
    rewrite He. cbn. auto.
Qed.

(** C9 on a sequence of three matches: a step from the first match, and
    three steps around. *)
Lemma navigation_is_cyclic_witness :
  (currentIndex (fst (exec_state nextMatch (atFirstOfThree, supportedWorld samplePage))) = 1
   /\ matches (fst (exec_state nextMatch (atFirstOfThree, supportedWorld samplePage)))
      = sampleMatches
   /\ currentIndex (fst (exec_state previousMatch (atFirstOfThree, supportedWorld samplePage)))
      = 2
   /\ matches (fst (exec_state previousMatch (atFirstOfThree, supportedWorld samplePage)))
      = sampleMatches
   /\ (css_highlights (supportedWorld samplePage) <> None ->
       outcome nextMatch (atFirstOfThree, supportedWorld samplePage) = Ok tt
       /\ outcome previousMatch (atFirstOfThree, supportedWorld samplePage) = Ok tt))
  /\ ((forall k : nat,
          currentIndex (fst (afterCalls k nextMatch
                               (atFirstOfThree, supportedWorld samplePage)))
          = Z.of_nat k mod 3
          /\ matches (fst (afterCalls k nextMatch
                             (atFirstOfThree, supportedWorld samplePage)))
             = sampleMatches)
      /\ currentIndex (fst (afterCalls 3 nextMatch
                              (atFirstOfThree, supportedWorld samplePage))) = 0
      /\ matches (fst (afterCalls 3 nextMatch (atFirstOfThree, supportedWorld samplePage)))
         = sampleMatches
      /\ (css_highlights (supportedWorld samplePage) <> None ->
          outcome (callN 3 nextMatch) (atFirstOfThree, supportedWorld samplePage) = Ok tt)
      /\ currentIndex (fst (exec_state previousMatch
                              (atFirstOfThree, supportedWorld samplePage))) = 2
      /\ matches (fst (exec_state previousMatch
                         (atFirstOfThree, supportedWorld samplePage)))
         = sampleMatches)
  /\ nextMatch (init, supportedWorld samplePage)
     = (Ok tt, (init, supportedWorld samplePage))
  /\ previousMatch (init, supportedWorld samplePage)
     = (Ok tt, (init, supportedWorld samplePage)).
Proof.
  split; [|split].
  - apply (proj1 navigation_is_cyclic atFirstOfThree (supportedWorld samplePage) 0);
      [cbn; lia | reflexivity].
  - apply (proj1 (proj2 navigation_is_cyclic) atFirstOfThree (supportedWorld samplePage));
      [cbn; lia | reflexivity].
  - apply (proj2 (proj2 navigation_is_cyclic) init (supportedWorld samplePage)). reflexivity.
Defined.

End HighlightManagerFacts.

(** ** The orchestrator: navigation *)

Section NavigationFacts.
Import SearchController.

Lemma with_highlightManager_same c :
  with_highlightManager (highlightManager c) c = c.
Proof. destruct c; reflexivity. Qed.

(** X14. For an integer [i] outside [0 <= i < totalMatches]: when the
    coordinator holds at least one match and a match-change handler is
    registered, [navigateToMatch(i)] returns normally and leaves the
    controller, with its coordinator (match sequence, current index,
    highlight handles), exactly as it was; the host sees one warning on the
    console and one call of the handler, with the unchanged current index
    and the total. *)
Theorem navigateToMatch_out_of_range
    (c : t) (w : World) (handler : nat) (i : Z) :
  (0 < length (HighlightManager.matches (highlightManager c)))%nat ->
  onMatchChangeCallback c = Some handler ->
  i < 0 \/ Z.of_nat (length (HighlightManager.matches (highlightManager c))) <= i ->
  navigateToMatch i (c, w) =
    (Ok tt,
     (c, set_trace
           (trace w ++
              [MatchChangeCalled handler
                 (HighlightManager.currentIndex (highlightManager c))
                 (Z.of_nat (length (HighlightManager.matches (highlightManager c))))])
           (set_console (console w ++ [WarnInvalidMatchIndex i]) w))).
Proof.
  intros Hn Hcb Hi.
  assert (Ho : HighlightManager.outOfRange i (highlightManager c) = true).
  { destruct (HighlightManager.outOfRange i (highlightManager c)) eqn:E; [reflexivity|].
    apply outOfRange_false in E. lia. }
  assert (Hhas : (0 <? length (HighlightManager.matches (highlightManager c)))%nat = true)
    by (apply Nat.ltb_lt; exact Hn).
  unfold navigateToMatch, notifyMatchChange, onManager, zoom, bind, this, gets, inWorld,
    HighlightManager.hasMatches, HighlightManager.getCurrentIndex,
    HighlightManager.getTotalMatches, zoom, gets.
  cbn [fst snd]. rewrite Hhas. cbn [negb fst snd].
  rewrite !with_highlightManager_same.
  rewrite (setCurrentMatch_rejected i _ w Ho). cbn [fst snd].
  rewrite !with_highlightManager_same, Hcb. cbn [fst snd].
  rewrite !with_highlightManager_same. reflexivity.
Qed.

(** X14 on the three sample matches, for the index 3. *)
Lemma navigateToMatch_out_of_range_witness :
  navigateToMatch 3 (controllerAtFirstOfThree, supportedWorld samplePage) =
    (Ok tt,
     (controllerAtFirstOfThree,
      set_trace [MatchChangeCalled 7 0 3]
        (set_console [WarnInvalidMatchIndex 3] (supportedWorld samplePage)))).
Proof.
  apply (navigateToMatch_out_of_range controllerAtFirstOfThree
           (supportedWorld samplePage) 7%nat 3);
    [cbn; lia | reflexivity | right; cbn; lia].
Defined.




End NavigationFacts.

(** ** The match finder, for every lawful host *)

Lemma length_substring (s : string) (n m : nat) :
  (n + m <= String.length s)%nat -> String.length (String.substring n m s) = m.
Proof.
  revert n m. induction s as [|c s IH]; intros n m H; cbn in *.
  - destruct n, m; cbn in *; try lia; reflexivity.
  - destruct n as [|n].
    + destruct m as [|m]; [reflexivity|]. cbn. rewrite (IH 0%nat m) by lia. reflexivity.
    + apply IH. lia.
Qed.

Section EngineFacts.
Context {host : RegExpHost} {lawful : RegExpLawful host}.
Import SearchEngine.

Lemma scan_found m s n i j e :
  RegExp.scan m s n i = Some (j, e) ->
  (i <= j < i + n)%nat /\ matchAt m s j = Some e.
Proof.
  revert i. induction n as [|n IH]; intros i H; cbn in H; [discriminate|].
  destruct (matchAt m s i) as [e'|] eqn:E.
  - inversion H; subst. split; [lia | exact E].
  - apply IH in H. destruct H as [H1 H2]. split; [lia | exact H2].
Qed.

(** A successful [exec] of a global RegExp: the match starts at or after
    [lastIndex], lies in the string, and [lastIndex] becomes its end. *)
Lemma exec_global_found re s m re' :
  RegExp.global re = true ->
  RegExp.exec re s = (Some m, re') ->
  exists e,
    (RegExp.lastIndex re <= RegExp.at_index m <= e)%nat
    /\ (e <= String.length s)%nat
    /\ RegExp.matched m = substring (RegExp.at_index m) e s
    /\ RegExp.lastIndex re' = e
    /\ RegExp.global re' = true.
Proof.
  intros Hg. unfold RegExp.exec. rewrite Hg.
  destruct (String.length s <? RegExp.lastIndex re)%nat eqn:Hlt; [discriminate|].
  apply Nat.ltb_ge in Hlt.
  destruct (RegExp.scan _ _ _ _) as [[i e]|] eqn:Hscan; [|discriminate].
  intros H; inversion H; subst; clear H. cbn.
  apply scan_found in Hscan. destruct Hscan as [Hi He].
  assert (Hil : (i <= String.length s)%nat) by lia.
  destruct (matchAt_bounds _ _ _ _ Hil He) as [H1 H2].
  exists e. repeat split; try lia; auto.
Qed.

Lemma exec_global_none re s re' :
  RegExp.global re = true ->
  RegExp.exec re s = (None, re') ->
  RegExp.global re' = true.
Proof.
  intros Hg. unfold RegExp.exec. rewrite Hg.
  destruct (String.length s <? RegExp.lastIndex re)%nat.
  - intros H; inversion H; subst. exact Hg.
  - destruct (RegExp.scan _ _ _ _) as [[i e]|]; [discriminate|].
    intros H; inversion H; subst. exact Hg.
Qed.

Lemma createMatchData_wellFormed t m i e :
  (RegExp.at_index m <= e)%nat -> (e <= String.length (textContent t))%nat ->
  RegExp.matched m = substring (RegExp.at_index m) e (textContent t) ->
  wellFormed (createMatchData t m i) /\ node (createMatchData t m i) = t.
Proof.
  intros H1 H2 Hm.
  assert (Hl : String.length (RegExp.matched m) = (e - RegExp.at_index m)%nat).
  { rewrite Hm. unfold substring. apply length_substring. lia. }
  unfold wellFormed, createMatchData. cbn. rewrite Hl.
  repeat split; try lia.
  rewrite Nat2Z.id.
  replace (Z.to_nat (Z.of_nat (RegExp.at_index m) + Z.of_nat (e - RegExp.at_index m)))
    with e by lia.
  exact Hm.
Qed.

(** The loop of [findMatchesInNode] finishes within its bound, and every
    match it pushes is well formed and belongs to the node. *)
Lemma execLoop_finishes fuel t re startIndex pushed :
  RegExp.global re = true ->
  (String.length (textContent t) + 2 <= fuel + RegExp.lastIndex re)%nat ->
  (1 <= fuel)%nat ->
  exists ms re',
    execLoop fuel t (textContent t) re startIndex pushed = Some (ms, re')
    /\ Forall wellFormed ms
    /\ RegExp.global re' = true.
Proof.
  revert re pushed. induction fuel as [|fuel IH]; intros re pushed Hg Hf H1; [lia|].
  cbn [execLoop].
  destruct (RegExp.exec re (textContent t)) as [[m|] re1] eqn:Hex.
  - destruct (exec_global_found _ _ _ _ Hg Hex) as (e & Hi & He & Hm & Hl & Hg1).
    destruct (createMatchData_wellFormed t m (startIndex + Z.of_nat pushed) e)
      as [Hwf _]; [lia | exact He | exact Hm |].
    set (re2 := if (RegExp.at_index m =? RegExp.lastIndex re1)%nat
                then RegExp.set_lastIndex (S (RegExp.lastIndex re1)) re1 else re1).
    assert (Hg2 : RegExp.global re2 = true).
    { subst re2. destruct (_ =? _)%nat; [destruct re1; exact Hg1 | exact Hg1]. }
    assert (Hl2 : (RegExp.lastIndex re < RegExp.lastIndex re2
                   /\ RegExp.lastIndex re2 <= String.length (textContent t) + 1)%nat).
    { subst re2. destruct (_ =? _)%nat eqn:Eq.
      - apply Nat.eqb_eq in Eq. cbn. lia.
      - apply Nat.eqb_neq in Eq. lia. }
    destruct (IH re2 (S pushed) Hg2) as (ms & re' & Hloop & Hall & Hg'); [lia | lia |].
    rewrite Hloop. exists (createMatchData t m (startIndex + Z.of_nat pushed) :: ms), re'.
    repeat split; auto.
  - exists [], re1. repeat split; [constructor | exact (exec_global_none _ _ _ Hg Hex)].
Qed.

Lemma findMatchesInNode_finishes t re startIndex :
  RegExp.global re = true ->
  exists ms re',
    findMatchesInNode t re startIndex = Some (ms, re')
    /\ Forall wellFormed ms
    /\ RegExp.global re' = true.
Proof.
  intros Hg. unfold findMatchesInNode.
  apply execLoop_finishes; [destruct re; exact Hg | cbn; lia | lia].
Qed.

Lemma nodeLoop_finishes nodes re acc :
  RegExp.global re = true -> Forall wellFormed acc ->
  exists ms, nodeLoop nodes re acc = Some ms /\ Forall wellFormed ms.
Proof.
  revert re acc. induction nodes as [|t nodes IH]; intros re acc Hg Hacc; cbn [nodeLoop].
  - eauto.
  - destruct (Z.of_nat (length acc) >=? MAX_MATCHES); [eauto|].
    destruct (findMatchesInNode_finishes t re (Z.of_nat (length acc)) Hg)
      as (ms & re' & Hf & Hall & Hg').
    rewrite Hf. apply IH; [exact Hg' | apply Forall_app; auto].
Qed.

Lemma new_global source flags re :
  RegExp.new source flags = inr re -> RegExp.global re = RegExp.hasFlag "g" flags.
Proof.
  unfold RegExp.new. destruct (compile source _); [discriminate|].
  intros H; inversion H; reflexivity.
Qed.

(** [search] always returns, and with a list of well-formed matches
    whose length is [totalCount]. *)
Lemma search_returns searchText options rootElement w :
  exists r w',
    search searchText options rootElement w = (Ok r, w')
    /\ Forall wellFormed (matches r)
    /\ totalCount r = Z.of_nat (length (matches r)).
Proof.
  unfold search, bind.
  destruct (match rootElement with Some r => ret r | None => gets body end w)
    as [r0 w0] eqn:Hroot.
  assert (exists root, r0 = Ok root) as [root ->].
  { destruct rootElement; inversion Hroot; eauto. }
  unfold performance_now.
  destruct (falsy searchText).
  { eexists _, _. split; [reflexivity|]. cbn. split; [constructor | reflexivity]. }
  unfold buildPattern, bind, emit, modify, console_log.
  set (pattern := if wholeWord options then _ else _).
  set (flags := if caseSensitive options then "g" else "gi").
  destruct (RegExp.new pattern flags) as [msg|re] eqn:Hnew; cbn.
  { eexists _, _. split; [reflexivity|]. cbn. split; [constructor | reflexivity]. }
  assert (Hg : RegExp.global re = true).
  { rewrite (new_global _ _ _ Hnew). subst flags.
    destruct (caseSensitive options); reflexivity. }
  destruct (nodeLoop_finishes (textNodes root) re [] Hg) as (ms & Hloop & Hall);
    [constructor|].
  rewrite Hloop. eexists _, _. split; [reflexivity|]. cbn. auto.
Qed.

(** What a search of a non-empty text leaves in the host: one RegExp
    constructed, at most one TreeWalker created, timers and highlights
    untouched. *)
Lemma search_effects searchText options rootElement w :
  falsy searchText = false ->
  exists r w' source flags rest,
    search searchText options rootElement w = (Ok r, w')
    /\ css_highlights w' = css_highlights w
    /\ timers w' = timers w
    /\ trace w' = trace w ++ RegExpConstructed source flags :: rest
    /\ (rest = [] \/ rest = [TreeWalkerCreated]).
Proof.
  intros Hq. unfold search, bind.
  destruct (match rootElement with Some r => ret r | None => gets body end w)
    as [r0 w0] eqn:Hroot.
  assert (exists root, r0 = Ok root /\ w0 = w) as (root & -> & ->).
  { destruct rootElement; inversion Hroot; eauto. }
  unfold performance_now. rewrite Hq.
  unfold buildPattern, bind, emit, modify, console_log.
  set (pattern := if wholeWord options then _ else _).
  set (flags := if caseSensitive options then "g" else "gi").
  destruct (RegExp.new pattern flags) as [msg|re] eqn:Hnew; cbn.
  { eexists _, _, pattern, flags, []. split; [reflexivity|]. cbn. auto. }
  assert (Hg : RegExp.global re = true).
  { rewrite (new_global _ _ _ Hnew). subst flags.
    destruct (caseSensitive options); reflexivity. }
  destruct (nodeLoop_finishes (textNodes root) re [] Hg) as (ms & Hloop & Hall);
    [constructor|].
  rewrite Hloop. eexists _, _, pattern, flags, [TreeWalkerCreated].
  split; [reflexivity|]. cbn. rewrite <- app_assoc. auto.
Qed.

End EngineFacts.

(** ** The concrete host is lawful *)

Lemma get_Some_lt (s : string) (i : nat) (c : ascii) :
  String.get i s = Some c -> (i < String.length s)%nat.
Proof.
  revert i. induction s as [|d s IH]; intros i H; cbn in *; [discriminate|].
  destruct i as [|i]; [lia|]. apply IH in H. lia.
Qed.

Section MiniRegExpFacts.
Import MiniRegExp.

Lemma ahead_refl back a : ahead back a a.
Proof. destruct back; cbn; lia. Qed.

Lemma ahead_trans back a b c : ahead back a b -> ahead back b c -> ahead back a c.
Proof. destruct back; cbn; lia. Qed.

Lemma charAt_within s back i c j :
  (i <= String.length s)%nat -> charAt s back i = Some (c, j) ->
  ahead back i j /\ (j <= String.length s)%nat.
Proof.
  unfold charAt. intros Hi H. destruct back.
  - destruct i as [|i']; [discriminate|].
    destruct (String.get i' s); inversion H; subst. cbn. lia.
  - destruct (String.get i s) eqn:E; inversion H; subst.
    apply get_Some_lt in E. cbn. lia.
Qed.

Lemma step_within s p back k : within s back k (fun x => step s p back x k).
Proof.
  intros x z Hx H. unfold step in H.
  destruct (charAt s back (fst x)) as [[c j]|] eqn:E; [|discriminate].
  destruct (p c); [|discriminate].
  destruct (charAt_within s back (fst x) c j Hx E) as [Ha Hj].
  exists (j, snd x). auto.
Qed.

Lemma repeatStep_within s back m greedy first count k next min max :
  (forall d, within s back d (fun x => m x d)) ->
  (forall min max, within s back k (next min max)) ->
  within s back k (repeatStep m greedy first count k next min max).
Proof.
  intros Hm Hnext x z Hx H. unfold repeatStep in H.
  assert (Hk : k x = Some z ->
               exists y, ahead back (fst x) (fst y) /\ (fst y <= String.length s)%nat
                         /\ k y = Some z).
  { intros Hkx. exists x. split; [apply ahead_refl | auto]. }
  assert (Hd : forall d,
             (forall y, d y = Some z -> next (N.pred min) (option_map N.pred max) y = Some z) ->
             m (fst x, reset first count (snd x)) d = Some z ->
             exists y, ahead back (fst x) (fst y) /\ (fst y <= String.length s)%nat
                       /\ k y = Some z).
  { intros d Hdn Hmd.
    destruct (Hm d (fst x, reset first count (snd x)) z Hx Hmd) as (y & Ha & Hy & Hdy).
    destruct (Hnext _ _ y z Hy (Hdn y Hdy)) as (y' & Ha' & Hy' & Hky).
    exists y'. split; [exact (ahead_trans back _ _ _ Ha Ha') | auto]. }
  assert (Hdn : forall y,
             (if (min =? 0)%N && (fst y =? fst x)%nat then None
              else next (N.pred min) (option_map N.pred max) y) = Some z ->
             next (N.pred min) (option_map N.pred max) y = Some z).
  { intros y Hy. destruct ((min =? 0)%N && (fst y =? fst x)%nat); [discriminate | exact Hy]. }
  destruct max as [[|max]|]; [exact (Hk H) | |].
  all: destruct (negb (min =? 0)%N); [exact (Hd _ Hdn H)|].
  all: destruct greedy.
  all: match type of H with
       | match ?a with _ => _ end = _ => destruct a as [z'|] eqn:E
       end.
  all: try (inversion H; subst z'; clear H).
  all: first [exact (Hd _ Hdn E) | exact (Hd _ Hdn H)
             | exists x; split; [apply ahead_refl | split; [exact Hx | assumption]]].
Qed.

Lemma rounds_within s back m greedy first count k depth :
  (forall d, within s back d (fun x => m x d)) ->
  forall next,
    (forall min max, within s back k (next min max)) ->
    forall min max, within s back k (rounds m greedy first count k depth next min max).
Proof.
  intros Hm. induction depth as [|depth IH]; intros next Hnext min max.
  - exact (repeatStep_within s back m greedy first count k next min max Hm Hnext).
  - cbn [rounds]. apply IH. intros min' max'. apply IH. exact Hnext.
Qed.

(** Whatever [run] returns was returned by the continuation, called
    within the string at a position ahead of the start. *)
Lemma run_within s r :
  forall fl back k, within s back k (fun x => run s r fl back x k).
Proof.
  induction r as [|c|c| |neg items|a|behind negative r IH|r1 IH1 r2 IH2|r1 IH1 r2 IH2
                 |r IH min max greedy first count|index r IH|add remove r IH|groups|name];
    intros fl back k; cbn [run].
  - intros x z Hx H. exists x. split; [apply ahead_refl | auto].
  - apply step_within.
  - apply step_within.
  - apply step_within.
  - apply step_within.
  - intros x z Hx H. destruct (holdsIn s (multiline fl) a (fst x)); [|discriminate].
    exists x. split; [apply ahead_refl | auto].
  - intros x z Hx H.
    destruct (run s r fl behind x Some) as [y|], negative; try discriminate.
    + exists (fst x, snd y). split; [apply ahead_refl | auto].
    + exists x. split; [apply ahead_refl | auto].
  - intros x z Hx H. destruct back.
    + destruct (IH2 fl true _ x z Hx H) as (y & Ha & Hy & Hr).
      destruct (IH1 fl true k y z Hy Hr) as (y' & Ha' & Hy' & Hk).
      exists y'. split; [exact (ahead_trans true _ _ _ Ha Ha') | auto].
    + destruct (IH1 fl false _ x z Hx H) as (y & Ha & Hy & Hr).
      destruct (IH2 fl false k y z Hy Hr) as (y' & Ha' & Hy' & Hk).
      exists y'. split; [exact (ahead_trans false _ _ _ Ha Ha') | auto].
  - intros x z Hx H. destruct (run s r1 fl back x k) as [z1|] eqn:E1.
    + inversion H; subst. exact (IH1 fl back k x z Hx E1).
    + exact (IH2 fl back k x z Hx H).
  - apply rounds_within.
    + intros d. apply IH.
    + intros min' max' x z _ H. discriminate H.
  - intros x z Hx H.
    destruct (IH fl back _ x z Hx H) as (y & Ha & Hy & Hk).
    destruct index as [n|].
    + eexists (fst y, _). split; [exact Ha | split; [exact Hy | exact Hk]].
    + exists y. auto.
  - apply IH.
  - intros x z Hx H. destruct (captured (snd x) groups) as [[a b]|].
    + destruct back.
      * destruct (fst x <? b - a)%nat eqn:E; [discriminate|].
        destruct (sameText s (ignoreCase fl) a (fst x - (b - a)) (b - a)); [|discriminate].
        eexists (_, snd x). split; [|split; [|exact H]]; cbn; lia.
      * destruct (String.length s <? fst x + (b - a))%nat eqn:E; [discriminate|].
        apply Nat.ltb_ge in E.
        destruct (sameText s (ignoreCase fl) a (fst x) (b - a)); [|discriminate].
        eexists (_, snd x). split; [|split; [|exact H]]; cbn; lia.
    + exists x. split; [apply ahead_refl | auto].
  - intros x z Hx H. discriminate H.
Qed.

Lemma mini_lawful : RegExpLawful MiniRegExp.host.
Proof.
  intros m s i e Hi H. cbn in H. unfold matchAt in H.
  destruct (run s (tree m) (flags m) false (i, noCaptures) Some) as [z|] eqn:E;
    [|discriminate].
  inversion H; subst e.
  destruct (run_within s (tree m) (flags m) false Some (i, noCaptures) z Hi E)
    as (y & Ha & Hy & Hk).
  inversion Hk; subst. cbn in Ha. cbn [fst] in *. lia.
Qed.

(** *** Escaped literals *)

Import SearchEngine.

Lemma plain_char c :
  isSpecial c = false ->
  Ascii.eqb c backslash = false
  /\ (Ascii.eqb c "|" || Ascii.eqb c ")") = false
  /\ startsQuantifier [c] = false
  /\ forall ctx sub g rest, parseAtom ctx sub g (c :: rest) = POk (Chr c, g, Yes) rest.
Proof.
  destruct c as [[] [] [] [] [] [] [] []]; intros H; try discriminate H;
    repeat split; reflexivity.
Qed.

Lemma special_char c :
  isSpecial c = true ->
  forall ctx g rest, parseAtomEscape ctx g (c :: rest) = POk (Chr c, g, Yes) rest.
Proof.
  destruct c as [[] [] [] [] [] [] [] []]; intros H; try discriminate H; reflexivity.
Qed.

Lemma chars_app (a b : string) : chars (a +:+ b) = chars a ++ chars b.
Proof.
  induction a as [|c a IH]; [reflexivity|].
  unfold chars in *. change (String c a +:+ b) with (String c (a +:+ b)).
  cbn. rewrite IH. reflexivity.
Qed.

Lemma startsQuantifier_escaped q tail :
  startsQuantifier tail = false ->
  startsQuantifier (chars (escapeRegex q) ++ tail) = false.
Proof.
  intros Ht. destruct q as [|c q]; [exact Ht|].
  cbn [escapeRegex]. destruct (isSpecial c) eqn:E; [reflexivity|].
  destruct (plain_char c E) as (_ & _ & Hq & _). exact Hq.
Qed.

Lemma parseQuantifier_none rest :
  startsQuantifier rest = false -> parseQuantifier rest = POk None rest.
Proof.
  destruct rest as [|d rest]; [reflexivity|].
  destruct d as [[] [] [] [] [] [] [] []]; intros H; try discriminate H; reflexivity.
Qed.

Lemma parseTerm_plain ctx sub g c rest :
  isSpecial c = false -> startsQuantifier rest = false ->
  parseTerm ctx sub g (c :: rest) = POk (Chr c, g) rest.
Proof.
  intros Hc Hr. destruct (plain_char c Hc) as (_ & _ & _ & Ha).
  unfold parseTerm. rewrite Ha, (parseQuantifier_none rest Hr). reflexivity.
Qed.

Lemma parseTerm_escaped ctx sub g c rest :
  isSpecial c = true -> startsQuantifier rest = false ->
  parseTerm ctx sub g (backslash :: c :: rest) = POk (Chr c, g) rest.
Proof.
  intros Hc Hr. unfold parseTerm, parseAtom.
  change (Ascii.eqb backslash backslash) with true. cbv iota.
  rewrite (special_char c Hc), (parseQuantifier_none rest Hr). reflexivity.
Qed.

Lemma parseAlternative_literal ctx sub g q :
  forall fuel tail,
    startsQuantifier tail = false ->
    parseAlternative ctx sub (String.length q + fuel) g (chars (escapeRegex q) ++ tail)
    = match parseAlternative ctx sub fuel g tail with
      | POk (r, g') rest => POk (literalSeq q r, g') rest
      | PError msg => PError msg
      end.
Proof.
  induction q as [|c q IH]; intros fuel tail Ht.
  - cbn. destruct (parseAlternative ctx sub fuel g tail) as [[r g'] rest|]; reflexivity.
  - pose proof (startsQuantifier_escaped q tail Ht) as Hq.
    cbn [escapeRegex String.length Nat.add]. destruct (isSpecial c) eqn:E.
    + change (chars (String backslash (String c (escapeRegex q))) ++ tail)
        with (backslash :: c :: (chars (escapeRegex q) ++ tail)).
      cbn [parseAlternative].
      change (Ascii.eqb backslash "|" || Ascii.eqb backslash ")") with false.
      cbv iota. rewrite (parseTerm_escaped ctx sub g c _ E Hq), IH by exact Ht.
      destruct (parseAlternative ctx sub fuel g tail) as [[r g'] rest|]; reflexivity.
    + change (chars (String c (escapeRegex q)) ++ tail)
        with (c :: (chars (escapeRegex q) ++ tail)).
      cbn [parseAlternative]. destruct (plain_char c E) as (_ & Hb & _ & _).
      rewrite Hb, (parseTerm_plain ctx sub g c _ E Hq), IH by exact Ht.
      destruct (parseAlternative ctx sub fuel g tail) as [[r g'] rest|]; reflexivity.
Qed.

Lemma length_escaped q : (String.length q <= length (chars (escapeRegex q)))%nat.
Proof.
  unfold chars. induction q as [|c q IH]; [cbn; lia|].
  cbn [escapeRegex String.length]. destruct (isSpecial c);
    cbn [String.list_ascii_of_string length]; lia.
Qed.

Lemma parseAlternatives_single ctx sub fuel outer g cs r g' :
  parseAlternative ctx sub (length cs) g cs = POk (r, g') [] ->
  parseAlternatives ctx sub fuel outer g cs
  = POk (r, {| started := started g'; scope := scope g' ++ outer; named := named g' |}) [].
Proof. intros H. destruct fuel; cbn [parseAlternatives]; rewrite H; reflexivity. Qed.

(** A source that is one alternative without groups parses to its
    tree. *)
Lemma parse_tree source r :
  (forall ctx sub,
      parseAlternative ctx sub (length (chars source)) noGroups (chars source)
      = POk (r, noGroups) []) ->
  resolve [] r = Some r ->
  parse source = Tree r.
Proof.
  intros H Hr. unfold parse. fold (chars source). cbn [parseDisjunction].
  rewrite (parseAlternatives_single _ _ _ _ _ _ _ _ (H _ _)). cbn. rewrite Hr. reflexivity.
Qed.

Lemma parseAlternative_nil ctx sub fuel g : parseAlternative ctx sub fuel g [] = POk (Empty, g) [].
Proof. destruct fuel; reflexivity. Qed.

Lemma resolve_literalSeq names q r :
  resolve names r = Some r -> resolve names (literalSeq q r) = Some (literalSeq q r).
Proof.
  intros Hr. induction q as [|c q IH]; [exact Hr|].
  cbn [literalSeq resolve]. rewrite IH. reflexivity.
Qed.

Lemma parse_escaped q : parse (escapeRegex q) = Tree (literalSeq q Empty).
Proof.
  apply parse_tree; [|apply resolve_literalSeq; reflexivity].
  intros ctx sub.
  pose proof (length_escaped q) as Hl.
  replace (length (chars (escapeRegex q)))
    with (String.length q + (length (chars (escapeRegex q)) - String.length q))%nat at 1 by lia.
  rewrite <- (app_nil_r (chars (escapeRegex q))).
  rewrite parseAlternative_literal by reflexivity.
  rewrite parseAlternative_nil. reflexivity.
Qed.

Lemma parseAlternative_cons ctx sub fuel g c cs :
  (Ascii.eqb c "|" || Ascii.eqb c ")") = false ->
  parseAlternative ctx sub (S fuel) g (c :: cs)
  = match parseTerm ctx sub g (c :: cs) with
    | POk (r, g') rest =>
        match parseAlternative ctx sub fuel g' rest with
        | POk (r', g'') rest' => POk (Seq r r', g'') rest'
        | PError msg => PError msg
        end
    | PError msg => PError msg
    end.
Proof. intros H. cbn [parseAlternative]. rewrite H. reflexivity. Qed.

Lemma parseTerm_wordBoundary ctx sub g rest :
  parseTerm ctx sub g (backslash :: "b"%char :: rest) = POk (Assert WordBoundary, g) rest.
Proof. reflexivity. Qed.

Lemma parseAlternative_wholeWord ctx sub q fuel :
  (String.length q + 2 <= fuel)%nat ->
  parseAlternative ctx sub fuel noGroups
    (backslash :: "b"%char :: chars (escapeRegex q) ++ [backslash; "b"%char])
  = POk (Seq (Assert WordBoundary) (literalSeq q (Seq (Assert WordBoundary) Empty)),
         noGroups) [].
Proof.
  intros Hf. destruct fuel as [|fuel]; [lia|].
  assert (Ht : startsQuantifier [backslash; "b"%char] = false) by reflexivity.
  rewrite parseAlternative_cons by reflexivity.
  rewrite parseTerm_wordBoundary.
  replace fuel with (String.length q + S (fuel - String.length q - 1))%nat by lia.
  rewrite parseAlternative_literal by exact Ht.
  rewrite parseAlternative_cons by reflexivity.
  rewrite parseTerm_wordBoundary.
  rewrite parseAlternative_nil. reflexivity.
Qed.

Lemma parse_escaped_wholeWord q :
  parse (wholeWordSource (escapeRegex q))
  = Tree (Seq (Assert WordBoundary) (literalSeq q (Seq (Assert WordBoundary) Empty))).
Proof.
  apply parse_tree.
  - intros ctx sub. unfold wholeWordSource.
    rewrite chars_app.
    change (chars (String backslash (String "b" (escapeRegex q))))
      with (backslash :: "b"%char :: chars (escapeRegex q)).
    change (chars (String backslash "b")) with [backslash; "b"%char].
    apply parseAlternative_wholeWord.
    pose proof (length_escaped q) as Hl.
    cbn [app length]. rewrite length_app. cbn [length]. lia.
  - cbn [resolve]. rewrite resolve_literalSeq by reflexivity. reflexivity.
Qed.

Lemma run_literalSeq s fl q r :
  forall x k,
    run s (literalSeq q r) fl false x k
    = if occursAt (ignoreCase fl) q s (fst x)
      then run s r fl false ((fst x + String.length q)%nat, snd x) k else None.
Proof.
  induction q as [|c q IH]; intros [i caps] k.
  - cbn. rewrite Nat.add_0_r. reflexivity.
  - cbn [literalSeq run occursAt String.length fst snd]. unfold step, charAt. cbn [fst snd].
    destruct (String.get i s) as [d|]; [|reflexivity].
    destruct (Ascii.eqb _ _); [|reflexivity].
    cbn [andb]. rewrite IH. cbn [fst snd]. rewrite Nat.add_succ_r. reflexivity.
Qed.

End MiniRegExpFacts.

(** ** The match finder: the claims *)

Section FinderClaims.
Import SearchEngine.

(** C5, as the code has it.  For the empty text, whatever the host, the
    options and the root, [search] returns the empty result with
    [searchTime = 0]; the host only sees the clock read once: no RegExp is
    constructed and no TreeWalker created.  (The finder does not trim: a
    text of white space is searched like any other.) *)
Theorem empty_text_returns_empty
    {host : RegExpHost} (options : SearchOptions) (rootElement : option HTMLElement)
    (w : World) :
  search EmptyString options rootElement w =
    (Ok {| matches := []; totalCount := 0; searchTime := 0 |},
     set_clockReads (S (clockReads w)) w).
Proof. destruct rootElement; reflexivity. Qed.

(** C5 fails as stated: the text of one space is empty after trimming,
    yet the finder compiles it and finds the space of "a b". *)
Lemma whitespace_text_is_searched :
  trim " " = EmptyString
  /\ outcome (search (host := MiniRegExp.host) " " (literalOptions false false) None)
       (supportedWorld (page "a b"))
     <> Ok {| matches := []; totalCount := 0; searchTime := 0 |}
  /\ spans (outcome (search (host := MiniRegExp.host) " " (literalOptions false false) None)
              (supportedWorld (page "a b")))
     = Some [(" ", 1, 2)]
  /\ trace (exec_state (search (host := MiniRegExp.host) " " (literalOptions false false) None)
              (supportedWorld (page "a b")))
     = [RegExpConstructed " " "gi"; TreeWalkerCreated].
Proof.
  split; [reflexivity|]. split; [|split; reflexivity].
  intros H. apply (f_equal spans) in H. discriminate H.
Qed.

(** C6, as the code has it.  With a lawful host [search] always returns,
    and every match it returns satisfies
    [0 <= startOffset <= endOffset <= length] of the text of its node,
    [endOffset - startOffset] is the length of the matched text, and the
    first inequality is strict when the matched text is not empty. *)
Theorem match_offsets_within_node
    {host : RegExpHost} {lawful : RegExpLawful host}
    (searchText : string) (options : SearchOptions)
    (rootElement : option HTMLElement) (w : World) :
  exists r,
    outcome (search searchText options rootElement) w = Ok r
    /\ Forall (fun md =>
                 wellFormed md
                 /\ (text md <> EmptyString -> startOffset md < endOffset md))
              (matches r).
Proof.
  destruct (search_returns searchText options rootElement w) as (r & w' & Hs & Hall & _).
  exists r. unfold outcome. rewrite Hs. split; [reflexivity|].
  eapply Forall_impl; [exact Hall|]. intros md Hwf. split; [exact Hwf|].
  intros Hne. destruct Hwf as (_ & _ & Hlen & _).
  destruct (text md); [congruence | cbn in Hlen; lia].
Qed.

(** C6 on the pattern [a*] and the text "b". *)
Lemma match_offsets_within_node_witness :
  exists r,
    outcome (search (host := MiniRegExp.host) "a*" regexOptions None)
      (supportedWorld (page "b")) = Ok r
    /\ Forall (fun md =>
                 wellFormed md
                 /\ (text md <> EmptyString -> startOffset md < endOffset md))
              (matches r).
Proof.
  exact (match_offsets_within_node (host := MiniRegExp.host) (lawful := mini_lawful)
           "a*" regexOptions None (supportedWorld (page "b"))).
Defined.

(** C6 fails as stated: the pattern [a*] matches the empty string at the
    start of "b", a match with [startOffset = endOffset]. *)
Lemma zero_width_match_is_not_strict :
  exists r md,
    outcome (search (host := MiniRegExp.host) "a*" regexOptions None)
      (supportedWorld (page "b")) = Ok r
    /\ In md (matches r)
    /\ ~ strictOffsets md.
Proof.
  eexists _, _. split; [reflexivity|]. split; [left; reflexivity|].
  unfold strictOffsets. cbn. lia.
Qed.

(** C7. With [isRegex = false], whatever the other two options, the
    pattern [buildPattern] makes of a query compiles, and it matches at a
    position exactly when the characters of the query stand there (up to
    case unless [caseSensitive]; between two word boundaries with
    [wholeWord]), the match being as long as the query: no character of
    the query acts as a metacharacter.  Searching "a.b" in the text
    "a.b and axb" returns, for the four combinations of the other
    options, the one match "a.b" at offsets 0 to 3, and not "axb". *)
Theorem literal_queries_match_literally :
  (forall (q : string) (caseSensitive wholeWord : bool) (w : World),
      exists re,
        outcome (buildPattern (host := MiniRegExp.host) q
                   (literalOptions caseSensitive wholeWord)) w = Ok (Some re)
        /\ RegExp.global re = true
        /\ forall (s : string) (i : nat),
             matchAt (RegExp.matcher re) s i
             = if literalAt caseSensitive wholeWord q s i
               then Some (i + String.length q)%nat else None)
  /\ (forall caseSensitive wholeWord : bool,
        spans (outcome (search (host := MiniRegExp.host) "a.b"
                          (literalOptions caseSensitive wholeWord) None)
                 (supportedWorld (page "a.b and axb")))
        = Some [("a.b", 0, 3)]).
Proof.
  split.
  - intros q cs ww w.
    unfold outcome, buildPattern, bind, emit, modify, literalOptions, RegExp.new.
    cbn [isRegex caseSensitive wholeWord negb compile MiniRegExp.host].
    unfold MiniRegExp.compile.
    destruct ww.
    + fold (wholeWordSource (escapeRegex q)). rewrite parse_escaped_wholeWord.
      destruct cs; (eexists; split; [reflexivity|]; split; [reflexivity|]).
      all: intros s i; cbn [RegExp.matcher matchAt MiniRegExp.host].
      all: unfold MiniRegExp.matchAt.
      all: cbn [MiniRegExp.tree MiniRegExp.flags MiniRegExp.run MiniRegExp.holdsIn fst snd].
      all: unfold literalAt; cbn [negb].
      all: destruct (MiniRegExp.holds s MiniRegExp.WordBoundary i); [|reflexivity].
      all: cbn [andb]; rewrite run_literalSeq; cbn [fst snd MiniRegExp.ignoreCase].
      all: try change (MiniRegExp.hasFlag "i" "gi") with true.
      all: try change (MiniRegExp.hasFlag "i" "g") with false.
      all: match goal with
           | |- context [occursAt ?ic ?a ?b ?c] => destruct (occursAt ic a b c)
           end; [|reflexivity].
      all: cbn [andb MiniRegExp.run MiniRegExp.holdsIn fst snd].
      all: destruct (MiniRegExp.holds s MiniRegExp.WordBoundary (i + String.length q));
        reflexivity.
    + rewrite parse_escaped.
      destruct cs; (eexists; split; [reflexivity|]; split; [reflexivity|]).
      all: intros s i; cbn [RegExp.matcher matchAt MiniRegExp.host].
      all: unfold MiniRegExp.matchAt.
      all: cbn [MiniRegExp.tree MiniRegExp.flags]; unfold literalAt; cbn [negb].
      all: rewrite run_literalSeq; cbn [fst snd MiniRegExp.ignoreCase MiniRegExp.run].
      all: try change (MiniRegExp.hasFlag "i" "gi") with true.
      all: try change (MiniRegExp.hasFlag "i" "g") with false.
      all: match goal with
           | |- context [if ?b then _ else None] => destruct b
           end; reflexivity.
  - intros [] []; reflexivity.
Qed.

(** The count [search] reports is the length of the list it returns. *)
Lemma totalCount_is_length
    {host : RegExpHost} {lawful : RegExpLawful host}
    (searchText : string) (options : SearchOptions)
    (rootElement : option HTMLElement) (w : World) :
  exists r,
    outcome (search searchText options rootElement) w = Ok r
    /\ totalCount r = Z.of_nat (length (matches r)).
Proof.
  destruct (search_returns searchText options rootElement w) as (r & w' & Hs & _ & Ht).
  exists r. unfold outcome. rewrite Hs. auto.
Qed.

(** C2. One text node with 10,050 letters a, searched for "a": [search]
    returns 10,050 matches and reports [totalCount = 10050], more than
    [MAX_MATCHES]; the ceiling is only looked at between two text nodes. *)
Theorem one_node_exceeds_MAX_MATCHES :
  counts (outcome (search (host := MiniRegExp.host) "a" (literalOptions true false) None)
            (supportedWorld (page (letters (Z.to_nat 10050)))))
  = Some (10050, 10050)
  /\ MAX_MATCHES < 10050.
Proof. split; [vm_compute; reflexivity | reflexivity]. Qed.

(** The same 10,050 occurrences, one per text node: the loop stops at
    10,000 matches. *)
Lemma one_match_per_node_stops_at_MAX_MATCHES :
  counts (outcome (search (host := MiniRegExp.host) "a" (literalOptions true false) None)
            (supportedWorld (pageOfSpans (Z.to_nat 10050))))
  = Some (10000, 10000).
Proof. vm_compute. reflexivity. Qed.

(** C8 fails as stated: the unterminated group of 1001 characters fails
    to compile, and [validatePattern] rejects it with the message of the
    length check, which is not the message of the compiler: the length is
    checked first, and a pattern that is too long is never compiled. *)
Lemma long_invalid_pattern_gets_length_message :
  (1000 < String.length longUnterminated)%nat
  /\ (exists msg,
        compile (RegExpHost := MiniRegExp.host) longUnterminated EmptyString = inl msg
        /\ msg <> "Pattern too long (max 1000 characters)"
        /\ validatePattern (host := MiniRegExp.host) longUnterminated
           <> Ok {| isValid := false; error := Some msg |})
  /\ validatePattern (host := MiniRegExp.host) longUnterminated
     = Ok {| isValid := false; error := Some "Pattern too long (max 1000 characters)" |}.
Proof.
  assert (Hv : validatePattern (host := MiniRegExp.host) longUnterminated
               = Ok {| isValid := false;
                       error := Some "Pattern too long (max 1000 characters)" |})
    by (vm_compute; reflexivity).
  split; [vm_compute; lia|]. split; [|exact Hv].
  destruct (compile (RegExpHost := MiniRegExp.host) longUnterminated EmptyString)
    as [msg|m] eqn:E; [|vm_compute in E; discriminate E].
  exists msg. split; [reflexivity|].
  assert (Hm : String.get 0 msg = Some "I"%char).
  { vm_compute in E. inversion E. reflexivity. }
  split.
  - intros ->. discriminate Hm.
  - rewrite Hv. intros H. inversion H; subst msg. discriminate Hm.
Qed.

(** C8, as the code has it.  Every pattern longer than 1000 characters is
    rejected with the message of the length check, whether it compiles or
    not; every pattern of at most 1000 characters that the host fails to
    compile is rejected with the message of the host's error; with the
    concrete host the unterminated group [(abc] is rejected with its
    message, and [^[a-z]+$] is accepted. *)
Theorem validatePattern_rejects_and_accepts :
  (forall (host : RegExpHost) (pattern : string),
      (1000 < String.length pattern)%nat ->
      validatePattern pattern
      = Ok {| isValid := false;
              error := Some "Pattern too long (max 1000 characters)" |})
  /\ (forall (host : RegExpHost) (pattern msg : string),
      (String.length pattern <= 1000)%nat ->
      compile pattern EmptyString = inl msg ->
      validatePattern pattern = Ok {| isValid := false; error := Some msg |})
  /\ validatePattern (host := MiniRegExp.host) "(abc"
     = Ok {| isValid := false;
             error := Some "Invalid regular expression: /(abc/: Unterminated group" |}
  /\ validatePattern (host := MiniRegExp.host) "^[a-z]+$"
     = Ok {| isValid := true; error := None |}.
Proof.
  split; [|split; [|split]].
  - intros host pattern Hlen. unfold validatePattern.
    destruct (Z.of_nat (String.length pattern) >? 1000) eqn:E; [reflexivity|].
    rewrite Z.gtb_ltb, Z.ltb_ge in E. lia.
  - intros host pattern msg Hlen Hc. unfold validatePattern.
    destruct (Z.of_nat (String.length pattern) >? 1000) eqn:E.
    + rewrite Z.gtb_ltb, Z.ltb_lt in E. lia.
    + unfold RegExp.new. rewrite Hc. reflexivity.
  - vm_compute. reflexivity.
  - vm_compute. reflexivity.
Qed.

(** C8 on a pattern of 1001 letters and on [(abc]. *)
Lemma validatePattern_rejects_and_accepts_witness :
  validatePattern (host := MiniRegExp.host) (letters 1001)
  = Ok {| isValid := false; error := Some "Pattern too long (max 1000 characters)" |}
  /\ validatePattern (host := MiniRegExp.host) "(abc"
     = Ok {| isValid := false;
             error := Some "Invalid regular expression: /(abc/: Unterminated group" |}.
Proof.
  split.
  - apply (proj1 validatePattern_rejects_and_accepts MiniRegExp.host (letters 1001)).
    vm_compute. lia.
  - apply (proj1 (proj2 validatePattern_rejects_and_accepts) MiniRegExp.host "(abc").
    + vm_compute. lia.
    + reflexivity.
Defined.

End FinderClaims.

(** ** The orchestrator: debouncing *)

Section MonadFacts.
Context {S A B : Type}.
Lemma bind_ok (m : M S A) (k : A -> M S B) s a s' :
  m s = (Ok a, s') -> bind m k s = k a s'.
Proof. unfold bind. intros ->. reflexivity. Qed.
Lemma bind_gets (f : S -> A) (k : A -> M S B) s : bind (gets f) k s = k (f s) s.
Proof. reflexivity. Qed.
Lemma bind_ret (a : A) (k : A -> M S B) s : bind (ret a) k s = k a s.
Proof. reflexivity. Qed.
End MonadFacts.
Lemma bind_modify {S B} (f : S -> S) (k : unit -> M S B) s : bind (modify f) k s = k tt (f s).
Proof. reflexivity. Qed.

Section ControllerFacts.
Context {host : RegExpHost} {lawful : RegExpLawful host}.
Import SearchController.

Lemma onManager_eq {A} (m : M HighlightManager.St A) c w r h' w' :
  m (highlightManager c, w) = (r, (h', w')) ->
  onManager m (c, w) = (r, (with_highlightManager h' c, w')).
Proof. unfold onManager, zoom. cbn [fst snd]. intros ->. reflexivity. Qed.

Lemma inWorld_eq {A} (m : M World A) c w r w' :
  m w = (r, w') -> inWorld m (c, w) = (r, (c, w')).
Proof. unfold inWorld, zoom. cbn [fst snd]. intros ->. reflexivity. Qed.

Lemma tracked_filter c w id :
  timersTracked (c, w) -> searchDebounceTimer c = Some id ->
  List.filter (fun t => negb (fst t =? id)%nat) (timers w) = [].
Proof.
  unfold timersTracked. cbn [fst snd]. intros Ht Hid.
  induction Ht as [|t ts Hh Ht IH]; [reflexivity|].
  rewrite Hid in Hh. inversion Hh; subst.
  cbn [List.filter]. rewrite Nat.eqb_refl. cbn. exact IH.
Qed.

Lemma tracked_none c w :
  timersTracked (c, w) -> searchDebounceTimer c = None -> timers w = [].
Proof.
  unfold timersTracked. cbn [fst snd]. intros Ht Hid.
  destruct Ht as [|t ts Hh Ht]; [reflexivity|]. congruence.
Qed.

(** A call of [search] with a query that is not empty: whatever timer was
    pending is cleared and the new one is the only pending timer. *)
Lemma search_arms_timer c w query options debounceMs :
  timersTracked (c, w) -> falsy (trim query) = false ->
  exists c' w',
    search query options debounceMs (c, w) = (Ok (Pending (nextPromiseId w)), (c', w'))
    /\ timers w' = [(nextTimerId w,
                     (debounceOf debounceMs,
                      DebouncedSearch (trim query) options (nextPromiseId w)))]
    /\ searchDebounceTimer c' = Some (nextTimerId w)
    /\ trace w' = trace w
    /\ onSearchCompleteCallback c' = onSearchCompleteCallback c.
Proof.
  intros Ht Hq. unfold search. rewrite Hq.
  destruct (searchDebounceTimer c) as [id|] eqn:Hid.
  - pose proof (tracked_filter c w id Ht Hid) as Hf.
    destruct c, w. cbn in *. subst. 
    unfold bind, inWorld, zoom, this, gets, clearTimeout, modify, new_Promise, setTimeout,
      set_searchDebounceTimer; cbn. rewrite Hf. cbn.
    eexists _, _. split; [reflexivity|]. cbn. auto.
  - pose proof (tracked_none c w Ht Hid) as Hf.
    destruct c, w. cbn in *. subst.
    unfold bind, inWorld, zoom, this, gets, clearTimeout, modify, new_Promise, setTimeout,
      set_searchDebounceTimer; cbn.
    eexists _, _. split; [reflexivity|]. cbn. auto.
Qed.

(** During a burst of calls nothing reaches the trace; the timer of the
    last call is the only one left pending. *)
Lemma searchAll_arms_last earlier :
  forall last c w p0,
    timersTracked (c, w) ->
    Forall (fun sc => falsy (trim (callQuery sc)) = false) (earlier ++ [last]) ->
    exists c' w' id promise,
      searchAll (earlier ++ [last]) p0 (c, w) = (Ok (Some (Pending promise)), (c', w'))
      /\ timers w' = [(id, (debounceOf (callDebounce last),
                            DebouncedSearch (trim (callQuery last)) (callOptions last)
                              promise))]
      /\ trace w' = trace w
      /\ onSearchCompleteCallback c' = onSearchCompleteCallback c.
Proof.
  induction earlier as [|first earlier IH]; intros last c w p0 Ht Hall.
  - cbn [app] in *. inversion Hall as [|? ? Hq _]; subst.
    destruct (search_arms_timer c w (callQuery last) (callOptions last)
                (callDebounce last) Ht Hq) as (c' & w' & Hs & Htm & _ & Htr & Hcb).
    exists c', w', (nextTimerId w), (nextPromiseId w).
    cbn [searchAll]. rewrite (bind_ok _ _ _ _ _ Hs). auto.
  - cbn [app] in *. inversion Hall as [|? ? Hq Hrest]; subst.
    destruct (search_arms_timer c w (callQuery first) (callOptions first)
                (callDebounce first) Ht Hq) as (c1 & w1 & Hs & Htm & Hid & Htr & Hcb).
    assert (Ht1 : timersTracked (c1, w1)).
    { unfold timersTracked. cbn [fst snd]. rewrite Htm, Hid. repeat constructor. }
    destruct (IH last c1 w1 (Some (Pending (nextPromiseId w))) Ht1 Hrest)
      as (c' & w' & id & promise & Hs' & Htm' & Htr' & Hcb').
    exists c', w', id, promise.
    cbn [searchAll]. rewrite (bind_ok _ _ _ _ _ Hs), Hs'.
    rewrite Htr', Htr, Hcb', Hcb. auto.
Qed.

Lemma clear_effects c w :
  timers w = [] ->
  exists c1 w1,
    clear (c, w) = (Ok tt, (c1, w1))
    /\ timers w1 = []
    /\ trace w1 = trace w
    /\ onSearchCompleteCallback c1 = onSearchCompleteCallback c
    /\ onMatchChangeCallback c1 = onMatchChangeCallback c.
Proof.
  intros Ht. unfold clear.
  destruct (css_highlights w) as [reg|] eqn:Hs.
  - rewrite (bind_ok _ _ _ _ _
               (onManager_eq _ c w _ _ _ (clearHighlights_supported _ w reg Hs))).
    destruct c as [h cq co sr [id|] cb1 cb2], w; cbn in *; subst;
      eexists _, _; (split; [reflexivity|]); cbn; auto.
  - rewrite (bind_ok _ _ _ _ _
               (onManager_eq _ c w _ _ _ (clearHighlights_unsupported _ w Hs))).
    destruct c as [h cq co sr [id|] cb1 cb2], w; cbn in *; subst;
      eexists _, _; (split; [reflexivity|]); cbn; auto.
Qed.

Lemma highlight_effects c w ms :
  exists c1 w1,
    onManager (HighlightManager.highlightMatches ms) (c, w) = (Ok tt, (c1, w1))
    /\ timers w1 = timers w
    /\ trace w1 = trace w
    /\ onSearchCompleteCallback c1 = onSearchCompleteCallback c
    /\ onMatchChangeCallback c1 = onMatchChangeCallback c
    /\ searchResult c1 = searchResult c
    /\ currentQuery c1 = currentQuery c.
Proof.
  destruct (css_highlights w) as [reg|] eqn:Hs.
  - destruct ms as [|m ms].
    + rewrite (onManager_eq _ c w _ _ _ (highlightMatches_empty _ w reg Hs)).
      eexists _, _. split; [reflexivity|]. destruct c, w; cbn; auto 10.
    + rewrite (onManager_eq _ c w _ _ _ (highlightMatches_supported _ w reg m ms Hs)).
      eexists _, _. split; [reflexivity|]. destruct c, w; cbn; auto 10.
  - rewrite (onManager_eq _ c w _ _ _ (highlightMatches_unsupported _ w ms Hs)).
    eexists _, _. split; [reflexivity|]. destruct c, w; cbn; auto 10.
Qed.

(** The end of each of the three cases of the match-change handler in the
    proof below. *)
Ltac finish :=
  match goal with
  | Ht4 : timers ?w4 = timers ?w2, Ht2 : timers ?w2 = timers ?w1, Ht1 : timers ?w1 = [],
    Htr4 : trace ?w4 = trace ?w2, Htr2 : trace ?w2 = trace ?w1 ++ _,
    Htr1 : trace ?w1 = trace _,
    Hsr4 : SearchController.searchResult ?c4 = _,
    Hcq4 : SearchController.currentQuery ?c4 = _,
    Hrest : _ \/ _ |- exists _ _ _ _, _ =>
      eexists _, c4, _, _; split; [reflexivity|]; cbn [timers trace set_trace];
      rewrite Ht4, Ht2, Ht1, Htr4, Htr2, Htr1, Hsr4, Hcq4, <- !app_assoc;
      split; [reflexivity|]; split; [reflexivity|];
      destruct Hrest as [-> | ->]; cbn; auto 10
  end.

(** One [performSearch]: it returns the result of the finder, after one
    RegExp was constructed and the completion handler called once with
    that result. *)
Lemma performSearch_effects c w query options handler :
  falsy query = false -> timers w = [] ->
  onSearchCompleteCallback c = Some handler ->
  exists result c' w' evs,
    performSearch query options (c, w) = (Ok result, (c', w'))
    /\ timers w' = []
    /\ trace w' = trace w ++ evs
    /\ completions evs = [(handler, result)]
    /\ resolutions evs = []
    /\ length (constructions evs) = 1%nat
    /\ searchResult c' = Some result
    /\ currentQuery c' = query.
Proof.
  intros Hq Ht Hcb. unfold performSearch.
  destruct (clear_effects c w Ht) as (c1 & w1 & Hc & Ht1 & Htr1 & Hcb1 & Hmc1).
  rewrite (bind_ok _ _ _ _ _ Hc).
  unfold set_currentQuery at 1. rewrite bind_modify.
  unfold set_currentOptions at 1. rewrite bind_modify. cbn [fst snd].
  destruct (search_effects query options None w1 Hq)
    as (result & w2 & src & flags & rest & Hs & _ & Ht2 & Htr2 & Hrest).
  match goal with
  | |- context [bind (inWorld ?m) ?k (?c0, w1)] =>
      rewrite (bind_ok (inWorld m) k (c0, w1) _ _ (inWorld_eq m c0 w1 _ _ Hs))
  end.
  unfold set_searchResult at 1. rewrite bind_modify. cbn [fst snd].
  set (c3 := {| highlightManager := _ |}).
  assert (exists c4 w4,
             (if (0 <? length (matches result))%nat
              then onManager (HighlightManager.highlightMatches (matches result))
              else ret tt) (c3, w2) = (Ok tt, (c4, w4))
             /\ timers w4 = timers w2 /\ trace w4 = trace w2
             /\ onSearchCompleteCallback c4 = onSearchCompleteCallback c3
             /\ onMatchChangeCallback c4 = onMatchChangeCallback c3
             /\ searchResult c4 = searchResult c3
             /\ currentQuery c4 = currentQuery c3)
    as (c4 & w4 & Hh & Ht4 & Htr4 & Hcb4 & Hmc4 & Hsr4 & Hcq4).
  { destruct (0 <? length (matches result))%nat.
    - apply highlight_effects.
    - exists c3, w2. auto 10. }
  rewrite (bind_ok _ _ _ _ _ Hh).
  unfold this. rewrite bind_gets. cbn [fst snd].
  rewrite Hcb4. subst c3. cbn [onSearchCompleteCallback]. rewrite Hcb1, Hcb.
  unfold emit.
  match goal with
  | |- context [bind (inWorld (modify ?f)) ?k (c4, w4)] =>
      rewrite (bind_ok (inWorld (modify f)) k (c4, w4) tt (c4, f w4))
        by (apply inWorld_eq; reflexivity)
  end.
  rewrite Hmc4. cbn [onMatchChangeCallback].
  destruct (onMatchChangeCallback c1) as [h2|];
    [destruct (0 <? length (matches result))%nat|].
  - match goal with
    | |- context [bind (inWorld (modify ?f)) ?k (c4, ?w5)] =>
        rewrite (bind_ok (inWorld (modify f)) k (c4, w5) tt (c4, f w5))
          by (apply inWorld_eq; reflexivity)
    end.
    finish.
  - rewrite bind_ret.
    finish.
  - rewrite bind_ret.
    finish.
Qed.

(** The event loop on a state with one pending timer: the timer fires,
    its search runs, nothing is pending afterwards. *)
Lemma runTimers_one c w id ms query options promise handler fuel :
  timers w = [(id, (ms, DebouncedSearch query options promise))] ->
  falsy query = false ->
  onSearchCompleteCallback c = Some handler ->
  exists result c' w' evs,
    performSearch query options (c, set_timers [] w) = (Ok result, (c', w'))
    /\ runTimers (S fuel) (c, w)
       = (Ok tt, (c', set_trace (trace w' ++ [PromiseResolved promise result]) w'))
    /\ timers w' = []
    /\ trace w' = trace w ++ evs
    /\ completions evs = [(handler, result)]
    /\ resolutions evs = []
    /\ length (constructions evs) = 1%nat
    /\ searchResult c' = Some result
    /\ currentQuery c' = query.
Proof.
  intros Ht Hq Hcb.
  destruct (performSearch_effects c (set_timers [] w) query options handler Hq
              ltac:(destruct w; reflexivity) Hcb)
    as (result & c' & w' & evs & Hp & Ht' & Htr' & Hco & Hre & Hcn & Hsr & Hcq).
  exists result, c', w', evs. split; [exact Hp|].
  split; [|replace (trace w) with (trace (set_timers [] w)) by (destruct w; reflexivity);
           auto 10].
  cbn [runTimers snd]. rewrite Ht.
  assert (Hfire : fireTimer id (c, w)
                  = (Ok tt, (c', set_trace (trace w' ++ [PromiseResolved promise result]) w'))).
  { unfold fireTimer. rewrite bind_gets. cbn [snd]. rewrite Ht.
    cbn [List.filter fst]. rewrite Nat.eqb_refl.
    assert (Hct : inWorld (clearTimeout id) (c, w) = (Ok tt, (c, set_timers [] w))).
    { apply inWorld_eq. unfold clearTimeout, modify. rewrite Ht.
      cbn [List.filter fst]. rewrite Nat.eqb_refl. reflexivity. }
    rewrite (bind_ok _ _ _ _ _ Hct). unfold timerCallback.
    rewrite (bind_ok _ _ _ _ _ Hp). apply inWorld_eq. reflexivity. }
  rewrite (bind_ok _ _ _ _ _ Hfire).
  destruct fuel; cbn [runTimers snd timers set_trace]; rewrite Ht'; reflexivity.
Qed.

(** C3. A burst of calls of [search] with non-empty queries, none of their
    timers firing in between, on a controller whose pending timers are the
    one it remembers and that has a completion handler: during the burst
    nothing is searched or applied (the trace is unchanged) and afterwards
    exactly one timer is pending, that of the last call.  When the event
    loop then runs the timers, it returns with no timer pending after
    exactly one search ran (one RegExp was constructed), the completion
    handler was called exactly once and exactly one promise was resolved,
    the one of the last call, both with the result of [performSearch] on
    the trimmed query and the options of the last call; that result and
    that query are the ones the controller holds. *)
Theorem last_call_wins
    (earlier : list SearchCall) (last : SearchCall)
    (c : t) (w : World) (handler : nat) (fuel : nat) :
  timersTracked (c, w) ->
  Forall (fun sc => falsy (trim (callQuery sc)) = false) (earlier ++ [last]) ->
  onSearchCompleteCallback c = Some handler ->
  exists promise id s1 result s2,
    searchAll (earlier ++ [last]) None (c, w) = (Ok (Some (Pending promise)), s1)
    /\ trace (snd s1) = trace w
    /\ timers (snd s1)
       = [(id, (debounceOf (callDebounce last),
                DebouncedSearch (trim (callQuery last)) (callOptions last) promise))]
    /\ runTimers (S fuel) s1 = (Ok tt, s2)
    /\ outcome (performSearch (trim (callQuery last)) (callOptions last))
         (fst s1, set_timers [] (snd s1)) = Ok result
    /\ timers (snd s2) = []
    /\ length (constructions (trace (snd s2))) = S (length (constructions (trace w)))
    /\ completions (trace (snd s2)) = completions (trace w) ++ [(handler, result)]
    /\ resolutions (trace (snd s2)) = resolutions (trace w) ++ [(promise, result)]
    /\ searchResult (fst s2) = Some result
    /\ currentQuery (fst s2) = trim (callQuery last).
Proof.
  intros Ht Hall Hcb.
  destruct (searchAll_arms_last earlier last c w None Ht Hall)
    as (c1 & w1 & id & promise & Hs & Htm & Htr & Hcb1).
  assert (Hq : falsy (trim (callQuery last)) = false).
  { apply Forall_app in Hall. destruct Hall as [_ Hl]. inversion Hl; assumption. }
  rewrite Hcb in Hcb1.
  destruct (runTimers_one c1 w1 id _ _ _ promise handler fuel Htm Hq Hcb1)
    as (result & c' & w' & evs & Hp & Hrun & Ht' & Htr' & Hco & Hre & Hcn & Hsr & Hcq).
  exists promise, id, (c1, w1), result,
    (c', set_trace (trace w' ++ [PromiseResolved promise result]) w').
  cbn [fst snd].
  split; [exact Hs|]. split; [exact Htr|]. split; [exact Htm|].
  split; [exact Hrun|]. split; [unfold outcome; rewrite Hp; reflexivity|].
  cbn [trace timers set_trace].
  rewrite Htr', Htr. unfold constructions, completions, resolutions in *.
  rewrite !omap_app, Hco, Hre, !length_app, Hcn. cbn.
  rewrite ?app_nil_r. repeat split; auto; lia.
Qed.

End ControllerFacts.

(** C3 on the burst [search("x")], [search("xy")], [search("xyz")]. *)
Lemma last_call_wins_witness :
  exists promise id s1 result s2,
    searchAll (host := MiniRegExp.host) ([typed "x"; typed "xy"] ++ [typed "xyz"]) None
      (listeningController, supportedWorld (page "x xy xyz"))
    = (Ok (Some (SearchController.Pending promise)), s1)
    /\ trace (snd s1) = trace (supportedWorld (page "x xy xyz"))
    /\ timers (snd s1)
       = [(id, (debounceOf (callDebounce (typed "xyz")),
                DebouncedSearch (trim (callQuery (typed "xyz")))
                  (callOptions (typed "xyz")) promise))]
    /\ SearchController.runTimers (host := MiniRegExp.host) (S 0) s1 = (Ok tt, s2)
    /\ outcome (SearchController.performSearch (host := MiniRegExp.host)
                  (trim (callQuery (typed "xyz"))) (callOptions (typed "xyz")))
         (fst s1, set_timers [] (snd s1)) = Ok result
    /\ timers (snd s2) = []
    /\ length (constructions (trace (snd s2)))
       = S (length (constructions (trace (supportedWorld (page "x xy xyz")))))
    /\ completions (trace (snd s2))
       = completions (trace (supportedWorld (page "x xy xyz"))) ++ [(5%nat, result)]
    /\ resolutions (trace (snd s2))
       = resolutions (trace (supportedWorld (page "x xy xyz"))) ++ [(promise, result)]
    /\ SearchController.searchResult (fst s2) = Some result
    /\ SearchController.currentQuery (fst s2) = trim (callQuery (typed "xyz")).
Proof.
  apply (last_call_wins (host := MiniRegExp.host) (lawful := mini_lawful)
           [typed "x"; typed "xy"] (typed "xyz") listeningController
           (supportedWorld (page "x xy xyz")) 5%nat 0%nat).
  - constructor.
  - repeat constructor.
  - reflexivity.
Defined.

(** * Further properties of the code *)

(** ** The match finder *)

Section LoopFacts.
Context {host : RegExpHost} {lawful : RegExpLawful host}.
Import SearchEngine.

Lemma execLoop_ordered fuel t re startIndex pushed :
  RegExp.global re = true ->
  (String.length (textContent t) + 2 <= fuel + RegExp.lastIndex re)%nat ->
  (1 <= fuel)%nat ->
  exists ms re',
    execLoop fuel t (textContent t) re startIndex pushed = Some (ms, re')
    /\ inOrderFrom (Z.of_nat (RegExp.lastIndex re)) ms
    /\ Forall (fun md => node md = t /\ rangeSpans md) ms
    /\ (forall k md, ms !! k = Some md -> index md = startIndex + Z.of_nat (pushed + k))
    /\ (length ms <= S (String.length (textContent t)) - RegExp.lastIndex re)%nat.
Proof.
  revert re pushed. induction fuel as [|fuel IH]; intros re pushed Hg Hf H1; [lia|].
  cbn [execLoop].
  destruct (RegExp.exec re (textContent t)) as [[m|] re1] eqn:Hex.
  - destruct (exec_global_found _ _ _ _ Hg Hex) as (e & Hi & He & Hm & Hl & Hg1).
    assert (Hlen : String.length (RegExp.matched m) = (e - RegExp.at_index m)%nat).
    { rewrite Hm. unfold substring. apply length_substring. lia. }
    set (re2 := if (RegExp.at_index m =? RegExp.lastIndex re1)%nat
                then RegExp.set_lastIndex (S (RegExp.lastIndex re1)) re1 else re1).
    assert (Hg2 : RegExp.global re2 = true).
    { subst re2. destruct (_ =? _)%nat; [destruct re1; exact Hg1 | exact Hg1]. }
    assert (Hl2 : Z.of_nat (RegExp.lastIndex re2)
                  = Z.max (Z.of_nat (RegExp.at_index m) + Z.of_nat (e - RegExp.at_index m))
                          (Z.of_nat (RegExp.at_index m) + 1)).
    { subst re2. destruct (_ =? _)%nat eqn:Eq.
      - apply Nat.eqb_eq in Eq. cbn. lia.
      - apply Nat.eqb_neq in Eq. lia. }
    destruct (IH re2 (S pushed) Hg2) as (ms & re' & Hloop & Hord & Hall & Hidx & Hcnt);
      [lia | lia |].
    rewrite Hloop. eexists _, re'. split; [reflexivity|].
    split; [|split; [|split]].
    + cbn [inOrderFrom createMatchData startOffset endOffset]. rewrite Hlen, <- Hl2.
      split; [lia | exact Hord].
    + constructor; [|exact Hall]. unfold rangeSpans. cbn. auto.
    + intros [|k] md Hk; cbn in Hk.
      * inversion Hk; subst. cbn. f_equal. lia.
      * rewrite (Hidx k md Hk). f_equal. lia.
    + cbn [length]. lia.
  - exists [], re1. split; [reflexivity|]. cbn. repeat split; auto.
    + intros k md Hk. destruct k; discriminate Hk.
    + lia.
Qed.

Lemma inOrderFrom_weaken from from' ms :
  from' <= from -> inOrderFrom from ms -> inOrderFrom from' ms.
Proof. destruct ms; cbn; [auto|]. intros H [H1 H2]. split; [lia | exact H2]. Qed.

Lemma inOrderFrom_lookup from ms k md :
  inOrderFrom from ms -> ms !! k = Some md -> from <= startOffset md.
Proof.
  revert from k. induction ms as [|m ms IH]; intros from k Ho Hk; [destruct k; discriminate|].
  destruct Ho as [H1 H2]. destruct k as [|k]; cbn in Hk.
  - inversion Hk; subst. exact H1.
  - specialize (IH _ k H2 Hk). lia.
Qed.

Lemma inOrderFrom_pairs from ms j k a b :
  inOrderFrom from ms -> (j < k)%nat -> ms !! j = Some a -> ms !! k = Some b ->
  endOffset a <= startOffset b /\ startOffset a < startOffset b.
Proof.
  revert from j k. induction ms as [|m ms IH]; intros from j k Ho Hjk Hj Hk;
    [destruct j; discriminate|].
  destruct Ho as [H1 H2]. destruct k as [|k]; [lia|]. cbn in Hk.
  destruct j as [|j]; cbn in Hj.
  - inversion Hj; subst. pose proof (inOrderFrom_lookup _ _ _ _ H2 Hk). lia.
  - apply (IH _ j k H2); [lia | exact Hj | exact Hk].
Qed.

Lemma findMatchesInNode_ordered t re startIndex :
  RegExp.global re = true ->
  exists ms re',
    findMatchesInNode t re startIndex = Some (ms, re')
    /\ inOrderFrom 0 ms
    /\ Forall (fun md => node md = t /\ rangeSpans md) ms
    /\ (forall k md, ms !! k = Some md -> index md = startIndex + Z.of_nat k)
    /\ (length ms <= S (String.length (textContent t)))%nat
    /\ Forall wellFormed ms
    /\ RegExp.global re' = true.
Proof.
  intros Hg. unfold findMatchesInNode.
  destruct (execLoop_ordered (S (S (String.length (textContent t)))) t
              (RegExp.set_lastIndex 0 re) startIndex 0)
    as (ms & re' & Hl & Ho & Ha & Hi & Hc); [destruct re; exact Hg | cbn; lia | lia |].
  destruct (execLoop_finishes (S (S (String.length (textContent t)))) t
              (RegExp.set_lastIndex 0 re) startIndex 0)
    as (ms2 & re2 & Hl2 & Hwf & Hg2); [destruct re; exact Hg | cbn; lia | lia |].
  rewrite Hl in Hl2. inversion Hl2; subst ms2 re2.
  exists ms, re'. split; [exact Hl|]. cbn in Ho, Hc.
  repeat split; auto.
Qed.

Lemma nodeLoop_full (R : Text -> Prop) nodes re acc :
  RegExp.global re = true ->
  Forall R nodes ->
  Forall (fun md => R (node md) /\ rangeSpans md) acc ->
  numbered acc -> oneNodePastCeiling acc ->
  exists ms,
    nodeLoop nodes re acc = Some ms
    /\ Forall (fun md => R (node md) /\ rangeSpans md) ms
    /\ numbered ms
    /\ oneNodePastCeiling ms.
Proof.
  revert re acc. induction nodes as [|t nodes IH]; intros re acc Hg HR Hacc Hnum Hcap;
    cbn [nodeLoop].
  - eauto.
  - destruct (Z.of_nat (length acc) >=? MAX_MATCHES) eqn:Hge; [eauto|].
    rewrite Z.geb_leb, Z.leb_gt in Hge.
    destruct (findMatchesInNode_ordered t re (Z.of_nat (length acc)) Hg)
      as (ms & re' & Hf & _ & Hall & Hidx & _ & _ & Hg').
    rewrite Hf. inversion HR as [|? ? HRt HRn]; subst.
    apply IH; [exact Hg' | exact HRn | | |].
    + apply Forall_app. split; [exact Hacc|].
      eapply Forall_impl; [exact Hall|]. intros md [Hn Hs]. rewrite Hn. auto.
    + intros k md Hk. apply lookup_app_Some in Hk. destruct Hk as [Hk1 | [Hk1 Hk2]].
      * exact (Hnum k md Hk1).
      * rewrite (Hidx _ md Hk2). lia.
    + intros i j a b Hi Hj Ha Hb.
      rewrite lookup_app_r in Ha by lia. rewrite lookup_app_r in Hb by lia.
      rewrite Forall_lookup in Hall.
      destruct (Hall _ _ Ha) as [-> _]. destruct (Hall _ _ Hb) as [-> _]. reflexivity.
Qed.

Lemma accepted_shown p t : accepted (p, t) = true <-> shown p t.
Proof.
  unfold accepted, shouldIncludeNode, shown, includes. cbn [fst snd].
  destruct (trim (textContent t)) as [|c s] eqn:Et; cbn [falsy].
  { split; [discriminate | intros [H _]; congruence]. }
  destruct (String.eqb_spec (display (parentStyle p)) "none") as [Hd|Hd]; cbn [orb].
  { split; [discriminate | intros (_ & H & _); congruence]. }
  destruct (String.eqb_spec (visibility (parentStyle p)) "hidden") as [Hv|Hv]; cbn [orb].
  { split; [discriminate | intros (_ & _ & H & _); congruence]. }
  destruct (String.eqb_spec (opacity (parentStyle p)) "0") as [Ho|Ho]; cbn [orb].
  { split; [discriminate | intros (_ & _ & _ & H & _); congruence]. }
  destruct (existsb (String.eqb (toLowerCase (parentTag p))) excludedTags) eqn:E1.
  { split; [discriminate|]. intros (_ & _ & _ & _ & H). exfalso. apply H.
    apply existsb_exists in E1. destruct E1 as (x & Hx & Heq).
    apply String.eqb_eq in Heq. subst x. apply in_or_app. left. exact Hx. }
  destruct (existsb (String.eqb (toLowerCase (parentTag p))) ["input"; "textarea"; "select"])
    eqn:E2.
  { split; [discriminate|]. intros (_ & _ & _ & _ & H). exfalso. apply H.
    apply existsb_exists in E2. destruct E2 as (x & Hx & Heq).
    apply String.eqb_eq in Heq. subst x. apply in_or_app. right. exact Hx. }
  split; [intros _ | reflexivity].
  repeat split; try assumption; try discriminate.
  intros Hin. apply in_app_or in Hin. destruct Hin as [Hin | Hin].
  - assert (existsb (String.eqb (toLowerCase (parentTag p))) excludedTags = true);
      [|congruence].
    apply existsb_exists. eexists. split; [exact Hin | apply String.eqb_refl].
  - assert (existsb (String.eqb (toLowerCase (parentTag p)))
              ["input"; "textarea"; "select"] = true); [|congruence].
    apply existsb_exists. eexists. split; [exact Hin | apply String.eqb_refl].
Qed.

Lemma textNodes_shown root t :
  In t (textNodes root) <-> exists p, In (p, t) (textUnder root) /\ shown p t.
Proof.
  unfold textNodes. fold (textUnder root). rewrite in_map_iff. split.
  - intros ([p t'] & Heq & Hin). cbn in Heq. subst t'.
    apply filter_In in Hin. destruct Hin as [Hin Hacc].
    exists p. split; [exact Hin | apply accepted_shown; exact Hacc].
  - intros (p & Hin & Hs). exists (p, t). split; [reflexivity|].
    apply filter_In. split; [exact Hin | apply accepted_shown; exact Hs].
Qed.

(** All that a search returns, in one statement. *)
Lemma search_full searchText options rootElement w :
  exists r w',
    search searchText options rootElement w = (Ok r, w')
    /\ Forall (fun md => In (node md) (textNodes (rootOf rootElement w)) /\ rangeSpans md)
              (matches r)
    /\ numbered (matches r)
    /\ oneNodePastCeiling (matches r).
Proof.
  assert (Hnil : numbered [] /\ oneNodePastCeiling []).
  { split; intros ?; intros; match goal with H : [] !! _ = Some _ |- _ =>
      rewrite lookup_nil in H; discriminate H end. }
  destruct Hnil as [Hn0 Hc0].
  unfold search, bind.
  destruct (match rootElement with Some r => ret r | None => gets body end w)
    as [r0 w0] eqn:Hroot.
  assert (r0 = Ok (rootOf rootElement w)) as ->.
  { destruct rootElement; inversion Hroot; reflexivity. }
  unfold performance_now.
  destruct (falsy searchText).
  { eexists _, _. split; [reflexivity|]. cbn. auto. }
  unfold buildPattern, bind, emit, modify, console_log.
  set (pattern := if wholeWord options then _ else _).
  set (flags := if caseSensitive options then "g" else "gi").
  destruct (RegExp.new pattern flags) as [msg|re] eqn:Hnew; cbn.
  { eexists _, _. split; [reflexivity|]. cbn. auto. }
  assert (Hg : RegExp.global re = true).
  { rewrite (new_global _ _ _ Hnew). subst flags.
    destruct (caseSensitive options); reflexivity. }
  destruct (nodeLoop_full (fun t => In t (textNodes (rootOf rootElement w)))
              (textNodes (rootOf rootElement w)) re [] Hg)
    as (ms & Hloop & Hall & Hnum & Hcap);
    [apply List.Forall_forall; intros; assumption | constructor | exact Hn0 | exact Hc0 |].
  rewrite Hloop. eexists _, _. split; [reflexivity|]. cbn. auto.
Qed.

End LoopFacts.

Section FinderExtras.
Import SearchEngine.

(** X1. With a lawful host [search] returns, and the [index] of every match
    it returns is the position of the match in the list: the numbering
    runs on from one text node to the next, from 0, without a gap. *)
Theorem match_index_is_position
    {host : RegExpHost} {lawful : RegExpLawful host}
    (searchText : string) (options : SearchOptions)
    (rootElement : option HTMLElement) (w : World) :
  exists r,
    outcome (search searchText options rootElement) w = Ok r
    /\ forall (k : nat) (md : MatchData), matches r !! k = Some md -> index md = Z.of_nat k.
Proof.
  destruct (search_full searchText options rootElement w) as (r & w' & Hs & _ & Hn & _).
  exists r. unfold outcome. rewrite Hs. split; [reflexivity | exact Hn].
Qed.

(** X1 on the query "cat" and the sample page. *)
Lemma match_index_is_position_witness :
  exists r,
    outcome (search (host := MiniRegExp.host) "cat" (literalOptions false true) None)
      (supportedWorld samplePage) = Ok r
    /\ forall (k : nat) (md : MatchData), matches r !! k = Some md -> index md = Z.of_nat k.
Proof.
  exact (match_index_is_position (host := MiniRegExp.host) (lawful := mini_lawful)
           "cat" (literalOptions false true) None (supportedWorld samplePage)).
Defined.

(** X2. Every match a search returns lies in a text node below the root
    element (the one given, or [document.body]) that [shouldIncludeNode]
    accepts: its text is not blank, its parent element is not
    [display: none], [visibility: hidden] or [opacity: 0] and is none of
    script, style, noscript, iframe, object, embed, svg, input, textarea,
    select (in any case of the tag name); the range of the match spans its
    offsets in that node. *)
Theorem matches_lie_in_shown_text
    {host : RegExpHost} {lawful : RegExpLawful host}
    (searchText : string) (options : SearchOptions)
    (rootElement : option HTMLElement) (w : World) :
  exists r,
    outcome (search searchText options rootElement) w = Ok r
    /\ Forall (fun md =>
                 (exists parent,
                     In (parent, node md) (textUnder (rootOf rootElement w))
                     /\ shown parent (node md))
                 /\ rangeSpans md)
              (matches r).
Proof.
  destruct (search_full searchText options rootElement w) as (r & w' & Hs & Hall & _ & _).
  exists r. unfold outcome. rewrite Hs. split; [reflexivity|].
  eapply Forall_impl; [exact Hall|]. intros md [Hin Hr]. split; [|exact Hr].
  apply textNodes_shown. exact Hin.
Qed.

(** X2 on the query "cat" and the sample page. *)
Lemma matches_lie_in_shown_text_witness :
  exists r,
    outcome (search (host := MiniRegExp.host) "cat" (literalOptions false true) None)
      (supportedWorld samplePage) = Ok r
    /\ Forall (fun md =>
                 (exists parent,
                     In (parent, node md) (textUnder (rootOf None (supportedWorld samplePage)))
                     /\ shown parent (node md))
                 /\ rangeSpans md)
              (matches r).
Proof.
  exact (matches_lie_in_shown_text (host := MiniRegExp.host) (lawful := mini_lawful)
           "cat" (literalOptions false true) None (supportedWorld samplePage)).
Defined.

(** X3. What the ceiling does guarantee: no text node is visited once
    [MAX_MATCHES] matches are there, so all matches from position
    [MAX_MATCHES - 1] on come from one and the same text node. *)
Theorem past_the_ceiling_one_node
    {host : RegExpHost} {lawful : RegExpLawful host}
    (searchText : string) (options : SearchOptions)
    (rootElement : option HTMLElement) (w : World) :
  exists r,
    outcome (search searchText options rootElement) w = Ok r
    /\ forall (i j : nat) (a b : MatchData),
         MAX_MATCHES - 1 <= Z.of_nat i -> MAX_MATCHES - 1 <= Z.of_nat j ->
         matches r !! i = Some a -> matches r !! j = Some b -> node a = node b.
Proof.
  destruct (search_full searchText options rootElement w) as (r & w' & Hs & _ & _ & Hc).
  exists r. unfold outcome. rewrite Hs. split; [reflexivity | exact Hc].
Qed.

(** X3 on a page past the ceiling: 9,999 text nodes with one letter a,
    then one with 60 letters and one with 5.  The search for "a" returns
    10,059 matches: the one at position 9,998 lies in the last one-letter
    node, the ones at positions 9,999 and 10,058 in the node of 60
    letters, and the last node is not visited. *)
Lemma past_the_ceiling_one_node_witness :
  (exists r,
      outcome (search (host := MiniRegExp.host) "a" (literalOptions true false) None)
        (supportedWorld pastTheCeiling) = Ok r
      /\ forall (i j : nat) (a b : MatchData),
           MAX_MATCHES - 1 <= Z.of_nat i -> MAX_MATCHES - 1 <= Z.of_nat j ->
           matches r !! i = Some a -> matches r !! j = Some b -> node a = node b)
  /\ countAndNodesAt [9998; 9999; 10058; 10059]
       (outcome (search (host := MiniRegExp.host) "a" (literalOptions true false) None)
          (supportedWorld pastTheCeiling))
     = Some (10059, [Some 9998; Some 9999; Some 9999; None]).
Proof.
  split; [|vm_compute; reflexivity].
  exact (past_the_ceiling_one_node (host := MiniRegExp.host) (lawful := mini_lawful)
           "a" (literalOptions true false) None (supportedWorld pastTheCeiling)).
Defined.

(** X4. For a global pattern, [findMatchesInNode] finishes; the matches it
    returns stand from left to right and do not overlap (a later match
    starts at or after the end of an earlier one and after its start, also
    for empty matches), and a node of [n] characters gives at most [n + 1]
    of them. *)
Theorem node_matches_left_to_right
    {host : RegExpHost} {lawful : RegExpLawful host}
    (textNode : Text) (pattern : RegExp.t) (startIndex : Z) :
  RegExp.global pattern = true ->
  exists ms pattern',
    findMatchesInNode textNode pattern startIndex = Some (ms, pattern')
    /\ (forall (j k : nat) (a b : MatchData),
           (j < k)%nat -> ms !! j = Some a -> ms !! k = Some b ->
           endOffset a <= startOffset b /\ startOffset a < startOffset b)
    /\ (length ms <= String.length (textContent textNode) + 1)%nat.
Proof.
  intros Hg.
  destruct (findMatchesInNode_ordered textNode pattern startIndex Hg)
    as (ms & re' & Hf & Ho & _ & _ & Hc & _ & _).
  exists ms, re'. split; [exact Hf|]. split; [|lia].
  intros j k a b. apply (inOrderFrom_pairs 0 ms j k a b Ho).
Qed.

(** X4 on the sample text and the pattern of the letter a. *)
Lemma node_matches_left_to_right_witness :
  exists ms pattern',
    findMatchesInNode (host := MiniRegExp.host) sampleText letterPattern 0
    = Some (ms, pattern')
    /\ (forall (j k : nat) (a b : MatchData),
           (j < k)%nat -> ms !! j = Some a -> ms !! k = Some b ->
           endOffset a <= startOffset b /\ startOffset a < startOffset b)
    /\ (length ms <= String.length (textContent sampleText) + 1)%nat.
Proof.
  apply (node_matches_left_to_right (host := MiniRegExp.host) (lawful := mini_lawful)
           sampleText letterPattern 0).
  reflexivity.
Defined.

(** X5. When the host refuses the pattern that [buildPattern] makes of a
    non-empty text, with the flags it passes, [search] does not throw: it returns the empty result
    with [searchTime = 0], logs the error message on the console, and
    creates no TreeWalker. *)
Theorem invalid_pattern_gives_empty_result
    {host : RegExpHost} (searchText : string) (options : SearchOptions)
    (rootElement : option HTMLElement) (w : World) (msg : string) :
  falsy searchText = false ->
  compile (patternSource searchText options) (patternFlags options) = inl msg ->
  search searchText options rootElement w =
    (Ok {| matches := []; totalCount := 0; searchTime := 0 |},
     set_console (console w ++ [ErrorInvalidRegex msg])
       (set_trace
          (trace w ++ [RegExpConstructed (patternSource searchText options)
                                         (patternFlags options)])
          (set_clockReads (S (clockReads w)) w))).
Proof.
  intros Hq Hc. unfold search, bind.
  destruct (match rootElement with Some r => ret r | None => gets body end w)
    as [r0 w0] eqn:Hroot.
  assert (exists root, r0 = Ok root /\ w0 = w) as (root & -> & ->).
  { destruct rootElement; inversion Hroot; eauto. }
  unfold performance_now. rewrite Hq.
  unfold buildPattern, bind, emit, modify, console_log, RegExp.new.
  change (if wholeWord options
          then String backslash (String "b"
                 (if negb (isRegex options) then escapeRegex searchText else searchText))
               +:+ String backslash "b"
          else if negb (isRegex options) then escapeRegex searchText else searchText)
    with (if wholeWord options
          then wholeWordSource (if negb (isRegex options) then escapeRegex searchText
                                else searchText)
          else if negb (isRegex options) then escapeRegex searchText else searchText).
  replace (if wholeWord options
           then wholeWordSource (if negb (isRegex options) then escapeRegex searchText
                                 else searchText)
           else if negb (isRegex options) then escapeRegex searchText else searchText)
    with (patternSource searchText options)
    by (unfold patternSource; destruct (isRegex options); reflexivity).
  fold (patternFlags options). rewrite Hc. destruct w; reflexivity.
Qed.

(** X5 on the pattern [(abc]. *)
Lemma invalid_pattern_gives_empty_result_witness :
  search (host := MiniRegExp.host) "(abc" regexOptions None (supportedWorld samplePage) =
    (Ok {| matches := []; totalCount := 0; searchTime := 0 |},
     set_console
       (console (supportedWorld samplePage)
          ++ [ErrorInvalidRegex "Invalid regular expression: /(abc/gi: Unterminated group"])
       (set_trace
          (trace (supportedWorld samplePage)
             ++ [RegExpConstructed (patternSource "(abc" regexOptions)
                                   (patternFlags regexOptions)])
          (set_clockReads (S (clockReads (supportedWorld samplePage)))
             (supportedWorld samplePage)))).
Proof.
  apply (invalid_pattern_gives_empty_result (host := MiniRegExp.host) "(abc" regexOptions
           None (supportedWorld samplePage)); reflexivity.
Defined.

End FinderExtras.

(** ** The highlight coordinator *)

Section CoordinatorExtras.
Import HighlightManager.

Lemma setCurrentMatch_in_range h w reg i m :
  css_highlights w = Some reg -> 0 <= i -> matches h !! Z.to_nat i = Some m ->
  setCurrentMatch i (h, w) =
    (Ok tt,
     ({| allMatchesHighlight := allMatchesHighlight h;
         currentMatchHighlight := Some [range m];
         matches := matches h;
         currentIndex := i |},
      set_animationFrames (animationFrames w ++ [ScrollToRange (range m)])
        (set_css_highlights
           (Some (<[CURRENT_MATCH_NAME := [range m]]>
                    (match currentMatchHighlight h with
                     | Some _ => delete CURRENT_MATCH_NAME reg
                     | None => reg
                     end))) w))).
Proof.
  intros Hs Hi Hm.
  assert (Ho : outOfRange i h = false).
  { apply outOfRange_false. apply lookup_lt_Some in Hm. lia. }
  rewrite <- lookup_Int in Hm by exact Hi.
  destruct h as [a c ms ci], w as [css ? ? ? ? ? ? ? ? ?]; cbn in Hs, Hm; subst css.
  unfold setCurrentMatch, scrollToMatch, bind, this, gets, outOfRange in *.
  cbn in *. rewrite Ho, Hm. destruct c; cbn; rewrite ?Ho, ?Hm; reflexivity.
Qed.

(** X6. With the highlight API, [setCurrentMatch(i)] for an index in range
    returns normally, makes [i] the current index, registers under the
    name of the current match a highlight of exactly the range of match
    [i] (replacing what was registered there and leaving the other names
    as they were), and asks for one animation frame that scrolls to that
    range; the match sequence is unchanged. *)
Theorem setCurrentMatch_registers_current
    (h : t) (w : World) (reg : gmap string Highlight) (i : Z) (m : MatchData) :
  css_highlights w = Some reg -> 0 <= i -> matches h !! Z.to_nat i = Some m ->
  exists reg',
    setCurrentMatch i (h, w) =
      (Ok tt,
       ({| allMatchesHighlight := allMatchesHighlight h;
           currentMatchHighlight := Some [range m];
           matches := matches h;
           currentIndex := i |},
        set_animationFrames (animationFrames w ++ [ScrollToRange (range m)])
          (set_css_highlights (Some reg') w)))
    /\ reg' !! CURRENT_MATCH_NAME = Some [range m]
    /\ forall name, name <> CURRENT_MATCH_NAME -> reg' !! name = reg !! name.
Proof.
  intros Hs Hi Hm. eexists. split; [exact (setCurrentMatch_in_range h w reg i m Hs Hi Hm)|].
  split; [apply lookup_insert_eq|].
  intros name Hne. rewrite lookup_insert_ne by congruence.
  destruct (currentMatchHighlight h); [apply lookup_delete_ne; congruence | reflexivity].
Qed.

(** X6 on the three sample matches, for the index 1. *)
Lemma setCurrentMatch_registers_current_witness :
  exists reg',
    setCurrentMatch 1 (atFirstOfThree, supportedWorld samplePage) =
      (Ok tt,
       ({| allMatchesHighlight := allMatchesHighlight atFirstOfThree;
           currentMatchHighlight := Some [range (matchIn sampleText 1 7 3)];
           matches := matches atFirstOfThree;
           currentIndex := 1 |},
        set_animationFrames
          (animationFrames (supportedWorld samplePage)
             ++ [ScrollToRange (range (matchIn sampleText 1 7 3))])
          (set_css_highlights (Some reg') (supportedWorld samplePage))))
    /\ reg' !! CURRENT_MATCH_NAME = Some [range (matchIn sampleText 1 7 3)]
    /\ forall name, name <> CURRENT_MATCH_NAME ->
                    reg' !! name = (∅ : gmap string Highlight) !! name.
Proof.
  apply (setCurrentMatch_registers_current atFirstOfThree (supportedWorld samplePage) ∅ 1
           (matchIn sampleText 1 7 3)); [reflexivity | lia | reflexivity].
Defined.

(** With the API every method returns normally when the index it is given
    is an integer, keeps the API and keeps the invariant. *)
Lemma invoke_keeps m h w reg :
  css_highlights w = Some reg -> indexValid h -> integerIndex m ->
  exists h' w' reg',
    invoke m (h, w) = (Ok tt, (h', w'))
    /\ css_highlights w' = Some reg'
    /\ indexValid h'.
Proof.
  intros Hs Hv Hint.
  assert (Hset : forall (i : Z) h0 w0 reg0,
             css_highlights w0 = Some reg0 ->
             0 <= i < Z.of_nat (length (matches h0)) ->
             exists h' w' reg',
               setCurrentMatch i (h0, w0) = (Ok tt, (h', w'))
               /\ css_highlights w' = Some reg' /\ indexValid h').
  { intros i h0 w0 reg0 Hs0 Hi.
    destruct (matches h0 !! Z.to_nat i) as [m0|] eqn:Hm;
      [|apply lookup_ge_None in Hm; lia].
    rewrite (setCurrentMatch_in_range h0 w0 reg0 i m0 Hs0 ltac:(lia) Hm).
    eexists _, _, _. split; [reflexivity|]. split; [destruct w0; reflexivity|].
    exists i. split; [reflexivity|]. right. cbn. lia. }
  assert (Hrej : forall (i : Z) h0 w0 reg0,
             css_highlights w0 = Some reg0 -> indexValid h0 ->
             outOfRange i h0 = true ->
             exists h' w' reg',
               setCurrentMatch i (h0, w0) = (Ok tt, (h', w'))
               /\ css_highlights w' = Some reg' /\ indexValid h').
  { intros i h0 w0 reg0 Hs0 Hv0 Ho. rewrite (setCurrentMatch_rejected i h0 w0 Ho).
    eexists h0, _, reg0. split; [reflexivity|]. split; [destruct w0; exact Hs0 | exact Hv0]. }
  assert (Hany : forall (i : Z) h0 w0 reg0,
             css_highlights w0 = Some reg0 -> indexValid h0 ->
             exists h' w' reg',
               setCurrentMatch i (h0, w0) = (Ok tt, (h', w'))
               /\ css_highlights w' = Some reg' /\ indexValid h').
  { intros i h0 w0 reg0 Hs0 Hv0. destruct (outOfRange i h0) eqn:Ho.
    - exact (Hrej i h0 w0 reg0 Hs0 Hv0 Ho).
    - apply outOfRange_false in Ho. exact (Hset i h0 w0 reg0 Hs0 Ho). }
  assert (Hhl : forall ms h0 w0 reg0,
             css_highlights w0 = Some reg0 ->
             exists h' w' reg',
               highlightMatches ms (h0, w0) = (Ok tt, (h', w'))
               /\ css_highlights w' = Some reg' /\ indexValid h'
               /\ matches h' = [] /\ currentIndex h' = -1).
  { intros ms h0 w0 reg0 Hs0. destruct ms as [|m0 ms].
    - rewrite (highlightMatches_empty h0 w0 reg0 Hs0). unfold cleared.
      eexists _, _, _. split; [reflexivity|]. split; [destruct w0; reflexivity|].
      split; [exists (-1); auto | auto].
    - rewrite (highlightMatches_supported h0 w0 reg0 m0 ms Hs0).
      eexists _, _, _. split; [reflexivity|]. split; [destruct w0; reflexivity|].
      split; [exists (-1); auto | auto]. }
  destruct Hv as (ci & Hci & Hrange).
  assert (Hv : indexValid h) by (exists ci; auto).
  destruct m as [ms|index|index| | | |]; cbn [invoke].
  - destruct (Hhl ms h w reg Hs) as (h' & w' & reg' & H1 & H2 & H3 & _). eauto 10.
  - destruct Hint as [i ->]. exact (Hany i h w reg Hs Hv).
  - destruct Hint as [i ->].
    unfold scrollToMatch, bind, this, gets. cbn [fst snd].
    destruct (outOfRange i h) eqn:Ho; [exists h, w, reg; auto|].
    destruct (lookup_in_range i h Ho) as [m0 Hm]. rewrite Hm.
    eexists h, _, reg. split; [reflexivity|]. split; [destruct w; exact Hs | exact Hv].
  - destruct (matches h) as [|m0 ms] eqn:Hms.
    + exists h, w, reg. split; [|auto].
      unfold nextMatch, bind, this, gets. cbn [fst snd]. rewrite Hms. reflexivity.
    + rewrite (nextMatch_unfold h w ci) by congruence.
      apply (Hset _ h w reg Hs). rewrite Hms in *.
      rewrite Z.rem_mod_nonneg by (cbn [length] in *; lia).
      apply Z.mod_pos_bound. cbn [length]. lia.
  - destruct (matches h) as [|m0 ms] eqn:Hms.
    + exists h, w, reg. split; [|auto].
      unfold previousMatch, bind, this, gets. cbn [fst snd]. rewrite Hms. reflexivity.
    + rewrite (previousMatch_unfold h w ci) by congruence.
      apply (Hset _ h w reg Hs). rewrite Hms in *.
      destruct (ci - 1 <? 0) eqn:E;
        [rewrite Z.ltb_lt in E | rewrite Z.ltb_ge in E]; cbn [length] in *; lia.
  - rewrite (clearHighlights_supported h w reg Hs). unfold cleared.
    eexists _, _, _. split; [reflexivity|]. split; [destruct w; reflexivity|].
    exists (-1). auto.
  - unfold refreshHighlights. unfold bind at 1, this, gets. cbn [fst snd].
    destruct (matches h) as [|m0 ms] eqn:Hms; cbn [length Nat.eqb].
    + exists h, w, reg. auto.
    + destruct (Hhl (m0 :: ms) h w reg Hs) as (h' & w' & reg' & H1 & H2 & H3 & _ & H5).
      unfold bind. rewrite H1. cbn [fst snd]. rewrite H5. cbn.
      exists h', w', reg'. auto.
Qed.

(** X7. On a host with the highlight API, whatever sequence of
    [highlightMatches], [setCurrentMatch], [scrollToMatch], [nextMatch],
    [previousMatch], [clearHighlights] and [refreshHighlights] is called,
    with whatever match sequences and whatever integers (in range or not)
    as indices, no call throws, and the current index stays -1 or an
    index inside the match sequence. *)
Theorem coordinator_never_throws_with_api
    (calls : list Method) (h : t) (w : World) :
  css_highlights w <> None -> indexValid h -> Forall integerIndex calls ->
  outcome (invokeAll calls) (h, w) = Ok tt
  /\ indexValid (fst (exec_state (invokeAll calls) (h, w)))
  /\ css_highlights (snd (exec_state (invokeAll calls) (h, w))) <> None.
Proof.
  revert h w. induction calls as [|m calls IH]; intros h w Hs Hv Hint.
  - cbn. auto.
  - destruct (css_highlights w) as [reg|] eqn:Hc; [|congruence].
    inversion Hint as [|? ? Hm Hrest]; subst.
    destruct (invoke_keeps m h w reg Hc Hv Hm) as (h' & w' & reg' & Hi & Hs' & Hv').
    unfold outcome, exec_state in *. cbn [invokeAll]. unfold bind. rewrite Hi.
    apply IH; [congruence | exact Hv' | exact Hrest].
Qed.

(** X7 on seven calls from the three sample matches. *)
Lemma coordinator_never_throws_with_api_witness :
  outcome (invokeAll [NextMatch; SetCurrentMatch 5; PreviousMatch; RefreshHighlights;
                      HighlightMatches sampleMatches; NextMatch; ClearHighlights])
    (atFirstOfThree, supportedWorld samplePage) = Ok tt
  /\ indexValid (fst (exec_state
                        (invokeAll [NextMatch; SetCurrentMatch 5; PreviousMatch;
                                    RefreshHighlights; HighlightMatches sampleMatches;
                                    NextMatch; ClearHighlights])
                        (atFirstOfThree, supportedWorld samplePage)))
  /\ css_highlights (snd (exec_state
                        (invokeAll [NextMatch; SetCurrentMatch 5; PreviousMatch;
                                    RefreshHighlights; HighlightMatches sampleMatches;
                                    NextMatch; ClearHighlights])
                        (atFirstOfThree, supportedWorld samplePage))) <> None.
Proof.
  apply (coordinator_never_throws_with_api
           [NextMatch; SetCurrentMatch 5; PreviousMatch; RefreshHighlights;
            HighlightMatches sampleMatches; NextMatch; ClearHighlights]
           atFirstOfThree (supportedWorld samplePage)).
  - discriminate.
  - exists 0. split; [reflexivity|]. right. cbn. lia.
  - repeat constructor. exists 5. reflexivity.
Defined.

End CoordinatorExtras.

(** ** The orchestrator *)

Section Frames.
Context {S X : Type} (f : S -> X).

Lemma keeps_ret {A} (a : A) : keeps f (ret a).
Proof. intros s. reflexivity. Qed.

Lemma keeps_gets {A} (g : S -> A) : keeps f (gets g).
Proof. intros s. reflexivity. Qed.

Lemma keeps_throw {A} e : keeps f (throw (A := A) e).
Proof. intros s. reflexivity. Qed.

Lemma keeps_bind {A B} (m : M S A) (k : A -> M S B) :
  keeps f m -> (forall a, keeps f (k a)) -> keeps f (bind m k).
Proof.
  intros Hm Hk s. unfold bind. specialize (Hm s).
  destruct (m s) as [[a|e|] s']; cbn [snd] in *; [rewrite Hk|..]; exact Hm.
Qed.

Lemma keeps_modify (g : S -> S) : (forall s, f (g s) = f s) -> keeps f (modify g).
Proof. intros H s. apply H. Qed.

Lemma keeps_if {A} (b : bool) (m1 m2 : M S A) :
  keeps f m1 -> keeps f m2 -> keeps f (if b then m1 else m2).
Proof. destruct b; auto. Qed.

End Frames.

Section CoordinatorFrames.
Import HighlightManager.

Lemma inWorld_keeps_timers {A} (m : M World A) :
  keeps timers m -> keeps hostTimers (inWorld m).
Proof.
  intros H [h w]. unfold inWorld, zoom, hostTimers. cbn [fst snd].
  specialize (H w). destruct (m w) as [r w']. exact H.
Qed.

Lemma world_ops_keep_timers :
  (forall e, keeps timers (console_log e))
  /\ (forall n, keeps timers (highlights_delete n))
  /\ (forall n hl, keeps timers (highlights_set n hl))
  /\ (forall rs, keeps timers (new_Highlight rs))
  /\ (forall cb, keeps timers (requestAnimationFrame cb))
  /\ keeps timers isSupported
  /\ (forall e, keeps timers (emit e))
  /\ keeps timers Highlight_constructor.
Proof.
  repeat split; intros; intros w; destruct w as [[reg|] ? ? ? ? ? ? ? ? ?]; reflexivity.
Qed.

Lemma scrollToMatch_keeps i : keeps hostTimers (scrollToMatch i).
Proof.
  destruct world_ops_keep_timers as (_ & _ & _ & _ & Hraf & _).
  unfold scrollToMatch. apply keeps_bind; [apply keeps_gets|]. intros h.
  apply keeps_if; [apply keeps_ret|].
  destruct (Number.lookup (matches h) i);
    [apply inWorld_keeps_timers, Hraf | apply keeps_throw].
Qed.

Lemma setCurrentMatch_keeps i : keeps hostTimers (setCurrentMatch i).
Proof.
  destruct world_ops_keep_timers as (Hlog & Hdel & Hset & Hnew & _ & _ & _ & Hctor).
  unfold setCurrentMatch. apply keeps_bind; [apply keeps_gets|]. intros h.
  apply keeps_if; [apply inWorld_keeps_timers, Hlog|].
  apply keeps_bind; [apply keeps_modify; reflexivity|]. intros _.
  apply keeps_bind.
  { destruct (currentMatchHighlight h); [apply inWorld_keeps_timers, Hdel | apply keeps_ret]. }
  intros _. destruct (Number.lookup (matches h) i).
  2: { apply keeps_bind; [apply inWorld_keeps_timers, Hctor|]. intros _. apply keeps_throw. }
  apply keeps_bind; [apply inWorld_keeps_timers, Hnew|]. intros hl.
  apply keeps_bind; [apply keeps_modify; reflexivity|]. intros _.
  apply keeps_bind; [apply inWorld_keeps_timers, Hset|]. intros _.
  apply scrollToMatch_keeps.
Qed.

Lemma nextMatch_keeps : keeps hostTimers nextMatch.
Proof.
  unfold nextMatch. apply keeps_bind; [apply keeps_gets|]. intros h.
  apply keeps_if; [apply keeps_ret | apply setCurrentMatch_keeps].
Qed.

Lemma previousMatch_keeps : keeps hostTimers previousMatch.
Proof.
  unfold previousMatch. apply keeps_bind; [apply keeps_gets|]. intros h.
  apply keeps_if; [apply keeps_ret | apply setCurrentMatch_keeps].
Qed.

Lemma clearHighlights_keeps : keeps hostTimers clearHighlights.
Proof.
  destruct world_ops_keep_timers as (_ & Hdel & _ & _ & _ & Hsup & _).
  unfold clearHighlights. apply keeps_bind; [apply inWorld_keeps_timers, Hsup|]. intros b.
  apply keeps_if; [apply keeps_ret|].
  repeat (apply keeps_bind;
          [first [apply inWorld_keeps_timers, Hdel | apply keeps_modify; reflexivity]|];
          intros _).
  apply keeps_modify; reflexivity.
Qed.

Lemma highlightMatches_keeps ms : keeps hostTimers (highlightMatches ms).
Proof.
  destruct world_ops_keep_timers as (_ & _ & Hset & Hnew & _ & Hsup & _).
  unfold highlightMatches.
  apply keeps_bind; [apply keeps_modify; reflexivity|]. intros _.
  apply keeps_bind; [apply clearHighlights_keeps|]. intros _.
  apply keeps_bind; [apply inWorld_keeps_timers, Hsup|]. intros b.
  apply keeps_if; [apply keeps_ret|].
  apply keeps_bind; [apply inWorld_keeps_timers, Hnew|]. intros hl.
  apply keeps_bind; [apply keeps_modify; reflexivity|]. intros _.
  apply keeps_bind; [apply inWorld_keeps_timers, Hset|]. intros _.
  apply keeps_if; [apply setCurrentMatch_keeps | apply keeps_ret].
Qed.

End CoordinatorFrames.

Section ControllerExtras.
Context {host : RegExpHost} {lawful : RegExpLawful host}.
Import SearchController.

Lemma onManager_keeps {A} (m : M HighlightManager.St A) :
  keeps hostTimers m -> keeps timerState (onManager m).
Proof.
  intros H [c w]. unfold onManager, zoom, timerState. cbn [fst snd].
  specialize (H (highlightManager c, w)). unfold hostTimers in H. cbn [snd] in H.
  destruct (m (highlightManager c, w)) as [r [h' w']]. cbn [fst snd] in *.
  rewrite H. destruct c; reflexivity.
Qed.

Lemma inWorld_keeps {A} (m : M World A) :
  keeps timers m -> keeps timerState (inWorld m).
Proof.
  intros H [c w]. unfold inWorld, zoom, timerState. cbn [fst snd].
  specialize (H w). destruct (m w) as [r w']. cbn [snd] in *. rewrite H. reflexivity.
Qed.

Lemma notifyMatchChange_keeps : keeps timerState notifyMatchChange.
Proof.
  destruct world_ops_keep_timers as (_ & _ & _ & _ & _ & _ & Hemit & _).
  unfold notifyMatchChange. apply keeps_bind; [apply keeps_gets|]. intros c.
  destruct (onMatchChangeCallback c); [|apply keeps_ret].
  apply keeps_bind; [apply onManager_keeps, keeps_gets|]. intros current.
  apply keeps_bind; [apply onManager_keeps, keeps_gets|]. intros total.
  apply inWorld_keeps, Hemit.
Qed.

Lemma navigation_keeps :
  keeps timerState navigateNext /\ keeps timerState navigatePrevious
  /\ forall i, keeps timerState (navigateToMatch i).
Proof.
  repeat split; [| |intros i];
    (apply keeps_bind; [apply onManager_keeps, keeps_gets|]; intros b;
     apply keeps_if; [apply keeps_ret|];
     apply keeps_bind; [|intros _; apply notifyMatchChange_keeps];
     apply onManager_keeps).
  - apply nextMatch_keeps.
  - apply previousMatch_keeps.
  - apply setCurrentMatch_keeps.
Qed.

(** [clear] always returns; it forgets the result, the query and the
    timer, and the timer it remembered is no longer pending. *)
Lemma clear_general c w :
  exists c1 w1,
    clear (c, w) = (Ok tt, (c1, w1))
    /\ timers w1 = match searchDebounceTimer c with
                   | Some id => List.filter (fun t => negb (fst t =? id)%nat) (timers w)
                   | None => timers w
                   end
    /\ searchDebounceTimer c1 = None
    /\ searchResult c1 = None
    /\ currentQuery c1 = EmptyString
    /\ currentOptions c1 = currentOptions c
    /\ trace w1 = trace w
    /\ onSearchCompleteCallback c1 = onSearchCompleteCallback c
    /\ onMatchChangeCallback c1 = onMatchChangeCallback c.
Proof.
  unfold clear.
  destruct (css_highlights w) as [reg|] eqn:Hs.
  - rewrite (bind_ok _ _ _ _ _
               (onManager_eq _ c w _ _ _ (clearHighlights_supported _ w reg Hs))).
    destruct c as [h cq co sr [id|] cb1 cb2], w; cbn in *; subst;
      eexists _, _; (split; [reflexivity|]); cbn; auto 10.
  - rewrite (bind_ok _ _ _ _ _
               (onManager_eq _ c w _ _ _ (clearHighlights_unsupported _ w Hs))).
    destruct c as [h cq co sr [id|] cb1 cb2], w; cbn in *; subst;
      eexists _, _; (split; [reflexivity|]); cbn; auto 10.
Qed.

Lemma pending_filtered c w :
  atMostOnePending (c, w) ->
  match searchDebounceTimer c with
  | Some id => List.filter (fun t => negb (fst t =? id)%nat) (timers w)
  | None => timers w
  end = [].
Proof.
  intros [Ht | (id & ms & cb & Ht & Hid)]; cbn [fst snd] in *.
  - rewrite Ht. destruct (searchDebounceTimer c); reflexivity.
  - rewrite Hid, Ht. cbn. rewrite Nat.eqb_refl. reflexivity.
Qed.

(** The finder touches no timer and calls no handler. *)
Lemma search_frame searchText options rootElement w :
  exists r w' evs,
    SearchEngine.search searchText options rootElement w = (Ok r, w')
    /\ timers w' = timers w
    /\ trace w' = trace w ++ evs
    /\ completions evs = [] /\ resolutions evs = [] /\ matchChanges evs = [].
Proof.
  destruct (falsy searchText) eqn:Hq.
  - destruct searchText; [|discriminate].
    exists {| matches := []; totalCount := 0; searchTime := 0 |},
           (set_clockReads (S (clockReads w)) w), [].
    split; [destruct rootElement; reflexivity|].
    destruct w; cbn. rewrite app_nil_r. auto 10.
  - destruct (search_effects searchText options rootElement w Hq)
      as (r & w' & src & flags & rest & Hs & _ & Ht & Htr & Hrest).
    exists r, w', (RegExpConstructed src flags :: rest).
    destruct Hrest as [-> | ->]; cbn; auto 10.
Qed.

(** One [performSearch], whatever the state: what it stores and which
    handlers it calls. *)
Lemma performSearch_general c w query options :
  exists result c' w',
    performSearch query options (c, w) = (Ok result, (c', w'))
    /\ timers w' = match searchDebounceTimer c with
                   | Some id => List.filter (fun t => negb (fst t =? id)%nat) (timers w)
                   | None => timers w
                   end
    /\ searchDebounceTimer c' = None
    /\ searchResult c' = Some result
    /\ currentQuery c' = query
    /\ currentOptions c' = options
    /\ onSearchCompleteCallback c' = onSearchCompleteCallback c
    /\ onMatchChangeCallback c' = onMatchChangeCallback c
    /\ completions (trace w')
       = completions (trace w)
         ++ match onSearchCompleteCallback c with
            | Some handler => [(handler, result)]
            | None => []
            end
    /\ matchChanges (trace w')
       = matchChanges (trace w)
         ++ match onMatchChangeCallback c with
            | Some handler =>
                if (0 <? length (matches result))%nat
                then [(handler, Number.Int 0, totalCount result)] else []
            | None => []
            end
    /\ resolutions (trace w') = resolutions (trace w)
    /\ outcome (SearchEngine.search query options None) (snd (exec_state clear (c, w)))
       = Ok result.
Proof.
  unfold performSearch.
  destruct (clear_general c w)
    as (c1 & w1 & Hc & Ht1 & Hid1 & _ & _ & _ & Htr1 & Hcb1 & Hmc1).
  rewrite (bind_ok _ _ _ _ _ Hc).
  unfold set_currentQuery at 1. rewrite bind_modify.
  unfold set_currentOptions at 1. rewrite bind_modify. cbn [fst snd].
  destruct (search_frame query options None w1)
    as (result & w2 & evs & Hs & Ht2 & Htr2 & He1 & He2 & He3).
  assert (Hfinder : outcome (SearchEngine.search query options None)
                      (snd (exec_state clear (c, w))) = Ok result).
  { unfold outcome, exec_state. rewrite Hc. cbn [snd]. rewrite Hs. reflexivity. }
  match goal with
  | |- context [bind (inWorld ?m) ?k (?c0, w1)] =>
      rewrite (bind_ok (inWorld m) k (c0, w1) _ _ (inWorld_eq m c0 w1 _ _ Hs))
  end.
  unfold set_searchResult at 1. rewrite bind_modify. cbn [fst snd].
  set (c3 := {| highlightManager := _ |}).
  assert (exists c4 w4,
             (if (0 <? length (matches result))%nat
              then onManager (HighlightManager.highlightMatches (matches result))
              else ret tt) (c3, w2) = (Ok tt, (c4, w4))
             /\ timers w4 = timers w2 /\ trace w4 = trace w2
             /\ onSearchCompleteCallback c4 = onSearchCompleteCallback c3
             /\ onMatchChangeCallback c4 = onMatchChangeCallback c3
             /\ searchResult c4 = searchResult c3
             /\ currentQuery c4 = currentQuery c3
             /\ currentOptions c4 = currentOptions c3
             /\ searchDebounceTimer c4 = searchDebounceTimer c3)
    as (c4 & w4 & Hh & Ht4 & Htr4 & Hcb4 & Hmc4 & Hsr4 & Hcq4 & Hco4 & Hid4).
  { destruct (0 <? length (matches result))%nat.
    - destruct (highlight_effects c3 w2 (matches result))
        as (c4 & w4 & H1 & H2 & H3 & H4 & H5 & H6 & H7).
      exists c4, w4. repeat split; auto.
      + apply (f_equal (fun x => currentOptions (fst (snd x)))) in H1. cbn in H1.
        unfold onManager, zoom in H1. cbn [fst snd] in H1.
        destruct (HighlightManager.highlightMatches (matches result) (highlightManager c3, w2))
          as [r0 [h0 w0]]. cbn in H1. exact (eq_sym H1).
      + apply (f_equal (fun x => searchDebounceTimer (fst (snd x)))) in H1. cbn in H1.
        unfold onManager, zoom in H1. cbn [fst snd] in H1.
        destruct (HighlightManager.highlightMatches (matches result) (highlightManager c3, w2))
          as [r0 [h0 w0]]. cbn in H1. exact (eq_sym H1).
    - exists c3, w2. auto 12. }
  rewrite (bind_ok _ _ _ _ _ Hh).
  unfold this. rewrite bind_gets. cbn [fst snd].
  rewrite Hcb4, Hmc4. subst c3.
  cbn [onSearchCompleteCallback onMatchChangeCallback searchResult currentQuery currentOptions
       searchDebounceTimer] in *.
  rewrite Hcb1, Hmc1. unfold emit.
  assert (Hfin : forall w5 evs5,
             timers w5 = timers w4 -> trace w5 = trace w4 ++ evs5 ->
             completions evs5 = match onSearchCompleteCallback c with
                                | Some handler => [(handler, result)] | None => [] end ->
             matchChanges evs5 = match onMatchChangeCallback c with
                                 | Some handler =>
                                     if (0 <? length (matches result))%nat
                                     then [(handler, Number.Int 0, totalCount result)] else []
                                 | None => [] end ->
             resolutions evs5 = [] ->
             timers w5 = match searchDebounceTimer c with
                         | Some id => List.filter (fun t => negb (fst t =? id)%nat) (timers w)
                         | None => timers w
                         end
             /\ searchDebounceTimer c4 = None
             /\ searchResult c4 = Some result
             /\ currentQuery c4 = query
             /\ currentOptions c4 = options
             /\ onSearchCompleteCallback c4 = onSearchCompleteCallback c
             /\ onMatchChangeCallback c4 = onMatchChangeCallback c
             /\ completions (trace w5) = completions (trace w) ++
                  match onSearchCompleteCallback c with
                  | Some handler => [(handler, result)] | None => [] end
             /\ matchChanges (trace w5) = matchChanges (trace w) ++
                  match onMatchChangeCallback c with
                  | Some handler =>
                      if (0 <? length (matches result))%nat
                      then [(handler, Number.Int 0, totalCount result)] else []
                  | None => [] end
             /\ resolutions (trace w5) = resolutions (trace w)
             /\ outcome (SearchEngine.search query options None)
                  (snd (exec_state clear (c, w))) = Ok result).
  { intros w5 evs5 H5 Htr5 Hc5 Hm5 Hr5.
    rewrite H5, Ht4, Ht2, Ht1, Hid4, Hsr4, Hcq4, Hco4, Hcb4, Hmc4, Hcb1, Hmc1,
      Htr5, Htr4, Htr2, Htr1.
    unfold completions, matchChanges, resolutions in *.
    rewrite !omap_app, He1, He2, He3, Hc5, Hm5, Hr5, !app_nil_r. auto 13. }
  destruct (onSearchCompleteCallback c) as [h1|] eqn:E1;
    destruct (onMatchChangeCallback c) as [h2|] eqn:E2;
    try destruct (0 <? length (matches result))%nat eqn:E3;
    repeat match goal with
      | |- context [bind (inWorld (modify ?f)) ?k (c4, ?w5)] =>
          rewrite (bind_ok (inWorld (modify f)) k (c4, w5) tt (c4, f w5))
            by (apply inWorld_eq; reflexivity)
      | |- context [bind (ret tt) ?k ?s] => rewrite (bind_ret tt k s)
      end;
    eexists result, c4, _; (split; [reflexivity|]); rewrite ?E3;
    eapply Hfin; cbn [timers trace set_trace]; try reflexivity;
    rewrite <- ?app_assoc; try reflexivity; rewrite ?app_nil_r; reflexivity.
Qed.

Lemma pending_tracked s : atMostOnePending s -> timersTracked s.
Proof.
  unfold timersTracked. intros [Ht | (id & ms & cb & Ht & Hid)]; rewrite Ht.
  - constructor.
  - repeat constructor. exact Hid.
Qed.

Lemma timerState_pending s s' :
  timerState s' = timerState s -> atMostOnePending s -> atMostOnePending s'.
Proof.
  unfold timerState, atMostOnePending. intros H. inversion H as [[H1 H2]].
  rewrite H1, H2. auto.
Qed.

Lemma perform_keeps_pending a s :
  atMostOnePending s -> atMostOnePending (exec_state (perform a) s).
Proof.
  destruct s as [c w]. intros Hp.
  destruct navigation_keeps as (Hnext & Hprev & Hgoto).
  destruct a as [q o d| | | |i|id|h|h]; cbn [perform].
  - unfold exec_state. destruct (falsy (trim q)) eqn:Hq.
    + unfold search. rewrite Hq.
      destruct (clear_general c w) as (c1 & w1 & Hc & Ht & _).
      rewrite (bind_ok _ _ _ _ _ (bind_ok _ _ _ _ _ Hc)). cbn.
      left. cbn. rewrite Ht. apply pending_filtered. exact Hp.
    + destruct (search_arms_timer c w q o d (pending_tracked _ Hp) Hq)
        as (c' & w' & Hs & Ht & Hid & _).
      rewrite (bind_ok _ _ _ _ _ Hs). cbn.
      right. eexists _, _, _. cbn. split; [exact Ht | exact Hid].
  - unfold exec_state. destruct (clear_general c w) as (c1 & w1 & Hc & Ht & _).
    rewrite Hc. left. cbn. rewrite Ht. apply pending_filtered. exact Hp.
  - exact (timerState_pending _ _ (Hnext (c, w)) Hp).
  - exact (timerState_pending _ _ (Hprev (c, w)) Hp).
  - exact (timerState_pending _ _ (Hgoto i (c, w)) Hp).
  - unfold exec_state, fireTimer. rewrite bind_gets. cbn [snd].
    destruct (List.filter (fun t => (fst t =? id)%nat) (timers w))
      as [|[id0 [ms cb]] rest] eqn:Hf; [exact Hp|].
    assert (Hct : inWorld (clearTimeout id) (c, w)
                  = (Ok tt, (c, set_timers
                                  (List.filter (fun t => negb (fst t =? id)%nat) (timers w))
                                  w))).
    { apply inWorld_eq. reflexivity. }
    rewrite (bind_ok _ _ _ _ _ Hct).
    assert (Hnone : List.filter (fun t => negb (fst t =? id)%nat) (timers w) = []).
    { destruct Hp as [Ht | (id1 & ms1 & cb1 & Ht & Hid)]; cbn [fst snd] in *.
      - rewrite Ht. reflexivity.
      - rewrite Ht in *. cbn in *. destruct (id1 =? id)%nat; [reflexivity | discriminate]. }
    rewrite Hnone. destruct cb as [q o p]. unfold timerCallback.
    destruct (performSearch_general c (set_timers [] w) q o)
      as (result & c' & w' & Hps & Ht' & _).
    rewrite (bind_ok _ _ _ _ _ Hps).
    left. unfold inWorld, zoom, emit, modify. cbn. rewrite Ht'.
    destruct (searchDebounceTimer c); destruct w; reflexivity.
  - exact (timerState_pending (exec_state (onSearchComplete h) (c, w)) (c, w) eq_refl Hp).
  - exact (timerState_pending (exec_state (onMatchChange h) (c, w)) (c, w) eq_refl Hp).
Qed.

(** X8. Whatever the user interface and the event loop do in whatever
    order (searches with any query, [clear], the three navigations, timers
    firing, handlers registered), at most one debounce timer is pending,
    and it is the one the controller remembers. *)
Theorem at_most_one_timer_pending (actions : list Action) (s : St) :
  atMostOnePending s ->
  atMostOnePending (afterActions actions s)
  /\ (length (timers (snd (afterActions actions s))) <= 1)%nat.
Proof.
  revert s. induction actions as [|a actions IH]; intros s Hp.
  - cbn. split; [exact Hp|].
    destruct Hp as [Ht | (id & ms & cb & Ht & _)]; rewrite Ht; cbn; lia.
  - cbn [afterActions fold_left]. apply IH. apply perform_keeps_pending. exact Hp.
Qed.

Lemma searchAll_keeps_tracked calls :
  forall p0 c w,
    timersTracked (c, w) ->
    Forall (fun sc => falsy (trim (callQuery sc)) = false) calls ->
    timersTracked (exec_state (searchAll calls p0) (c, w)).
Proof.
  induction calls as [|first calls IH]; intros p0 c w Ht Hall; [exact Ht|].
  inversion Hall as [|? ? Hq Hrest]; subst.
  destruct (search_arms_timer c w (callQuery first) (callOptions first)
              (callDebounce first) Ht Hq) as (c1 & w1 & Hs & Htm & Hid & _).
  unfold exec_state in *. cbn [searchAll]. rewrite (bind_ok _ _ _ _ _ Hs).
  apply IH; [|exact Hrest].
  unfold timersTracked. cbn [fst snd]. rewrite Htm, Hid. repeat constructor.
Qed.

Lemma runTimers_idle fuel c w :
  timers w = [] -> runTimers fuel (c, w) = (Ok tt, (c, w)).
Proof. intros Ht. destruct fuel; cbn; rewrite Ht; reflexivity. Qed.

(** X9. After a burst of searches, [clear()], and just as well a search
    with a blank query (which resolves at once with the empty result),
    cancels the pending search: no timer is pending, the controller holds
    no result and remembers no timer, the trace is still the one from
    before the burst, and the event loop has nothing to run. *)
Theorem clear_cancels_pending_search
    (earlier : list SearchCall) (last : SearchCall) (c : t) (w : World) (fuel : nat) :
  timersTracked (c, w) ->
  Forall (fun sc => falsy (trim (callQuery sc)) = false) (earlier ++ [last]) ->
  exists s1 s2,
    exec_state (searchAll (earlier ++ [last]) None) (c, w) = s1
    /\ clear s1 = (Ok tt, s2)
    /\ (forall query options debounceMs,
           falsy (trim query) = true ->
           search query options debounceMs s1
           = (Ok (Resolved {| matches := []; totalCount := 0; searchTime := 0 |}), s2))
    /\ timers (snd s2) = []
    /\ trace (snd s2) = trace w
    /\ searchDebounceTimer (fst s2) = None
    /\ searchResult (fst s2) = None
    /\ runTimers fuel s2 = (Ok tt, s2).
Proof.
  intros Ht Hall.
  destruct (searchAll_arms_last earlier last c w None Ht Hall)
    as (c1 & w1 & id & promise & Hs & Htm & Htr & _).
  pose proof (searchAll_keeps_tracked (earlier ++ [last]) None c w Ht Hall) as Htk.
  unfold exec_state in *. rewrite Hs in *. cbn [snd] in Htk.
  assert (Hid : searchDebounceTimer c1 = Some id).
  { unfold timersTracked in Htk. cbn [fst snd] in Htk. rewrite Htm in Htk.
    inversion Htk; assumption. }
  destruct (clear_general c1 w1) as (c2 & w2 & Hc & Ht2 & Hid2 & Hsr2 & _ & _ & Htr2 & _).
  rewrite Hid, Htm in Ht2. cbn in Ht2. rewrite Nat.eqb_refl in Ht2. cbn in Ht2.
  exists (c1, w1), (c2, w2). cbn [fst snd].
  split; [reflexivity|]. split; [exact Hc|]. split.
  { intros q o d Hq. unfold search. rewrite Hq. rewrite (bind_ok _ _ _ _ _ Hc).
    reflexivity. }
  rewrite Htr2, Htr. repeat split; auto. apply runTimers_idle. exact Ht2.
Qed.


End ControllerExtras.

Section ControllerWitnesses.
Import SearchController.

(** X8 on six actions from a new controller. *)
Lemma at_most_one_timer_pending_witness :
  atMostOnePending
    (afterActions (host := MiniRegExp.host)
       [Search "x" regexOptions None; Search "xy" regexOptions None; FireTimer 1;
        NavigateNext; Search " " regexOptions None; Clear]
       (listeningController, supportedWorld samplePage))
  /\ (length (timers (snd (afterActions (host := MiniRegExp.host)
                            [Search "x" regexOptions None; Search "xy" regexOptions None;
                             FireTimer 1; NavigateNext; Search " " regexOptions None; Clear]
                            (listeningController, supportedWorld samplePage)))) <= 1)%nat.
Proof.
  apply (at_most_one_timer_pending (host := MiniRegExp.host) (lawful := mini_lawful)
           [Search "x" regexOptions None; Search "xy" regexOptions None; FireTimer 1;
            NavigateNext; Search " " regexOptions None; Clear]
           (listeningController, supportedWorld samplePage)).
  left. reflexivity.
Defined.

(** X9 on the burst "x", "xy", "xyz". *)
Lemma clear_cancels_pending_search_witness :
  exists s1 s2,
    exec_state (searchAll (host := MiniRegExp.host) ([typed "x"; typed "xy"] ++ [typed "xyz"])
                  None)
      (listeningController, supportedWorld samplePage) = s1
    /\ clear s1 = (Ok tt, s2)
    /\ (forall query options debounceMs,
           falsy (trim query) = true ->
           search query options debounceMs s1
           = (Ok (Resolved {| matches := []; totalCount := 0; searchTime := 0 |}), s2))
    /\ timers (snd s2) = []
    /\ trace (snd s2) = trace (supportedWorld samplePage)
    /\ searchDebounceTimer (fst s2) = None
    /\ searchResult (fst s2) = None
    /\ runTimers (host := MiniRegExp.host) 3 s2 = (Ok tt, s2).
Proof.
  apply (clear_cancels_pending_search (host := MiniRegExp.host)
           [typed "x"; typed "xy"] (typed "xyz") listeningController
           (supportedWorld samplePage) 3).
  - constructor.
  - repeat constructor.
Defined.


End ControllerWitnesses.

Section MoreControllerExtras.
Import SearchController.

Lemma deletes_twice (r : gmap string Highlight) :
  delete HighlightManager.CURRENT_MATCH_NAME (delete HighlightManager.ALL_MATCHES_NAME
    (delete HighlightManager.CURRENT_MATCH_NAME (delete HighlightManager.ALL_MATCHES_NAME r)))
  = delete HighlightManager.CURRENT_MATCH_NAME (delete HighlightManager.ALL_MATCHES_NAME r).
Proof.
  apply map_eq; intros k. rewrite !lookup_delete. repeat case_decide; reflexivity.
Qed.

(** X11. In every state, with or without the highlight API, [clear()]
    returns normally, leaves no result, an empty query and no remembered
    timer, and a second [clear()] changes nothing more. *)
Theorem clear_is_idempotent (s : St) :
  outcome clear s = Ok tt
  /\ exec_state clear (exec_state clear s) = exec_state clear s
  /\ searchResult (fst (exec_state clear s)) = None
  /\ currentQuery (fst (exec_state clear s)) = EmptyString
  /\ searchDebounceTimer (fst (exec_state clear s)) = None.
Proof.
  destruct s as [[h cq co sr [id|] cb1 cb2] [[reg|] ? ? ? ? ? ? ? ? ?]];
    cbn; rewrite ?deletes_twice; repeat split; reflexivity.
Qed.

Lemma navigateNext_unfold c w :
  HighlightManager.matches (highlightManager c) <> [] ->
  navigateNext (c, w)
  = bind (onManager HighlightManager.nextMatch) (fun _ => notifyMatchChange) (c, w).
Proof.
  intros Hne. unfold navigateNext. unfold bind at 1.
  unfold onManager at 1, zoom, HighlightManager.hasMatches, gets. cbn [fst snd].
  rewrite with_highlightManager_same.
  destruct (HighlightManager.matches (highlightManager c)); [congruence | reflexivity].
Qed.

Lemma navigatePrevious_unfold c w :
  HighlightManager.matches (highlightManager c) <> [] ->
  navigatePrevious (c, w)
  = bind (onManager HighlightManager.previousMatch) (fun _ => notifyMatchChange) (c, w).
Proof.
  intros Hne. unfold navigatePrevious. unfold bind at 1.
  unfold onManager at 1, zoom, HighlightManager.hasMatches, gets. cbn [fst snd].
  rewrite with_highlightManager_same.
  destruct (HighlightManager.matches (highlightManager c)); [congruence | reflexivity].
Qed.

(** After the coordinator took a new current index, the handler hears it. *)
Lemma notify_after_set c w reg (i : Z) m handler :
  css_highlights w = Some reg -> 0 <= i ->
  HighlightManager.matches (highlightManager c) !! Z.to_nat i = Some m ->
  onMatchChangeCallback c = Some handler ->
  exists c' w',
    bind (onManager (HighlightManager.setCurrentMatch i)) (fun _ => notifyMatchChange) (c, w)
    = (Ok tt, (c', w'))
    /\ HighlightManager.currentIndex (highlightManager c') = i
    /\ HighlightManager.matches (highlightManager c')
       = HighlightManager.matches (highlightManager c)
    /\ trace w'
       = trace w ++ [MatchChangeCalled handler i
                       (Z.of_nat (length (HighlightManager.matches (highlightManager c))))].
Proof.
  intros Hs Hi Hm Hcb.
  pose proof (onManager_eq _ c w _ _ _
                (setCurrentMatch_in_range (highlightManager c) w reg i m Hs Hi Hm)) as Hset.
  rewrite (bind_ok _ _ _ _ _ Hset).
  unfold notifyMatchChange, this. rewrite bind_gets. cbn [fst snd].
  destruct c as [h cq co sr tm cb1 cb2]. cbn in Hcb. subst cb2.
  cbn. eexists _, _. split; [reflexivity|]. cbn. destruct w; cbn. auto.
Qed.

Lemma bind_onManager_congr {A B} (m1 m2 : M HighlightManager.St A) (k : A -> M St B) c w :
  m1 (highlightManager c, w) = m2 (highlightManager c, w) ->
  bind (onManager m1) k (c, w) = bind (onManager m2) k (c, w).
Proof.
  intros H. unfold bind, onManager, zoom. cbn [fst snd]. rewrite H. reflexivity.
Qed.

End MoreControllerExtras.

Section NavigationExtras.
Import SearchController.

(** X12. With the highlight API, at least one match, a valid current index
    [i] (or -1) and a match-change handler: [navigateNext()] makes
    [(i + 1) mod n] current and [navigatePrevious()] makes [i - 1] current,
    or [n - 1] when [i <= 0]; each keeps the match sequence and calls the
    handler once, with the new index and the total [n]. *)
Theorem navigation_reports_new_index
    (c : t) (w : World) (reg : gmap string Highlight) (handler : nat) (i : Z) :
  css_highlights w = Some reg ->
  HighlightManager.matches (highlightManager c) <> [] ->
  HighlightManager.currentIndex (highlightManager c) = i ->
  (i = -1 \/ 0 <= i < Z.of_nat (length (HighlightManager.matches (highlightManager c)))) ->
  onMatchChangeCallback c = Some handler ->
  let n := Z.of_nat (length (HighlightManager.matches (highlightManager c))) in
  (exists c' w',
      navigateNext (c, w) = (Ok tt, (c', w'))
      /\ HighlightManager.currentIndex (highlightManager c') = Number.Int ((i + 1) mod n)
      /\ HighlightManager.matches (highlightManager c')
         = HighlightManager.matches (highlightManager c)
      /\ trace w' = trace w ++ [MatchChangeCalled handler (Number.Int ((i + 1) mod n)) n])
  /\ (exists c' w',
      navigatePrevious (c, w) = (Ok tt, (c', w'))
      /\ HighlightManager.currentIndex (highlightManager c')
         = Number.Int (if i <=? 0 then n - 1 else i - 1)
      /\ HighlightManager.matches (highlightManager c')
         = HighlightManager.matches (highlightManager c)
      /\ trace w'
         = trace w
           ++ [MatchChangeCalled handler (Number.Int (if i <=? 0 then n - 1 else i - 1)) n]).
Proof.
  intros Hs Hne Hci Hi Hcb n.
  assert (Hn : 0 < n).
  { subst n. destruct (HighlightManager.matches (highlightManager c)); [congruence|cbn; lia]. }
  fold n in Hi.
  assert (Hlook : forall j, 0 <= j < n ->
            exists m, HighlightManager.matches (highlightManager c) !! Z.to_nat j = Some m).
  { intros j Hj.
    destruct (HighlightManager.matches (highlightManager c) !! Z.to_nat j) eqn:E; [eauto|].
    apply lookup_ge_None in E. subst n. lia. }
  split.
  - rewrite navigateNext_unfold by exact Hne.
    rewrite (bind_onManager_congr _ _ _ c w
               (nextMatch_unfold (highlightManager c) w i Hne Hci)).
    fold n. rewrite Z.rem_mod_nonneg by lia.
    assert (Hj : 0 <= (i + 1) mod n < n) by (apply Z.mod_pos_bound; lia).
    destruct (Hlook _ Hj) as [m Hm].
    exact (notify_after_set c w reg _ m handler Hs (proj1 Hj) Hm Hcb).
  - rewrite navigatePrevious_unfold by exact Hne.
    rewrite (bind_onManager_congr _ _ _ c w
               (previousMatch_unfold (highlightManager c) w i Hne Hci)).
    fold n.
    replace (i - 1 <? 0) with (i <=? 0)
      by (destruct (Z.leb_spec i 0), (Z.ltb_spec (i - 1) 0); lia || reflexivity).
    assert (Hj : 0 <= (if i <=? 0 then n - 1 else i - 1) < n).
    { destruct (Z.leb_spec i 0); lia. }
    destruct (Hlook _ Hj) as [m Hm].
    exact (notify_after_set c w reg _ m handler Hs (proj1 Hj) Hm Hcb).
Qed.

(** X12 on the three sample matches, the first one current. *)
Lemma navigation_reports_new_index_witness :
  (exists c' w',
      navigateNext (controllerAtFirstOfThree, supportedWorld samplePage)
      = (Ok tt, (c', w'))
      /\ HighlightManager.currentIndex (highlightManager c') = Number.Int ((0 + 1) mod 3)
      /\ HighlightManager.matches (highlightManager c') = sampleMatches
      /\ trace w'
         = trace (supportedWorld samplePage)
           ++ [MatchChangeCalled 7 (Number.Int ((0 + 1) mod 3)) 3])
  /\ (exists c' w',
      navigatePrevious (controllerAtFirstOfThree, supportedWorld samplePage)
      = (Ok tt, (c', w'))
      /\ HighlightManager.currentIndex (highlightManager c')
         = Number.Int (if 0 <=? 0 then 3 - 1 else 0 - 1)
      /\ HighlightManager.matches (highlightManager c') = sampleMatches
      /\ trace w'
         = trace (supportedWorld samplePage)
           ++ [MatchChangeCalled 7 (Number.Int (if 0 <=? 0 then 3 - 1 else 0 - 1)) 3]).
Proof.
  apply (navigation_reports_new_index controllerAtFirstOfThree (supportedWorld samplePage)
           ∅ 7%nat 0).
  - reflexivity.
  - discriminate.
  - reflexivity.
  - right. cbn. lia.
  - reflexivity.
Defined.

End NavigationExtras.

(** ** Pattern validation *)

Lemma scan_complete {host : RegExpHost} m s n i j e :
  (i <= j < i + n)%nat -> matchAt m s j = Some e ->
  exists j' e', RegExp.scan m s n i = Some (j', e').
Proof.
  revert i. induction n as [|n IH]; intros i Hj He; [lia|].
  cbn [RegExp.scan]. destruct (matchAt m s i) as [e0|] eqn:E; [eauto|].
  apply (IH (S i)); [|exact He].
  destruct (Nat.eq_dec i j) as [->|]; [congruence | lia].
Qed.

Section DangerousPattern.
Import MiniRegExp.

(** The first two rounds of a repetition as rounds. *)
Lemma rounds_two_steps m greedy first count k depth :
  forall next,
  exists next1 next2,
    (forall min max x,
        rounds m greedy first count k (S depth) next min max x
        = repeatStep m greedy first count k next1 min max x)
    /\ (forall min max x,
          next1 min max x = repeatStep m greedy first count k next2 min max x).
Proof.
  induction depth as [|depth IH]; intros next.
  - exists (rounds m greedy first count k 0 next), next. split; reflexivity.
  - destruct (IH (rounds m greedy first count k (S depth) next)) as (n1 & n2 & H1 & H2).
    exists n1, n2. split; [|exact H2]. intros min max x.
    change (rounds m greedy first count k (S (S depth)) next min max x)
      with (rounds m greedy first count k (S depth)
              (rounds m greedy first count k (S depth) next) min max x).
    apply H1.
Qed.

(** [r+] where [r] matches in one way only, and not a second time. *)
Lemma run_plus_once s r fl first count x k y :
  (forall d, run s r fl false (fst x, reset first count (snd x)) d = d y) ->
  (forall d, run s r fl false (fst y, reset first count (snd y)) d = None) ->
  run s (Repeat r 1 None true first count) fl false x k = k y.
Proof.
  intros Hone Hnone. cbn [run].
  destruct (rounds_two_steps (run s r fl false) true first count k 63
              (fun _ _ _ => None)) as (n1 & n2 & H1 & H2).
  rewrite H1. unfold repeatStep at 1. cbn [N.eqb negb andb]. rewrite Hone.
  cbn [N.pred option_map]. rewrite H2. unfold repeatStep. cbn [N.eqb negb andb].
  rewrite Hnone. reflexivity.
Qed.

(** [r+] where [r] does not match. *)
Lemma run_plus_fails s r fl first count x k :
  (forall d, run s r fl false (fst x, reset first count (snd x)) d = None) ->
  run s (Repeat r 1 None true first count) fl false x k = None.
Proof.
  intros Hnone. cbn [run].
  destruct (rounds_two_steps (run s r fl false) true first count k 63
              (fun _ _ _ => None)) as (n1 & n2 & H1 & H2).
  rewrite H1. unfold repeatStep. cbn [N.eqb negb andb]. apply Hnone.
Qed.

Lemma run_word s fl i caps c k :
  String.get i s = Some c -> isWordChar c = true ->
  run s wordClass fl false (i, caps) k = k (S i, caps).
Proof.
  intros Hg Hw. cbn [run wordClass]. unfold step, charAt. cbn [fst snd]. rewrite Hg.
  assert (Hin : inClass (ignoreCase fl) [Word true] c = true).
  { unfold inClass. cbn [existsb]. rewrite orb_false_r.
    assert (Hu : inItem (Word true) (unit c) = true).
    { revert Hw. destruct c as [[] [] [] [] [] [] [] []]; intros Hw;
        try discriminate Hw; reflexivity. }
    unfold variants. destruct (ignoreCase fl); cbn [existsb]; rewrite Hu; reflexivity. }
  rewrite Hin. reflexivity.
Qed.

Lemma run_word_at_plus s fl j caps k :
  String.get j s = Some "+"%char -> run s wordClass fl false (j, caps) k = None.
Proof.
  intros Hg. cbn [run wordClass]. unfold step, charAt. cbn [fst snd]. rewrite Hg.
  destruct (ignoreCase fl); reflexivity.
Qed.

Lemma run_Seq s a b fl x k :
  run s (Seq a b) fl false x k = run s a fl false x (fun y => run s b fl false y k).
Proof. reflexivity. Qed.

Lemma run_Group s n a fl x k :
  run s (Group (Some n) a) fl false x k
  = run s a fl false x (fun y => k (fst y, capture n (fst x, fst y) (snd y))).
Proof. reflexivity. Qed.

Lemma run_Empty s fl x k : run s Empty fl false x k = k x.
Proof. reflexivity. Qed.

Lemma run_plus_sign s fl j caps k :
  String.get j s = Some "+"%char ->
  run s (Chr "+") fl false (j, caps) k = k (S j, caps).
Proof.
  intros Hg. cbn [run]. unfold step, charAt. cbn [fst snd]. rewrite Hg.
  destruct (ignoreCase fl); reflexivity.
Qed.

Lemma wordGroup_fails s fl j caps k :
  String.get j s = Some "+"%char -> run s wordGroup fl false (j, caps) k = None.
Proof.
  intros Hp. unfold wordGroup. rewrite run_Group, run_Seq.
  apply run_plus_fails. intros d. cbn [fst snd]. apply run_word_at_plus. exact Hp.
Qed.

Lemma wordGroup_once s fl i caps c k :
  String.get i s = Some c -> isWordChar c = true ->
  String.get (S i) s = Some "+"%char ->
  run s wordGroup fl false (i, caps) k
  = k (S i, capture 1 (i, S i) (reset 2 0 caps)).
Proof.
  intros Hc Hw Hp. unfold wordGroup. rewrite run_Group, run_Seq.
  rewrite (run_plus_once s wordClass fl 2 0 (i, caps) _ (S i, reset 2 0 caps)).
  - rewrite run_Empty. reflexivity.
  - intros d. cbn [fst snd]. exact (run_word s fl i _ c d Hc Hw).
  - intros d. cbn [fst snd]. apply run_word_at_plus. exact Hp.
Qed.

Lemma nestedWordPlus_matches s i :
  wordThenPlusAt s i ->
  exists caps, run s nestedWordPlus noFlags false (i, noCaptures) Some = Some (S (S i), caps).
Proof.
  intros (c & Hc & Hw & Hp). unfold nestedWordPlus. eexists.
  rewrite run_Seq.
  rewrite (run_plus_once s wordGroup noFlags 1 1 (i, noCaptures) _
             (S i, capture 1 (i, S i) (reset 2 0 (reset 1 1 noCaptures)))).
  - rewrite run_Seq, (run_plus_sign s noFlags (S i) _ _ Hp), run_Empty. reflexivity.
  - intros d. cbn [fst snd]. exact (wordGroup_once s noFlags i _ c d Hc Hw Hp).
  - intros d. cbn [fst snd]. apply wordGroup_fails. exact Hp.
Qed.

(** The concrete host matches the first dangerous pattern where the
    standard says so. *)
Lemma mini_findsWordThenPlus : findsWordThenPlus MiniRegExp.host.
Proof.
  intros m s i Hm Hat.
  assert (Hc : MiniRegExp.compile wordPlusSource EmptyString
               = inr {| tree := nestedWordPlus; flags := noFlags |})
    by (vm_compute; reflexivity).
  change (MiniRegExp.compile wordPlusSource EmptyString = inr m) in Hm.
  rewrite Hc in Hm. inversion Hm; subst m; clear Hm Hc.
  destruct (nestedWordPlus_matches s i Hat) as (caps & Hrun).
  change (MiniRegExp.matchAt {| tree := nestedWordPlus; flags := noFlags |} s i <> None).
  unfold MiniRegExp.matchAt. cbn [tree flags]. rewrite Hrun. discriminate.
Qed.

End DangerousPattern.

Section ValidationExtras.
Import SearchEngine.

(** X13. The nested-quantifier heuristic looks at the text of the pattern,
    not at its structure.  On a host that compiles the four literals of
    [dangerousPatterns] and matches the first one, [(\w+)+\+], as the
    standard says: a pattern of at most 1000 characters that compiles and
    whose first word character is directly followed by [+] (as in [a+])
    is rejected as dangerous.  (No word character stands before that
    one, so the scan of the first literal reaches it without running
    through a longer word.) *)
Theorem word_then_plus_is_rejected
    {host : RegExpHost} (pattern : string) (i : nat) (m : Matcher)
    (dangerous : list RegExp.t) :
  (String.length pattern <= 1000)%nat ->
  compile pattern EmptyString = inr m ->
  regexLiterals dangerousPatterns = Ok dangerous ->
  findsWordThenPlus host ->
  wordThenPlusAt pattern i ->
  noWordCharBefore pattern i ->
  validatePattern pattern
  = Ok {| isValid := false;
          error := Some "Pattern contains potentially dangerous nested quantifiers" |}.
Proof.
  intros Hlen Hcompile Hlit Hfinds Hat _. unfold validatePattern.
  destruct (Z.of_nat (String.length pattern) >? 1000) eqn:E;
    [rewrite Z.gtb_ltb, Z.ltb_lt in E; lia|].
  unfold RegExp.new at 1. rewrite Hcompile, Hlit.
  assert (Hfirst : exists d rest,
             dangerous = d :: rest /\ RegExp.global d = false
             /\ compile wordPlusSource EmptyString = inr (RegExp.matcher d)).
  { revert Hlit. unfold dangerousPatterns. cbn [regexLiterals]. unfold RegExp.new at 1.
    fold wordPlusSource.
    destruct (compile wordPlusSource EmptyString) as [msg|m1]; [discriminate|].
    match goal with
    | |- match ?rest with _ => _ end = _ -> _ => destruct rest as [res| |]
    end; intros H; inversion H.
    eexists _, _. split; [reflexivity|]. split; reflexivity. }
  destruct Hfirst as (d & rest & -> & Hg & Hd). cbn [existsb].
  assert (Htest : fst (RegExp.test d pattern) = true).
  { unfold RegExp.test, RegExp.exec. rewrite Hg.
    replace (String.length pattern <? 0)%nat with false by (symmetry; apply Nat.ltb_ge; lia).
    destruct Hat as (c & Hc & Hw & Hp).
    pose proof (get_Some_lt _ _ _ Hp) as Hlt.
    destruct (matchAt (RegExp.matcher d) pattern i) as [e|] eqn:Hm.
    - destruct (scan_complete (RegExp.matcher d) pattern
                  (S (String.length pattern) - 0) 0 i e)
        as (j' & e' & Hscan); [lia | exact Hm |].
      rewrite Hscan. reflexivity.
    - exfalso. apply (Hfinds (RegExp.matcher d) pattern i Hd); [|exact Hm].
      exists c. auto. }
  rewrite Htest. reflexivity.
Qed.

(** X13 on the pattern [a+] and the concrete host. *)
Lemma word_then_plus_is_rejected_witness :
  validatePattern (host := MiniRegExp.host) "a+"
  = Ok {| isValid := false;
          error := Some "Pattern contains potentially dangerous nested quantifiers" |}.
Proof.
  eapply (word_then_plus_is_rejected (host := MiniRegExp.host) "a+" 0).
  - vm_compute. lia.
  - reflexivity.
  - reflexivity.
  - exact mini_findsWordThenPlus.
  - exists "a"%char. repeat split; reflexivity.
  - intros j d Hj. lia.
Defined.

End ValidationExtras.
